(** * Subtitle-video synthesis: a shallow embedding and its verification

    The development embeds the core of the Python sources
    [ffmpeg_subtitle_merger.py] (class [FFmpegSubtitleMerger]) and
    [batch_merger.py] (class [BatchSubtitleMerger]) and checks the
    statements of the design specification against them.

    Layout: all definitions come first, grouped in modules: the
    run-time model ([Py], [PathLib], [F64], [Fractions], [FFmpegLib],
    [OS]), the program ([Merger], [Batch]), the vocabulary of the
    proofs ([Rounding], [Spec]) and sample environments ([Sample]).
    The command-line entry points ([Cli], [MergerMain], [BatchMain]),
    further vocabulary ([Terms], [Steps]) and samples ([Sample2]) close
    the definitions.
    The lemmas and theorems follow, one module per component.

    Python's [float] is modelled exactly, as IEEE 754 binary64 with the
    operations of [SpecFloat]; exceptions, log records, printed lines
    and external commands are explicit (module [Py]). *)

From Stdlib Require Import String Ascii List ZArith Bool Lia.
From Stdlib Require Import QArith Qround Qpower Lqa.
From Stdlib Require Import Floats.SpecFloat.
From Stdlib Require Import DecimalString DecimalPos.
From Stdlib Require Import Zpower Setoid Morphisms.
Import ListNotations.

Local Open Scope string_scope.
Local Open Scope Z_scope.

(* ================================================================= *)
(** * Python run-time model *)

Module Py.

(** The exception classes the program raises, catches or can receive
    from the libraries it calls, with Python's subclass relation. *)
Inductive exc_class : Set :=
| BaseException | Exception | KeyboardInterrupt
| ArithmeticError | OverflowError | ZeroDivisionError
| LookupError | KeyError
| OSError | FileNotFoundError | PermissionError
| RuntimeError | TypeError | ValueError
| SubprocessError | TimeoutExpired
| FFmpegError.

Definition exc_class_id (c : exc_class) : nat :=
  match c with
  | BaseException => 0 | Exception => 1 | KeyboardInterrupt => 2
  | ArithmeticError => 3 | OverflowError => 4 | ZeroDivisionError => 5
  | LookupError => 6 | KeyError => 7
  | OSError => 8 | FileNotFoundError => 9 | PermissionError => 10
  | RuntimeError => 11 | TypeError => 12 | ValueError => 13
  | SubprocessError => 14 | TimeoutExpired => 15
  | FFmpegError => 16
  end%nat.

Definition exc_class_eqb (c d : exc_class) : bool :=
  Nat.eqb (exc_class_id c) (exc_class_id d).

(** Direct base class. *)
Definition base_class (c : exc_class) : option exc_class :=
  match c with
  | BaseException => None
  | Exception | KeyboardInterrupt => Some BaseException
  | ArithmeticError | LookupError | OSError | RuntimeError
  | TypeError | ValueError | SubprocessError | FFmpegError => Some Exception
  | OverflowError | ZeroDivisionError => Some ArithmeticError
  | KeyError => Some LookupError
  | FileNotFoundError | PermissionError => Some OSError
  | TimeoutExpired => Some SubprocessError
  end.

Fixpoint issubclass_depth (n : nat) (c d : exc_class) : bool :=
  exc_class_eqb c d ||
  match n with
  | O => false
  | S n' =>
      match base_class c with
      | Some b => issubclass_depth n' b d
      | None => false
      end
  end.

(** The hierarchy above has depth 3. *)
Definition issubclass (c d : exc_class) : bool := issubclass_depth 3 c d.

(** An exception instance: its class, [str(e)], and the [stderr]
    attribute carried by [ffmpeg.Error]. *)
Record exc : Type := mkExc {
  exc_type : exc_class;
  exc_msg : string;
  exc_stderr : option string
}.

Definition new_exc (c : exc_class) (msg : string) : exc := mkExc c msg None.

Inductive log_level : Set := DEBUG | INFO | WARNING | ERROR.

(** Values interpolated into a log line or a printed line. *)
Inductive fmt_arg : Type :=
| ArgStr (s : string)
| ArgInt (z : Z)
| ArgFloat (f : spec_float).

(** Result of running a piece of Python code: it returns a value or
    raises. *)
Inductive outcome (A : Type) : Type :=
| Returned (a : A)
| Raised (e : exc).
Arguments Returned {A} a.
Arguments Raised {A} e.

Section Effects.
(** [Cmd] is the type of external commands the program runs. *)
Variable Cmd : Type.

(** Observable effects, in program order: log records (level, f-string
    template, interpolated values), printed lines and external merges. *)
Inductive event : Type :=
| EvLog (lvl : log_level) (text : string) (args : list fmt_arg)
| EvPrint (text : string) (args : list fmt_arg)
| EvRun (c : Cmd).

(** Computations: the trace of effects and the outcome. *)
Definition M (A : Type) : Type := (list event * outcome A)%type.

Definition ret {A} (a : A) : M A := ([], Returned a).
Definition raise {A} (e : exc) : M A := ([], Raised e).
Definition lift {A} (o : outcome A) : M A := ([], o).
Definition emit (ev : event) : M unit := ([ev], Returned tt).

Definition bind {A B} (m : M A) (k : A -> M B) : M B :=
  match m with
  | (tr, Returned a) => let (tr', r) := k a in ((tr ++ tr')%list, r)
  | (tr, Raised e) => (tr, Raised e)
  end.

(** The first [except] clause whose classes match the exception. *)
Fixpoint select_clause {A} (e : exc)
    (clauses : list (list exc_class * (exc -> M A))) : option (exc -> M A) :=
  match clauses with
  | [] => None
  | (classes, handler) :: rest =>
      if existsb (issubclass (exc_type e)) classes then Some handler
      else select_clause e rest
  end.

(** [try: body except C1: h1 except C2: h2 ...]: an exception raised
    by a handler is not caught by a later clause. *)
Definition try_except {A} (body : M A)
    (clauses : list (list exc_class * (exc -> M A))) : M A :=
  match body with
  | (tr, Raised e) =>
      match select_clause e clauses with
      | Some handler => let (tr', r) := handler e in ((tr ++ tr')%list, r)
      | None => (tr, Raised e)
      end
  | done => done
  end.

Definition trace_of {A} (m : M A) : list event := fst m.
Definition outcome_of {A} (m : M A) : outcome A := snd m.

End Effects.

Arguments EvLog {Cmd} lvl text args.
Arguments EvPrint {Cmd} text args.
Arguments EvRun {Cmd} c.
Arguments ret {Cmd A} a.
Arguments raise {Cmd A} e.
Arguments lift {Cmd A} o.
Arguments emit {Cmd} ev.
Arguments bind {Cmd A B} m k.
Arguments select_clause {Cmd A} e clauses.
Arguments try_except {Cmd A} body clauses.
Arguments trace_of {Cmd A} m.
Arguments outcome_of {Cmd A} m.

(** ** Strings *)

Definition is_upper (c : ascii) : bool :=
  let n := nat_of_ascii c in (Nat.leb 65 n && Nat.leb n 90)%bool.

Definition lower_ascii (c : ascii) : ascii :=
  if is_upper c then ascii_of_nat (nat_of_ascii c + 32) else c.

(** [str.lower()] on the ASCII range; other bytes are left alone. *)
Fixpoint lower (s : string) : string :=
  match s with
  | EmptyString => EmptyString
  | String c s' => String (lower_ascii c) (lower s')
  end.

(** [s.startswith(p)]. *)
Fixpoint startswith (s p : string) {struct p} : bool :=
  match p with
  | EmptyString => true
  | String a p' =>
      match s with
      | EmptyString => false
      | String b s' => (Ascii.eqb a b && startswith s' p')%bool
      end
  end.

(** [needle in hay]. *)
Fixpoint contains (needle hay : string) : bool :=
  (startswith hay needle ||
   match hay with
   | EmptyString => false
   | String _ hay' => contains needle hay'
   end)%bool.

Fixpoint rfind_from (c : ascii) (s : string) (i : nat) (last : option nat)
    : option nat :=
  match s with
  | EmptyString => last
  | String a s' =>
      rfind_from c s' (S i) (if Ascii.eqb a c then Some i else last)
  end.

(** [s.rfind(c)], [None] standing for [-1]. *)
Definition rfind (c : ascii) (s : string) : option nat := rfind_from c s 0%nat None.

(** [s.replace(c, by)] for a one-character pattern. *)
Fixpoint replace_char (c : ascii) (by_ : string) (s : string) : string :=
  match s with
  | EmptyString => EmptyString
  | String a s' =>
      if Ascii.eqb a c then by_ ++ replace_char c by_ s'
      else String a (replace_char c by_ s')
  end.

(** [s.split(c)]. *)
Fixpoint split_on (c : ascii) (s : string) : list string :=
  match s with
  | EmptyString => [EmptyString]
  | String a s' =>
      if Ascii.eqb a c then EmptyString :: split_on c s'
      else match split_on c s' with
           | [] => [String a EmptyString]
           | w :: ws => String a w :: ws
           end
  end.

(** [sep.join(l)]. *)
Fixpoint join (sep : string) (l : list string) : string :=
  match l with
  | [] => EmptyString
  | [x] => x
  | x :: rest => x ++ sep ++ join sep rest
  end.

(** [str(n)] for an [int]. *)
Definition str_of_int (n : Z) : string := NilZero.string_of_int (Z.to_int n).

(** [repr] of a list of plain strings, as an f-string prints it. *)
Definition repr_str_list (l : list string) : string :=
  "[" ++ join ", " (map (fun s => "'" ++ s ++ "'") l) ++ "]".

(** [x in l] for a list of strings. *)
Definition str_in (x : string) (l : list string) : bool :=
  existsb (String.eqb x) l.

End Py.

Declare Scope py_scope.
Delimit Scope py_scope with py.
Notation "x <- m ;; k" := (Py.bind m (fun x => k))
  (at level 61, m at next level, right associativity) : py_scope.
Notation "m ;;; k" := (Py.bind m (fun _ => k))
  (at level 61, right associativity) : py_scope.

(* ================================================================= *)
(** * [pathlib] and [os.path], POSIX flavour *)

Module PathLib.
Import Py.

Definition slash : ascii := "/"%char.
Definition dot : ascii := "."%char.

(** [PurePosixPath(s).parts]: the root (if any) followed by the
    components; empty components and ["."] are dropped. *)
Definition components (s : string) : list string :=
  filter (fun w => negb (String.eqb w "" || String.eqb w "."))
         (split_on slash s).

Definition is_absolute (s : string) : bool := startswith s "/".

Definition parts (s : string) : list string :=
  ((if is_absolute s then ["/"] else []) ++ components s)%list.

(** [Path(s).name]. *)
Definition name (s : string) : string := last (components s) "".

(** Position of the dot that starts the suffix of a file name:
    the last dot, unless it is the first or the last character. *)
Definition suffix_pos (nm : string) : option nat :=
  match rfind dot nm with
  | Some i =>
      if (Nat.ltb 0 i && Nat.ltb i (String.length nm - 1))%bool
      then Some i else None
  | None => None
  end.

Definition suffix_of_name (nm : string) : string :=
  match suffix_pos nm with
  | Some i => substring i (String.length nm - i) nm
  | None => ""
  end.

Definition stem_of_name (nm : string) : string :=
  match suffix_pos nm with
  | Some i => substring 0 i nm
  | None => nm
  end.

(** [Path(s).suffix] and [Path(s).stem]. *)
Definition suffix (s : string) : string := suffix_of_name (name s).
Definition stem (s : string) : string := stem_of_name (name s).

(** [Path(s).parent], as its parts. *)
Definition parent (s : string) : list string :=
  match components s with
  | [] => parts s
  | _ :: _ => removelast (parts s)
  end.

Fixpoint is_prefix (p l : list string) : bool :=
  match p, l with
  | [], _ => true
  | _ :: _, [] => false
  | x :: p', y :: l' => (String.eqb x y && is_prefix p' l')%bool
  end.

(** [a.relative_to(b)] returns (does not raise [ValueError]) exactly
    when the parts of [b] are a prefix of the parts of [a]. *)
Definition relative_to_ok (a b : list string) : bool := is_prefix b a.

Fixpoint list_eqb (a b : list string) : bool :=
  match a, b with
  | [], [] => true
  | x :: a', y :: b' => (String.eqb x y && list_eqb a' b')%bool
  | _, _ => false
  end.

(** [str(p)] for a path given by its parts. *)
Definition str_of_parts (p : list string) : string :=
  match p with
  | [] => "."
  | "/" :: rest => "/" ++ join "/" rest
  | _ => join "/" p
  end.

(** [str(Path(dir) / file)] for a single-component [file]. *)
Definition joinpath (dir : list string) (file : string) : string :=
  str_of_parts (dir ++ [file])%list.

(** [os.path.join(a, b)]. *)
Definition os_path_join (a b : string) : string :=
  if startswith b "/" then b
  else if (String.eqb a "" || String.eqb (substring (String.length a - 1) 1 a) "/")%bool
       then a ++ b
       else a ++ "/" ++ b.

(** [os.path.basename(s)]: what follows the last slash. *)
Definition basename (s : string) : string := last (split_on slash s) "".

End PathLib.

(* ================================================================= *)
(** * Python [float]: IEEE 754 binary64 *)

Module F64.
Import Py.

(** Python's [float] is binary64; its operations are the correctly
    rounded ones (round to nearest, ties to even) of [SpecFloat]. *)
Definition prec : Z := 53.
Definition emax : Z := 1024.

Definition float : Type := spec_float.

(** A well-formed binary64 datum (canonical mantissa and exponent). *)
Definition is_float64 (x : float) : Prop := valid_binary prec emax x = true.

Definition div (x y : float) : float := SFdiv prec emax x y.
Definition mul (x y : float) : float := SFmul prec emax x y.
Definition ltb (x y : float) : bool := SFltb x y.
Definition leb (x y : float) : bool := SFleb x y.

(** Literals of the source. *)
Definition zero : float := S754_zero false.
Definition f25_0 : float := S754_finite false 0x19000000000000 (-48).
Definition f2_0 : float := S754_finite false 0x10000000000000 (-51).
Definition f1_2 : float := S754_finite false 0x13333333333333 (-52).
Definition nan : float := S754_nan.

(** Rounding of the integer [n] to binary64. *)
Definition of_Z (n : Z) : float := binary_normalize prec emax n 0 false.

(** Truncation toward zero of a finite float. *)
Definition trunc (x : float) : Z :=
  match x with
  | S754_finite s m e =>
      cond_Zopp s (if 0 <=? e then Zpos m * 2 ^ e else Zpos m / 2 ^ (- e))
  | _ => 0
  end.

Definition is_zero (x : float) : bool :=
  match x with S754_zero _ => true | _ => false end.

Section Ops.
Variable Cmd : Type.
Local Open Scope py_scope.

(** [x / y] on floats. *)
Definition truediv (x y : float) : M Cmd float :=
  if is_zero y then raise (new_exc ZeroDivisionError "float division by zero")
  else ret (div x y).

(** [min(a, b)]: [b] when [b < a], else [a]. *)
Definition min2 (a b : float) : float := if ltb b a then b else a.

(** [float(n)] for an [int]. *)
Definition float_of_int (n : Z) : M Cmd float :=
  match of_Z n with
  | S754_infinity _ =>
      raise (new_exc OverflowError "int too large to convert to float")
  | x => ret x
  end.

(** [n * x] for an [int] and a [float]. *)
Definition int_mul_float (n : Z) (x : float) : M Cmd float :=
  y <- float_of_int n ;; ret (mul y x).

(** [int(x)] for a [float]. *)
Definition int_of_float (x : float) : M Cmd Z :=
  match x with
  | S754_nan =>
      raise (new_exc ValueError "cannot convert float NaN to integer")
  | S754_infinity _ =>
      raise (new_exc OverflowError "cannot convert float infinity to integer")
  | _ => ret (trunc x)
  end.

(** [n / d] for two [int]s: the correctly rounded quotient. *)
Definition int_truediv (n d : Z) : M Cmd float :=
  if d =? 0 then raise (new_exc ZeroDivisionError "division by zero")
  else if n =? 0 then ret (S754_zero (d <? 0))
  else
    let '(q, e, l) := SFdiv_core_binary prec emax (Z.abs n) 0 (Z.abs d) 0 in
    match binary_round_aux prec emax (xorb (n <? 0) (d <? 0)) q e l with
    | S754_infinity _ =>
        raise (new_exc OverflowError
                 "integer division result too large for a float")
    | x => ret x
    end.

End Ops.

Arguments truediv {Cmd} x y.
Arguments float_of_int {Cmd} n.
Arguments int_mul_float {Cmd} n x.
Arguments int_of_float {Cmd} x.
Arguments int_truediv {Cmd} n d.

End F64.

(* ================================================================= *)
(** * [fractions.Fraction] built from a string *)

Module Fractions.
Import Py.

Definition is_digit (c : ascii) : bool :=
  let n := nat_of_ascii c in (Nat.leb 48 n && Nat.leb n 57)%bool.

(** ASCII characters matched by [\s]. *)
Definition is_space (c : ascii) : bool :=
  let n := nat_of_ascii c in
  (Nat.eqb n 32 || (Nat.leb 9 n && Nat.leb n 13) || (Nat.leb 28 n && Nat.leb n 31))%bool.

Fixpoint lstrip (s : list ascii) : list ascii :=
  match s with
  | c :: s' => if is_space c then lstrip s' else s
  | [] => []
  end.

Definition strip (s : list ascii) : list ascii :=
  rev (lstrip (rev (lstrip s))).

Definition digit_val (c : ascii) : Z := Z.of_nat (nat_of_ascii c) - 48.

(** [\d+(_\d+)*]: digits, single underscores allowed between digits.
    [acc] is the value read so far, [prev_digit] tells whether the
    previous character was a digit. *)
Fixpoint digits_value (s : list ascii) (acc : Z) (prev_digit : bool)
    : option Z :=
  match s with
  | [] => if prev_digit then Some acc else None
  | c :: s' =>
      if is_digit c then digits_value s' (10 * acc + digit_val c) true
      else if (Ascii.eqb c "_" && prev_digit)%bool
           then digits_value s' acc false
           else None
  end.

Definition int_of_digits (s : list ascii) : option Z := digits_value s 0 false.

Definition split_sign (s : list ascii) : bool * list ascii :=
  match s with
  | c :: s' =>
      if Ascii.eqb c "-" then (true, s')
      else if Ascii.eqb c "+" then (false, s')
      else (false, s)
  | [] => (false, [])
  end.

Fixpoint split_at_slash (s : list ascii) : option (list ascii * list ascii) :=
  match s with
  | [] => None
  | c :: s' =>
      if Ascii.eqb c "/" then Some ([], s')
      else match split_at_slash s' with
           | Some (a, b) => Some (c :: a, b)
           | None => None
           end
  end.

Section Ctor.
Variable Cmd : Type.

(** [Fraction(s)] for a string [s] that contains a slash: the form
    [sign digits / digits] between optional blanks, as the class's
    pattern reads it (ASCII digits and blanks; integers unbounded).
    The value is numerator and denominator. Any other string with a
    slash is an invalid literal. *)
Definition Fraction_of_slashed (s : string) : M Cmd (Z * Z) :=
  let invalid := raise (new_exc ValueError ("Invalid literal for Fraction: " ++ s)) in
  let (neg, body) := split_sign (strip (list_ascii_of_string s)) in
  match split_at_slash body with
  | None => invalid
  | Some (num, den) =>
      match int_of_digits num, int_of_digits den with
      | Some n, Some d =>
          if d =? 0
          then raise (new_exc ZeroDivisionError
                        ("Fraction(" ++ str_of_int (if neg then - n else n) ++ ", 0)"))
          else ret (if neg then - n else n, d)
      | _, _ => invalid
      end
  end.

(** [float(Fraction)]: numerator / denominator by [int] true division. *)
Definition float_of_Fraction (f : Z * Z) : M Cmd F64.float :=
  F64.int_truediv (fst f) (snd f).

End Ctor.

Arguments Fraction_of_slashed {Cmd} s.
Arguments float_of_Fraction {Cmd} f.

End Fractions.

(* ================================================================= *)
(** * The external tool as the program sees it *)

Module FFmpegLib.
Import Py.

(** A stream entry of the prober's JSON output. A key may be absent;
    a present key has the type the prober gives it: integers for the
    frame size, strings for the rest. *)
Record stream_dict : Type := mkStream {
  codec_type : option string;
  width : option Z;
  height : option Z;
  r_frame_rate : option string;
  duration : option string;
  bit_rate : option string;
  codec_name : option string;
  pix_fmt : option string
}.

(** The dictionary returned by [ffmpeg.probe]. *)
Record probe_dict : Type := mkProbe { streams : list stream_dict }.

(** A filter applied to the video stream: its name and keyword
    arguments, in insertion order. *)
Record filter_node : Type := mkFilter {
  filter_name : string;
  filter_kwargs : list (string * string)
}.

(** The single invocation built by [merge_video_subtitle]: one input,
    the filtered video stream and the untouched audio stream, one
    output with its keyword arguments, and the overwrite flag. *)
Record command : Type := mkCommand {
  cmd_input : string;
  cmd_video_filter : filter_node;
  cmd_output : string;
  cmd_output_kwargs : list (string * string);
  cmd_overwrite : bool
}.

(** Value of a keyword argument ([None] when absent). *)
Fixpoint kwarg (k : string) (l : list (string * string)) : option string :=
  match l with
  | [] => None
  | (k', v) :: rest => if String.eqb k k' then Some v else kwarg k rest
  end.

(** The file name the subtitle filter of a command is given. *)
Definition subtitle_filename (c : command) : option string :=
  kwarg "filename" (filter_kwargs (cmd_video_filter c)).

(** Result of [subprocess.run(..., capture_output=True, text=True)]. *)
Record completed_process : Type := mkCompleted {
  returncode : Z;
  stdout : string
}.

End FFmpegLib.

(* ================================================================= *)
(** * Operating system and interpreter *)

Module OS.
Import Py FFmpegLib.

Inductive os_kind : Set := posix | nt.

Record file_meta : Type := mkFile {
  readable : bool;
  size : Z
}.

(** Everything outside the program that its functions consult. *)
Record environment : Type := mkEnv {
  os_name : os_kind;
  (** [os.path.abspath] *)
  abspath : string -> string;
  (** the files that exist, with their metadata *)
  files : string -> option file_meta;
  (** [ffmpeg.probe(path)] *)
  ffprobe : string -> outcome probe_dict;
  (** [subprocess.run(['ffmpeg', '-encoders'], ..., timeout=10)] *)
  encoders_query : outcome completed_process;
  (** [ffmpeg.run] of the synthetic hardware-encoder trial *)
  nvenc_trial : outcome unit;
  (** [ffmpeg.run] of a merge command *)
  ffmpeg_run : command -> outcome unit;
  (** [float(s)] for a string: the value, or [None] for [ValueError] *)
  float_of_str : string -> option F64.float;
  (** [int(s)] for a string: the value, or [None] for [ValueError] *)
  int_of_str : string -> option Z
}.

(** [os.path.exists(p)] *)
Definition path_exists (env : environment) (p : string) : bool :=
  match files env p with Some _ => true | None => false end.

(** [os.access(p, os.R_OK)] *)
Definition access_R_OK (env : environment) (p : string) : bool :=
  match files env p with Some f => readable f | None => false end.

(** [os.path.getsize(p)] *)
Definition getsize {Cmd} (env : environment) (p : string) : M Cmd Z :=
  match files env p with
  | Some f => ret (size f)
  | None => raise (new_exc FileNotFoundError p)
  end.

End OS.

(* ================================================================= *)
(** * [FFmpegSubtitleMerger] *)

Module Merger.
Import Py PathLib FFmpegLib OS.
Local Open Scope py_scope.

Definition M (A : Type) : Type := Py.M command A.

Definition supported_video_formats : list string :=
  [".mps"; ".mp4"; ".avi"; ".mkv"; ".mov"; ".ts"; ".m2ts"].
Definition supported_subtitle_formats : list string :=
  [".ass"; ".srt"; ".vtt"; ".sub"].

Definition warning (text : string) (args : list fmt_arg) : M unit :=
  emit (EvLog WARNING text args).
Definition info (text : string) (args : list fmt_arg) : M unit :=
  emit (EvLog INFO text args).
Definition print (text : string) (args : list fmt_arg) : M unit :=
  emit (EvPrint text args).

(** [float(s)] and [int(s)] for a string [s]. *)
Definition float_of_string (env : environment) (s : string) : M F64.float :=
  match float_of_str env s with
  | Some x => ret x
  | None => raise (new_exc ValueError ("could not convert string to float: '" ++ s ++ "'"))
  end.

Definition int_of_string (env : environment) (s : string) : M Z :=
  match int_of_str env s with
  | Some n => ret n
  | None => raise (new_exc ValueError ("invalid literal for int() with base 10: '" ++ s ++ "'"))
  end.

(** ** [parse_frame_rate] *)
Definition parse_frame_rate (env : environment) (rate_str : string) : M F64.float :=
  try_except
    (if contains "/" rate_str
     then (fraction <- Fractions.Fraction_of_slashed rate_str ;;
           Fractions.float_of_Fraction fraction)
     else float_of_string env rate_str)
    [([ValueError; ZeroDivisionError],
      fun _ =>
        warning "无法解析帧率 '{rate_str}', 使用默认值 25.0" [ArgStr rate_str] ;;;
        ret F64.f25_0)].

(** ** [calculate_smart_bitrate] *)
Definition base_bitrate (pixels : Z) : Z :=
  if pixels <=? 640 * 480 then 1500000
  else if pixels <=? 1280 * 720 then 3000000
  else if pixels <=? 1920 * 1080 then 5000000
  else if pixels <=? 3840 * 2160 then 15000000
  else 40000000.

Definition calculate_smart_bitrate (width height : Z) (fps : F64.float)
    (original_bitrate : Z) : M Z :=
  if 0 <? original_bitrate then ret original_bitrate
  else
    let pixels := width * height in
    q <- F64.truediv fps F64.f25_0 ;;
    let fps_factor := F64.min2 q F64.f2_0 in
    x <- F64.int_mul_float (base_bitrate pixels) fps_factor ;;
    F64.int_of_float x.

(** ** [probe_video_info] *)

(** The dictionary the function returns. *)
Record video_info : Type := mkInfo {
  vi_width : Z;
  vi_height : Z;
  vi_fps : F64.float;
  vi_duration : F64.float;
  vi_bitrate : Z;
  vi_codec : string;
  vi_pix_fmt : string
}.

(** [next((s for s in streams if s['codec_type'] == 'video'), None)]:
    the subscript raises [KeyError] on an entry without the key. *)
Fixpoint first_video_stream (l : list stream_dict) : M (option stream_dict) :=
  match l with
  | [] => ret None
  | s :: rest =>
      match codec_type s with
      | None => raise (new_exc KeyError "'codec_type'")
      | Some t =>
          if String.eqb t "video" then ret (Some s)
          else first_video_stream rest
      end
  end.

(** [d.get(key, default)] *)
Definition get_or {A} (field : option A) (default : A) : A :=
  match field with Some v => v | None => default end.

(** [e.stderr.decode() if e.stderr else str(e)] *)
Definition ffmpeg_error_text (e : exc) : string :=
  match exc_stderr e with
  | Some s => if String.eqb s "" then exc_msg e else s
  | None => exc_msg e
  end.

Definition probe_video_info (env : environment) (video_path : string)
    : M video_info :=
  try_except
    (info "正在分析视频文件: {video_path}" [ArgStr video_path] ;;;
     probe <- lift (ffprobe env video_path) ;;
     video_stream <- first_video_stream (streams probe) ;;
     match video_stream with
     | None => raise (new_exc ValueError "未找到视频流")
     | Some vs =>
         let w := get_or (width vs) 0 in
         let h := get_or (height vs) 0 in
         if ((w =? 0) || (h =? 0))%bool
         then raise (new_exc ValueError "无法获取视频分辨率信息")
         else
           fps <- parse_frame_rate env (get_or (r_frame_rate vs) "25/1") ;;
           dur <- match duration vs with
                  | None => ret F64.zero
                  | Some s =>
                      try_except (float_of_string env s)
                        [([ValueError; TypeError],
                          fun _ => warning "无法解析视频时长" [] ;;; ret F64.zero)]
                  end ;;
           br <- match bit_rate vs with
                 | None => ret 0
                 | Some s =>
                     try_except (int_of_string env s)
                       [([ValueError; TypeError],
                         fun _ => warning "无法解析视频码率" [] ;;; ret 0)]
                 end ;;
           info "视频信息: {width}x{height} @ {fps}fps, 码率: {bitrate}bps"
                [ArgInt w; ArgInt h; ArgFloat fps; ArgInt br] ;;;
           ret (mkInfo w h fps dur br
                       (get_or (codec_name vs) "unknown")
                       (get_or (pix_fmt vs) "yuv420p"))
     end)
    [([FFmpegError],
      fun e => raise (new_exc RuntimeError ("FFmpeg探测失败: " ++ ffmpeg_error_text e)));
     ([Exception],
      fun e => raise (new_exc RuntimeError ("获取视频信息失败: " ++ exc_msg e)))].

(** ** [validate_inputs] *)
Definition validate_inputs (env : environment) (video_path subtitle_path : string)
    : M unit :=
  if negb (path_exists env video_path)
  then raise (new_exc FileNotFoundError ("视频文件不存在: " ++ video_path))
  else if negb (path_exists env subtitle_path)
  then raise (new_exc FileNotFoundError ("字幕文件不存在: " ++ subtitle_path))
  else if negb (access_R_OK env video_path)
  then raise (new_exc PermissionError ("无法读取视频文件: " ++ video_path))
  else if negb (access_R_OK env subtitle_path)
  then raise (new_exc PermissionError ("无法读取字幕文件: " ++ subtitle_path))
  else
    let video_ext := lower (suffix video_path) in
    let subtitle_ext := lower (suffix subtitle_path) in
    if negb (str_in video_ext supported_video_formats)
    then raise (new_exc ValueError
                  ("不支持的视频格式: " ++ video_ext ++ "，支持的格式: "
                   ++ repr_str_list supported_video_formats))
    else if negb (str_in subtitle_ext supported_subtitle_formats)
    then raise (new_exc ValueError
                  ("不支持的字幕格式: " ++ subtitle_ext ++ "，支持的格式: "
                   ++ repr_str_list supported_subtitle_formats))
    else
      video_size <- getsize env video_path ;;
      subtitle_size <- getsize env subtitle_path ;;
      if video_size =? 0 then raise (new_exc ValueError "视频文件为空")
      else if subtitle_size =? 0 then raise (new_exc ValueError "字幕文件为空")
      else info "输入验证通过 - 视频: {video_size} bytes, 字幕: {subtitle_size} bytes"
                [ArgInt video_size; ArgInt subtitle_size].

(** ** [check_nvidia_support] *)

(** The first [try] block: [Some true] stands for its [return True],
    [None] for falling through to the second block. *)
Definition nvenc_listed (env : environment) : M (option bool) :=
  try_except
    (result <- lift (encoders_query env) ;;
     if ((returncode result =? 0) && contains "h264_nvenc" (stdout result))%bool
     then info "检测到NVIDIA NVENC编码器支持" [] ;;; ret (Some true)
     else ret None)
    [([TimeoutExpired; SubprocessError; FileNotFoundError],
      fun _ => warning "无法查询FFmpeg编码器列表" [] ;;; ret None)].

Definition nvenc_trial_run (env : environment) : M bool :=
  try_except
    (lift (nvenc_trial env) ;;;
     info "NVIDIA NVENC编码器测试成功" [] ;;;
     ret true)
    [([FFmpegError; TimeoutExpired],
      fun _ => info "NVIDIA NVENC编码器不可用，将使用软件编码" [] ;;; ret false)].

Definition check_nvidia_support (env : environment) : M bool :=
  listed <- nvenc_listed env ;;
  match listed with
  | Some b => ret b
  | None => nvenc_trial_run env
  end.

(** ** [escape_subtitle_path] *)
Definition escape_subtitle_path (env : environment) (subtitle_path : string)
    : string :=
  let abs_path := abspath env subtitle_path in
  let abs_path :=
    match os_name env with
    | nt => replace_char ":" "\:" (replace_char "\" "/" abs_path)
    | posix => abs_path
    end in
  replace_char "]" "\]" (replace_char "[" "\[" abs_path).

(** ** [merge_video_subtitle] *)

(** [if force_style:] holds for a non-empty string. *)
Definition truthy (s : option string) : bool :=
  match s with
  | Some t => negb (String.eqb t "")
  | None => false
  end.

(** The keyword arguments of the subtitle filter. *)
Definition subtitle_filter_params (subtitle_path : string)
    (force_style : option string) : list (string * string) :=
  (("filename", subtitle_path) ::
   (if truthy force_style then [("force_style", get_or force_style "")] else []))%list.

(** The command assembled by the function from its arguments, the
    codec and the codec parameters. *)
Definition merge_command (video_path subtitle_path output_path : string)
    (force_style : option string) (video_codec : string)
    (codec_params : list (string * string)) : command :=
  mkCommand video_path
    (mkFilter "subtitles" (subtitle_filter_params subtitle_path force_style))
    output_path
    ([("vcodec", video_codec); ("acodec", "copy"); ("pix_fmt", "yuv420p")]
       ++ codec_params)%list
    true.

Definition merge_video_subtitle (env : environment)
    (video_path subtitle_path output_path : string)
    (force_style : option string) : M unit :=
  validate_inputs env video_path subtitle_path ;;;
  vi <- probe_video_info env video_path ;;
  smart_bitrate <- calculate_smart_bitrate (vi_width vi) (vi_height vi)
                     (vi_fps vi) (vi_bitrate vi) ;;
  use_nvenc <- check_nvidia_support env ;;
  plan <- (if use_nvenc : bool
           then
             info "使用NVIDIA硬件编码 (h264_nvenc)" [] ;;;
             scaled <- F64.int_mul_float smart_bitrate F64.f1_2 ;;
             maxrate <- F64.int_of_float scaled ;;
             ret ("h264_nvenc",
                  [("preset", "medium"); ("rc", "vbr"); ("cq", "23");
                   ("b:v", str_of_int smart_bitrate);
                   ("maxrate", str_of_int maxrate);
                   ("bufsize", str_of_int (smart_bitrate * 2));
                   ("gpu", "0")])
           else
             info "使用软件编码 (libx264)" [] ;;;
             ret ("libx264",
                  [("preset", "medium"); ("crf", "23");
                   ("b:v", str_of_int smart_bitrate);
                   ("threads", "0")])) ;;
  let video_codec := fst plan in
  let output := merge_command video_path subtitle_path output_path
                  force_style video_codec (snd plan) in
  try_except
    (print "开始合成视频..." [] ;;;
     print "输入视频: {video_path}" [ArgStr video_path] ;;;
     print "输入字幕: {subtitle_path}" [ArgStr subtitle_path] ;;;
     print "输出视频: {output_path}" [ArgStr output_path] ;;;
     print "使用编码器: {video_codec}" [ArgStr video_codec] ;;;
     emit (EvRun output) ;;;
     lift (ffmpeg_run env output) ;;;
     print "视频合成完成!" [])
    [([FFmpegError],
      fun e => raise (new_exc RuntimeError ("FFmpeg处理失败: " ++ ffmpeg_error_text e)))].

End Merger.

(* ================================================================= *)
(** * [BatchSubtitleMerger] *)

Module Batch.
Import Py PathLib FFmpegLib.

Definition event : Type := Py.event command.

Definition video_extensions : list string :=
  ["*.mp4"; "*.avi"; "*.mkv"; "*.mov"; "*.mps"; "*.ts"; "*.m2ts"].
Definition subtitle_extensions : list string :=
  ["*.ass"; "*.srt"; "*.vtt"; "*.sub"].

(** ** [find_video_subtitle_pairs] *)

(** The two collection loops: for each pattern, in order, the files
    [glob.glob(os.path.join(directory, '**', ext), recursive=True)]
    returns, in the order it returns them. *)
Definition collect (glob : string -> list string) (directory : string)
    (exts : list string) : list string :=
  flat_map (fun ext => glob (os_path_join (os_path_join directory "**") ext)) exts.

(** The test on the two stems. *)
Definition stems_match (video_stem subtitle_stem : string) : bool :=
  (String.eqb subtitle_stem video_stem
   || startswith subtitle_stem (video_stem ++ ".")
   || startswith video_stem (subtitle_stem ++ "."))%bool.

(** The nested [try]/[except ValueError] on the two directories. *)
Definition dirs_related (video_dir subtitle_dir : list string) : bool :=
  if relative_to_ok video_dir subtitle_dir then true
  else if relative_to_ok subtitle_dir video_dir then true
  else list_eqb video_dir subtitle_dir.

Definition is_candidate (video_file subtitle_file : string) : bool :=
  (stems_match (stem video_file) (stem subtitle_file)
   && dirs_related (parent video_file) (parent subtitle_file))%bool.

Definition matching_subtitles (video_file : string)
    (subtitle_files : list string) : list string :=
  filter (is_candidate video_file) subtitle_files.

(** Choice among a non-empty list of candidates: the loop stops at the
    first one with the video's stem; [if not best_match] then falls
    back to the head of the list. *)
Definition best_match (video_file : string) (matching : list string) : string :=
  match find (fun s => String.eqb (stem s) (stem video_file)) matching with
  | Some s => if String.eqb s "" then hd "" matching else s
  | None => hd "" matching
  end.

Definition pairs_of (video_files subtitle_files : list string)
    : list (string * string) :=
  flat_map
    (fun video_file =>
       match matching_subtitles video_file subtitle_files with
       | [] => []
       | matching => [(video_file, best_match video_file matching)]
       end)
    video_files.

Definition find_video_subtitle_pairs (glob : string -> list string)
    (directory : string) : list (string * string) :=
  pairs_of (collect glob directory video_extensions)
           (collect glob directory subtitle_extensions).

(** ** [batch_merge] *)

(** [str(p.parent / f"{p.stem}{output_suffix}{p.suffix}")] *)
Definition output_file_of (video_file output_suffix : string) : string :=
  let file := stem video_file ++ output_suffix ++ suffix video_file in
  str_of_parts
    (if is_absolute file then parts file
     else parent video_file ++ components file)%list.

Record tally : Type := mkTally {
  success_count : Z;
  failed_files : list string
}.

Section WithWorld.
(** The state of the file system and of whatever else a merge touches,
    with the operations the batch performs on it. *)
Variable World : Type.
Variable exists_ : World -> string -> bool.
Variable glob : World -> string -> list string.
(** [self.merger.merge_video_subtitle(video, subtitle, output, style)] *)
Variable merge :
  World -> string -> string -> string -> option string ->
  World * (list event * outcome unit).

(** The processing loop, from pair number [i] on. It returns the final
    world, the trace, and the counters or the exception that left it. *)
Fixpoint process_pairs (total i : Z) (output_suffix : string)
    (force_style : option string) (pairs : list (string * string))
    (w : World) (t : tally) : World * (list event * outcome tally) :=
  match pairs with
  | [] => (w, ([], Returned t))
  | (video_file, subtitle_file) :: rest =>
      let head :=
        EvLog INFO "处理 {i}/{len(pairs)}: {os.path.basename(video_file)}"
              [ArgInt i; ArgInt total; ArgStr (basename video_file)] in
      let output_file := output_file_of video_file output_suffix in
      if exists_ w output_file then
        let '(w', (tr, r)) :=
          process_pairs total (i + 1) output_suffix force_style rest w t in
        (w', (head
              :: EvLog WARNING "输出文件已存在，跳过: {os.path.basename(output_file)}"
                       [ArgStr (basename output_file)]
              :: tr, r))
      else
        let '(w1, (tr1, r1)) :=
          merge w video_file subtitle_file output_file force_style in
        match r1 with
        | Returned _ =>
            let '(w', (tr, r)) :=
              process_pairs total (i + 1) output_suffix force_style rest w1
                (mkTally (success_count t + 1) (failed_files t)) in
            (w', ((head :: tr1)
                  ++ EvLog INFO "✅ 完成: {os.path.basename(output_file)}"
                           [ArgStr (basename output_file)]
                  :: tr, r))
        | Raised e =>
            if issubclass (exc_type e) Exception then
              let '(w', (tr, r)) :=
                process_pairs total (i + 1) output_suffix force_style rest w1
                  (mkTally (success_count t) (failed_files t ++ [video_file])) in
              (w', ((head :: tr1)
                    ++ EvLog ERROR "❌ 处理失败: {os.path.basename(video_file)} - {e}"
                             [ArgStr (basename video_file); ArgStr (exc_msg e)]
                    :: tr, r))
            else (w1, (head :: tr1, Raised e))
        end
  end%list.

(** The lines printed for one pair in preview mode. *)
Definition preview_lines (output_suffix : string) (i : Z)
    (p : string * string) : list event :=
  [EvPrint "{i}. 视频: {video_name}" [ArgInt i; ArgStr (basename (fst p))];
   EvPrint "   字幕: {subtitle_name}" [ArgStr (basename (snd p))];
   EvPrint "   输出: {output_name}"
           [ArgStr (stem (fst p) ++ output_suffix ++ suffix (fst p))];
   EvPrint "" []].

Fixpoint preview (output_suffix : string) (i : Z)
    (pairs : list (string * string)) : list event :=
  match pairs with
  | [] => []
  | p :: rest => preview_lines output_suffix i p ++ preview output_suffix (i + 1) rest
  end%list.

(** The closing report of the loop. *)
Definition report (total : Z) (t : tally) : list event :=
  ([EvLog INFO "\n=== 批量处理完成 ===" [];
    EvLog INFO "成功: {success_count}/{len(pairs)}"
          [ArgInt (success_count t); ArgInt total]]
   ++ match failed_files t with
      | [] => []
      | failed =>
          EvLog ERROR "失败: {len(failed_files)} 个文件"
                [ArgInt (Z.of_nat (List.length failed))]
          :: map (fun f => EvLog ERROR "  - {os.path.basename(failed_file)}"
                                 [ArgStr (basename f)]) failed
      end)%list.

Definition is_nil {A} (l : list A) : bool :=
  match l with [] => true | _ :: _ => false end.

Definition batch_merge (w : World) (directory output_suffix : string)
    (force_style : option string) (dry_run : bool)
    : World * (list event * outcome bool) :=
  let start := EvLog INFO "开始批量处理目录: {directory}" [ArgStr directory] in
  let pairs := find_video_subtitle_pairs (glob w) directory in
  let total := Z.of_nat (List.length pairs) in
  if is_nil pairs then
    (w, ([start; EvLog WARNING "未找到任何视频字幕文件对" []], Returned false))
  else
    let found := EvLog INFO "找到 {len(pairs)} 个视频字幕文件对" [ArgInt total] in
    if dry_run then
      (w, ([start; found; EvPrint "\n=== 预览模式 - 将要处理的文件 ===" []]
           ++ preview output_suffix 1 pairs
           ++ [EvPrint "总计: {len(pairs)} 个文件对" [ArgInt total]],
           Returned true))%list
    else
      let '(w', (tr, r)) :=
        process_pairs total 1 output_suffix force_style pairs w (mkTally 0 []) in
      match r with
      | Returned t =>
          (w', ((start :: found :: tr) ++ report total t,
                Returned (is_nil (failed_files t))))%list
      | Raised e => (w', (start :: found :: tr, Raised e))
      end.

End WithWorld.

End Batch.

(* ================================================================= *)
(** * Rounding to binary64: the vocabulary of the proofs *)

Module Rounding.

Local Abbreviation prec := 53 (only parsing).
Local Abbreviation emax := 1024 (only parsing).

Definition float : Type := spec_float.

(** Powers of two with integer exponents. *)
Definition bpow (e : Z) : Q := Qpower 2 e.

(** The rational [y] lies at the integer [m] with location [l]: on it,
    or strictly between [m] and [m + 1], below, at or above the middle. *)
Definition inb_unit (y : Q) (m : Z) (l : location) : Prop :=
  match l with
  | loc_Exact => y == inject_Z m
  | loc_Inexact Lt => inject_Z m < y /\ y < inject_Z m + (1#2)
  | loc_Inexact Eq => y == inject_Z m + (1#2)
  | loc_Inexact Gt => inject_Z m + (1#2) < y /\ y < inject_Z m + 1
  end%Q.

(** The triple [(m, e, l)] represents the number [v]. *)
Definition inb (v : Q) (m e : Z) (l : location) : Prop :=
  inb_unit (v * bpow (- e)) m l.

(** A mantissa and an exponent in the shape rounding leaves them:
    at most 53 bits, and full 53 bits above the smallest exponent. *)
Definition steady (m E : Z) : Prop :=
  0 <= m < 2 ^ 53 /\ -1074 <= E /\ (-1074 < E -> 2 ^ 52 <= m).

(** An integer that orders the non-negative floats as their values. *)
Definition key (m E : Z) : Z := (E + 1075) * 2 ^ 52 + m.
Definition key_inf : Z := 2048 * 2 ^ 52.

Definition rank (x : float) : Z :=
  match x with
  | S754_zero _ => 2 ^ 52
  | S754_finite false m e => key (Zpos m) e
  | S754_infinity false => key_inf
  | _ => 0
  end.

(** Zero, a positive binary64 number, or plus infinity. *)
Definition nonneg (x : float) : Prop :=
  match x with
  | S754_zero _ => True
  | S754_finite false m e => steady (Zpos m) e /\ e <= 971
  | S754_infinity false => True
  | _ => False
  end.

Definition finite_nonneg (x : float) : Prop :=
  nonneg x /\ rank x < key_inf.

(** The second half of [binary_round_aux], for a positive sign. *)
Definition finish (m2 E : Z) : float :=
  let '(mrs, e) := shr_fexp prec emax m2 E loc_Exact in
  match shr_m mrs with
  | Z0 => S754_zero false
  | Zpos m => if e <=? emax - prec then S754_finite false m e else S754_infinity false
  | Zneg _ => S754_nan
  end.

(** The number a non-negative finite float stands for. *)
Definition valQ (x : float) : Q :=
  match x with
  | S754_finite false m e => inject_Z (Zpos m) * bpow e
  | _ => 0
  end.

(** A normal (not subnormal) positive float. *)
Definition normal (x : float) : Prop :=
  match x with
  | S754_finite false m e => steady (Zpos m) e /\ e <= 971 /\ 2 ^ 52 <= Zpos m
  | _ => False
  end.

Definition normalb (x : float) : bool :=
  match x with
  | S754_finite false m e =>
      (0 <=? Zpos m) && (Zpos m <? 2 ^ 53) && (-1074 <=? e) && (e <=? 971)
      && (2 ^ 52 <=? Zpos m)
  | _ => false
  end.

Definition positive_finite (x : float) : Prop :=
  match x with
  | S754_finite false m e => True
  | _ => False
  end.

(** The float 25.0. *)
Definition m25 : positive := 7036874417766400.
Definition f25 : float := S754_finite false m25 (-48).

End Rounding.

(* ================================================================= *)
(** * The statements of the design document, as definitions *)

Module Spec.
Import Py PathLib FFmpegLib OS.

(** ** Input validation *)

(** The error kinds of the validator. *)
Inductive validation_error : Set :=
| NotFound | NotReadable | UnsupportedFormat | EmptyFile.

Inductive subject : Set := Video | Subtitle.

(** The kind of a raised exception and the file it is about, read off
    its class and its message. *)
Definition classify (e : exc) : option (validation_error * subject) :=
  let msg := exc_msg e in
  match exc_type e with
  | FileNotFoundError =>
      if startswith msg "视频文件不存在: " then Some (NotFound, Video)
      else if startswith msg "字幕文件不存在: " then Some (NotFound, Subtitle)
      else None
  | PermissionError =>
      if startswith msg "无法读取视频文件: " then Some (NotReadable, Video)
      else if startswith msg "无法读取字幕文件: " then Some (NotReadable, Subtitle)
      else None
  | ValueError =>
      if startswith msg "不支持的视频格式: " then Some (UnsupportedFormat, Video)
      else if startswith msg "不支持的字幕格式: " then Some (UnsupportedFormat, Subtitle)
      else if String.eqb msg "视频文件为空" then Some (EmptyFile, Video)
      else if String.eqb msg "字幕文件为空" then Some (EmptyFile, Subtitle)
      else None
  | _ => None
  end.

Definition nonempty_file (env : environment) (p : string) : bool :=
  match files env p with
  | Some f => negb (size f =? 0)
  | None => false
  end.

Definition video_format_ok (p : string) : bool :=
  str_in (lower (suffix p)) Merger.supported_video_formats.
Definition subtitle_format_ok (p : string) : bool :=
  str_in (lower (suffix p)) Merger.supported_subtitle_formats.

(** The checks in the order the document gives them, each with the
    error it produces when it fails. *)
Definition checks (env : environment) (video subtitle : string)
    : list (bool * (validation_error * subject)) :=
  [(path_exists env video, (NotFound, Video));
   (path_exists env subtitle, (NotFound, Subtitle));
   (access_R_OK env video, (NotReadable, Video));
   (access_R_OK env subtitle, (NotReadable, Subtitle));
   (video_format_ok video, (UnsupportedFormat, Video));
   (subtitle_format_ok subtitle, (UnsupportedFormat, Subtitle));
   (nonempty_file env video, (EmptyFile, Video));
   (nonempty_file env subtitle, (EmptyFile, Subtitle))].

Fixpoint first_failure {A} (l : list (bool * A)) : option A :=
  match l with
  | [] => None
  | (passed, err) :: rest => if passed then first_failure rest else Some err
  end.

(** What the validator does, in the document's terms. *)
Definition validation_result (o : outcome unit)
    : option (validation_error * subject) :=
  match o with
  | Returned _ => None
  | Raised e => classify e
  end.


(** ** Pairing *)

(** The relation between the stems as the document words it: equal,
    or the subtitle's stem is the video's stem, a dot, and more. *)
Definition stems_related_as_written (video_stem subtitle_stem : string) : Prop :=
  subtitle_stem = video_stem
  \/ exists more, subtitle_stem = video_stem ++ "." ++ more.

(** The relation the code implements: in addition, the video's stem
    may be the subtitle's stem, a dot, and more. *)
Definition stems_related (video_stem subtitle_stem : string) : Prop :=
  subtitle_stem = video_stem
  \/ (exists more, subtitle_stem = video_stem ++ "." ++ more)
  \/ (exists more, video_stem = subtitle_stem ++ "." ++ more).

(** [a] is [b] or lies below it. *)
Definition at_or_below (a b : list string) : Prop :=
  exists rest, a = (b ++ rest)%list.

(** The subtitle's directory is an ancestor of, a descendant of, or
    the video's directory. *)
Definition dirs_close (video_dir subtitle_dir : list string) : Prop :=
  at_or_below video_dir subtitle_dir \/ at_or_below subtitle_dir video_dir.

(** The subtitle paired with a video: the first candidate in scan
    order that has the video's stem, else the first candidate. *)
Definition chosen (video_file : string) (subtitle_files : list string)
    : option string :=
  match find (fun s => (Batch.is_candidate video_file s
                        && String.eqb (stem s) (stem video_file))%bool)
             subtitle_files with
  | Some s => Some s
  | None => find (Batch.is_candidate video_file) subtitle_files
  end.

Definition pairing (video_files subtitle_files : list string)
    : list (string * string) :=
  flat_map
    (fun v => match chosen v subtitle_files with
              | Some s => [(v, s)]
              | None => []
              end)
    video_files.

(** ** Batch processing *)

(** What happens to one pair. *)
Inductive disposition : Type :=
| Skipped
| Succeeded
| Failed (e : exc).

Section Turns.
Variable World : Type.
Variable exists_ : World -> string -> bool.
Variable merge :
  World -> string -> string -> string -> option string ->
  World * (list Batch.event * outcome unit).

(** One pair's turn in the world [w]: skipped when its output file
    exists, merged otherwise. *)
Definition turn (output_suffix : string) (force_style : option string)
    (w : World) (p : string * string) : World * disposition :=
  let output_file := Batch.output_file_of (fst p) output_suffix in
  if exists_ w output_file then (w, Skipped)
  else
    let '(w1, (_, r)) := merge w (fst p) (snd p) output_file force_style in
    (w1, match r with Returned _ => Succeeded | Raised e => Failed e end).

(** The pairs taking their turns one after the other, in order. *)
Fixpoint turns (output_suffix : string) (force_style : option string)
    (w : World) (pairs : list (string * string))
    : list (string * disposition) :=
  match pairs with
  | [] => []
  | p :: rest =>
      let (w1, d) := turn output_suffix force_style w p in
      (fst p, d) :: turns output_suffix force_style w1 rest
  end.

(** The world after the turns. *)
Fixpoint world_after (output_suffix : string) (force_style : option string)
    (w : World) (pairs : list (string * string)) : World :=
  match pairs with
  | [] => w
  | p :: rest =>
      world_after output_suffix force_style
        (fst (turn output_suffix force_style w p)) rest
  end.

End Turns.

Definition is_failed (d : disposition) : bool :=
  match d with Failed _ => true | _ => false end.
Definition is_succeeded (d : disposition) : bool :=
  match d with Succeeded => true | _ => false end.

(** The videos whose turn failed, in order. *)
Definition failures (ds : list (string * disposition)) : list string :=
  map fst (filter (fun vd => is_failed (snd vd)) ds).

(** The number of turns that succeeded. *)
Definition successes (ds : list (string * disposition)) : Z :=
  Z.of_nat (List.length (filter (fun vd => is_succeeded (snd vd)) ds)).

(** A merge fails with an ordinary exception, never with one outside
    the [Exception] hierarchy (such as a keyboard interrupt). *)
Definition fails_ordinarily {World : Type}
    (merge : World -> string -> string -> string -> option string ->
             World * (list Batch.event * outcome unit)) : Prop :=
  forall w video subtitle output style e,
    snd (snd (merge w video subtitle output style)) = Raised e ->
    issubclass (exc_type e) Exception = true.
(** ** Bitrate estimation *)

(** A frame rate the estimator accepts: a binary64 datum that is not
    NaN and not negative. *)
Definition valid_rate (fps : F64.float) : Prop :=
  F64.is_float64 fps /\ F64.leb F64.zero fps = true.

(** [min(fps / 25.0, 2.0)] *)
Definition factor (fps : F64.float) : F64.float :=
  F64.min2 (F64.div fps F64.f25_0) F64.f2_0.

(** [int(base * min(fps / 25.0, 2.0))] *)
Definition estimate (base : Z) (fps : F64.float) : Z :=
  F64.trunc (F64.mul (F64.of_Z base) (factor fps)).

Definition bases : list Z := [1500000; 3000000; 5000000; 15000000; 40000000].

(** The table of the document: base bitrate by pixel count, with the
    breakpoints 640x480, 1280x720, 1920x1080 and 3840x2160. *)
Definition base_table (pixels : Z) : Z :=
  if pixels <=? 307200 then 1500000
  else if pixels <=? 921600 then 3000000
  else if pixels <=? 2073600 then 5000000
  else if pixels <=? 8294400 then 15000000
  else 40000000.

(** ** Probing *)

(** The value a best-effort field degrades to. *)
Definition best_effort {A} (field : option string) (parse : string -> option A)
    (default : A) : A :=
  match field with
  | Some s => Merger.get_or (parse s) default
  | None => default
  end.

End Spec.

(* ================================================================= *)
(** * Sample environments *)

Module Sample.
Import Py PathLib FFmpegLib OS.

Definition missing_tool : exc :=
  new_exc FileNotFoundError "[Errno 2] No such file or directory: 'ffmpeg'".

(** A POSIX machine without files and without the external tool. *)
Definition bare : environment :=
  mkEnv posix (fun p => p) (fun _ => None)
        (fun _ => Raised missing_tool)
        (Raised missing_tool) (Raised missing_tool)
        (fun _ => Raised missing_tool)
        (fun _ => None) (fun _ => None).

Definition with_files (env : environment) (fs : string -> option file_meta)
    : environment :=
  mkEnv (os_name env) (abspath env) fs (ffprobe env) (encoders_query env)
        (nvenc_trial env) (ffmpeg_run env) (float_of_str env) (int_of_str env).

Definition file_table (l : list (string * file_meta)) (p : string)
    : option file_meta :=
  match find (fun e => String.eqb (fst e) p) l with
  | Some e => Some (snd e)
  | None => None
  end.

(** A zero-byte video next to a proper subtitle file. *)
Definition empty_video : environment :=
  with_files bare
    (file_table [("movie.mp4", mkFile true 0); ("movie.ass", mkFile true 120)]).

(** A text file offered as the video. *)
Definition text_as_video : environment :=
  with_files bare
    (file_table [("notes.txt", mkFile true 4096); ("movie.ass", mkFile true 120)]).


Definition with_probe (env : environment) (p : string -> outcome probe_dict)
    : environment :=
  mkEnv (os_name env) (abspath env) (files env) p (encoders_query env)
        (nvenc_trial env) (ffmpeg_run env) (float_of_str env) (int_of_str env).

Definition with_tool (env : environment) (listing : outcome completed_process)
    (trial : outcome unit) (run : command -> outcome unit) : environment :=
  mkEnv (os_name env) (abspath env) (files env) (ffprobe env) listing
        trial run (float_of_str env) (int_of_str env).

(** A 1080p video stream at 25 frames per second, bitrate unknown. *)
Definition hd_stream : stream_dict :=
  mkStream (Some "video") (Some 1920) (Some 1080) (Some "25/1")
           None None (Some "h264") (Some "yuv420p").

(** A stream entry of unknown media type: the prober leaves the
    [codec_type] key out. *)
Definition untyped_stream : stream_dict :=
  mkStream None None None None None None None None.

Fixpoint zeros (n : nat) : string :=
  match n with
  | O => ""
  | S n' => String "0" (zeros n')
  end.

(** The frame-rate string of the integer 10^309 over 1. *)
Definition huge_rate : string := "1" ++ zeros 309 ++ "/1".

Definition huge_rate_stream : stream_dict :=
  mkStream (Some "video") (Some 1920) (Some 1080) (Some huge_rate)
           None None (Some "h264") (Some "yuv420p").

(** A machine with the tool, a software encoder only, one video and a
    subtitle file whose name has brackets. *)
Definition studio : environment :=
  with_tool
    (with_probe
       (with_files bare
          (file_table [("/videos/EP01.mp4", mkFile true 1000000);
                       ("/videos/[EP01].ass", mkFile true 2048)]))
       (fun _ => Returned (mkProbe [hd_stream])))
    (Returned (mkCompleted 0 " V....D libx264  H.264 (codec h264)"))
    (Raised (mkExc FFmpegError "ffmpeg error (see stderr output for detail)"
                   (Some "Unknown encoder 'h264_nvenc'")))
    (fun _ => Returned tt).

(** The commands a trace ran. *)
Definition runs (tr : list (event command)) : list command :=
  flat_map (fun ev => match ev with EvRun c => [c] | _ => [] end) tr.

(** ** A directory listing as the scanner sees it *)

(** [cut_at sep s]: what precedes and what follows the first
    occurrence of [sep] in [s]. *)
Fixpoint cut_at (sep s : string) : option (string * string) :=
  if startswith s sep
  then Some ("", substring (String.length sep)
                           (String.length s - String.length sep) s)
  else match s with
       | EmptyString => None
       | String c s' =>
           match cut_at sep s' with
           | Some (a, b) => Some (String c a, b)
           | None => None
           end
       end.

Definition endswith (s e : string) : bool :=
  (Nat.leb (String.length e) (String.length s)
   && String.eqb (substring (String.length s - String.length e)
                            (String.length e) s) e)%bool.

(** [glob.glob(pattern, recursive=True)] for the patterns the scanner
    builds, [dir/**/*ext], over the files of a tree listed in scan
    order: the files below [dir] whose name ends with [ext]; names
    that start with a dot are not matched and directories that start
    with a dot are not entered. *)
Definition glob_listing (tree : list string) (pattern : string) : list string :=
  match cut_at "/**/*" pattern with
  | None => []
  | Some (dir, ext) =>
      filter
        (fun p =>
           match cut_at (dir ++ "/") p with
           | Some ("", below) =>
               (endswith below ext
                && negb (existsb (fun c => startswith c ".") (components below)))%bool
           | _ => false
           end)
        tree
  end.

(** The directory of the document's example. *)
Definition movie_dir : list string :=
  ["d/movie.mp4"; "d/movie.ass"; "d/other.srt"].

(** A video whose stem extends the stem of the only subtitle. *)
Definition dubbed_dir : list string :=
  ["d/movie.chs.mp4"; "d/movie.ass"].

(** ** A small batch *)

(** The world of the batch example: the files that exist. *)
Definition shelf : Type := list string.

Definition on_shelf (w : shelf) (p : string) : bool := str_in p w.

(** Three videos with their subtitles; the output of the third is
    already there. *)
Definition shelf_start : shelf :=
  ["d/a.mp4"; "d/a.ass"; "d/b.mp4"; "d/b.ass"; "d/c.mp4"; "d/c.ass";
   "d/c_with_subtitles.mp4"].

Definition shelf_glob (w : shelf) : string -> list string := glob_listing w.

(** A merge that fails on [d/a.mp4] and writes its output otherwise. *)
Definition shelf_merge (w : shelf) (video subtitle output : string)
    (style : option string)
    : shelf * (list (event command) * outcome unit) :=
  if String.eqb video "d/a.mp4"
  then (w, ([], Raised (new_exc RuntimeError "FFmpeg处理失败: Invalid data")))
  else ((w ++ [output])%list, ([], Returned tt)).
(** A frame rate of 2^-30 frames per second. *)
Definition slow_rate : F64.float := S754_finite false 4503599627370496 (-82).

End Sample.

(* ================================================================= *)
(** * The command-line entry points *)

Module Cli.
Import Py FFmpegLib.

(** How a run of [main] ends: it returns, it calls [sys.exit(code)],
    or an exception that none of its clauses names leaves it. *)
Inductive status : Type :=
| Returns
| Exits (code : Z)
| Propagates (e : exc).

(** What a run writes, in order: an effect of the classes below
    [main] (log records, lines on standard output, merge commands), or
    a line that [main] itself prints with [print(..., file=sys.stderr)]. *)
Inductive output : Type :=
| Effect (ev : event command)
| PrintErr (text : string) (args : list fmt_arg).

(** The merge commands among the outputs of a run: the commands that
    [merge_video_subtitle] builds and runs. The trial encoding of
    [check_nvidia_support] is not one of them: it is the fixed command
    whose outcome is [nvenc_trial]. *)
Definition commands (out : list output) : list command :=
  flat_map (fun o => match o with Effect (EvRun c) => [c] | _ => [] end) out.

(** The lines that [main] itself prints to standard error. (The log
    records, which [logging] writes to standard error too, are among
    the effects.) *)
Definition error_lines (out : list output) : list (string * list fmt_arg) :=
  flat_map (fun o => match o with PrintErr t a => [(t, a)] | _ => [] end) out.

End Cli.

(** [main] of [ffmpeg_subtitle_merger.py], from the parsed arguments on. *)
Module MergerMain.
Import Py PathLib FFmpegLib OS Merger Cli.
Local Open Scope py_scope.

(** The namespace [parse_args] returns. *)
Record arguments : Type := mkArgs {
  video : string;
  subtitle : string;
  output : string;
  force_style : option string;
  log_level : Py.log_level;
  check_only : bool
}.

(** The body of the [try] block. *)
Definition body (env : environment) (args : arguments) : M unit :=
  if check_only args then
    validate_inputs env (video args) (subtitle args) ;;;
    video_info <- probe_video_info env (video args) ;;
    nvenc_support <- check_nvidia_support env ;;
    print "=== 系统检查结果 ===" [] ;;;
    print "视频文件: {args.video}" [ArgStr (video args)] ;;;
    print "字幕文件: {args.subtitle}" [ArgStr (subtitle args)] ;;;
    print "视频信息: {video_info['width']}x{video_info['height']} @ {video_info['fps']}fps"
          [ArgInt (vi_width video_info); ArgInt (vi_height video_info);
           ArgFloat (vi_fps video_info)] ;;;
    print "NVIDIA编码支持: {'是' if nvenc_support else '否'}"
          [ArgStr (if nvenc_support : bool then "是" else "否")] ;;;
    print "检查完成，所有输入有效。" []
  else
    merge_video_subtitle env (video args) (subtitle args) (output args)
                         (force_style args).

(** [try: ... except KeyboardInterrupt: ... sys.exit(130)
    except Exception as e: ... sys.exit(1)] *)
Definition main (env : environment) (args : arguments) : list Cli.output * status :=
  match body env args with
  | (tr, Returned _) => (map Effect tr, Returns)
  | (tr, Raised e) =>
      if issubclass (exc_type e) KeyboardInterrupt
      then ((map Effect tr ++ [PrintErr "\n用户中断操作" []])%list, Exits 130)
      else if issubclass (exc_type e) Exception
      then ((map Effect tr ++ [PrintErr "错误: {e}" [ArgStr (exc_msg e)]])%list, Exits 1)
      else (map Effect tr, Propagates e)
  end.

End MergerMain.

(** [main] of [batch_merger.py], from the parsed arguments on. *)
Module BatchMain.
Import Py PathLib FFmpegLib Batch Cli.

Record arguments : Type := mkArgs {
  directory : string;
  suffix : string;
  force_style : option string;
  log_level : Py.log_level;
  dry_run : bool
}.

Section WithWorld.
Variable World : Type.
Variable exists_ : World -> string -> bool.
Variable glob : World -> string -> list string.
Variable merge :
  World -> string -> string -> string -> option string ->
  World * (list event * outcome unit).

Definition main (w : World) (args : arguments) : World * (list event * status) :=
  if negb (exists_ w (directory args)) then
    (w, ([EvPrint "❌ 目录不存在: {args.directory}" [ArgStr (directory args)]], Exits 1))
  else
    let '(w', (tr, r)) :=
      batch_merge World exists_ glob merge w (directory args) (suffix args)
                  (force_style args) (dry_run args) in
    match r with
    | Returned success =>
        (w', ((tr ++ [EvPrint (if success : bool
                               then "\n🎉 批量处理完成!"
                               else "\n⚠️ 批量处理完成，但有部分文件处理失败") []])%list,
              Returns))
    | Raised e =>
        if issubclass (exc_type e) KeyboardInterrupt
        then (w', ((tr ++ [EvPrint "\n用户中断操作" []])%list, Exits 130))
        else if issubclass (exc_type e) Exception
        then (w', ((tr ++ [EvPrint "❌ 错误: {e}" [ArgStr (exc_msg e)]])%list, Exits 1))
        else (w', (tr, Propagates e))
    end.

End WithWorld.

End BatchMain.

(* ================================================================= *)
(** * Further vocabulary of the statements *)

Module Terms.
Import Py PathLib FFmpegLib OS.

(** ** Hardware detection *)

(** The encoder listing names the hardware encoder: the query
    returned with exit status 0 and [h264_nvenc] in its output. *)
Definition lists_nvenc (env : environment) : Prop :=
  exists r, encoders_query env = Returned r
            /\ returncode r = 0 /\ contains "h264_nvenc" (stdout r) = true.

(** The listing settles nothing: the query returned without naming
    the encoder, or failed with a subprocess error (a timeout is one)
    or because the program is missing. *)
Definition listing_inconclusive (env : environment) : Prop :=
  (exists r, encoders_query env = Returned r
             /\ ((returncode r =? 0) && contains "h264_nvenc" (stdout r))%bool = false)
  \/ (exists e, encoders_query env = Raised e
                /\ (issubclass (exc_type e) SubprocessError = true
                    \/ issubclass (exc_type e) FileNotFoundError = true)).

(** ** Frame-rate parsing *)

(** The record [parse_frame_rate] logs when it falls back to 25.0. *)
Definition rate_warning (rate_str : string) : event command :=
  EvLog WARNING "无法解析帧率 '{rate_str}', 使用默认值 25.0" [ArgStr rate_str].

(** ** Probing *)

(** A stream entry that the search for the video stream passes over:
    it has a [codec_type] and it is not ["video"]. *)
Definition other_media (s : stream_dict) : Prop :=
  exists t, codec_type s = Some t /\ t <> "video".

(** ** Escaping of the subtitle path *)

Definition backslash : ascii := "\"%char.

Definition is_bracket (c : ascii) : bool :=
  (Ascii.eqb c "[" || Ascii.eqb c "]")%bool.

(** With the colon, the characters escaped on Windows. *)
Definition is_bracket_or_colon (c : ascii) : bool :=
  (Ascii.eqb c ":" || is_bracket c)%bool.

(** Every character of [s] that is [special] stands right after a
    backslash; [after_backslash] tells whether [s] itself does. *)
Fixpoint guarded (special : ascii -> bool) (after_backslash : bool) (s : string)
    : bool :=
  match s with
  | EmptyString => true
  | String c s' =>
      ((if special c then after_backslash else true)
       && guarded special (Ascii.eqb c backslash) s')%bool
  end.

(** Whether [s] starts with a [special] character. *)
Definition starts_special (special : ascii -> bool) (s : string) : bool :=
  match s with
  | String d _ => special d
  | EmptyString => false
  end.

(** Every backslash of [s] stands right before a [special] character. *)
Fixpoint escapes_only (special : ascii -> bool) (s : string) : bool :=
  match s with
  | EmptyString => true
  | String c s' =>
      ((if Ascii.eqb c backslash then starts_special special s' else true)
       && escapes_only special s')%bool
  end.

(** Reading an escaped string back: a backslash right before a
    [special] character is dropped. *)
Fixpoint unescape (special : ascii -> bool) (s : string) : string :=
  match s with
  | EmptyString => EmptyString
  | String c s' =>
      if (Ascii.eqb c backslash && starts_special special s')%bool
      then unescape special s'
      else String c (unescape special s')
  end.

(** One pass that puts a backslash before every [special] character. *)
Fixpoint escape_with (special : ascii -> bool) (s : string) : string :=
  match s with
  | EmptyString => EmptyString
  | String c s' =>
      if special c then String backslash (String c (escape_with special s'))
      else String c (escape_with special s')
  end.

Fixpoint has_backslash (s : string) : bool :=
  match s with
  | EmptyString => false
  | String c s' => (Ascii.eqb c backslash || has_backslash s')%bool
  end.

(** ** Traces *)

(** A computation that runs no merge command (it has no [EvRun]
    event). *)
Definition quiet {A} (m : M command A) : Prop := Sample.runs (trace_of m) = [].

(** ** Decimal numerals *)

(** The characters of a decimal numeral. *)
Definition digits_of (u : Decimal.uint) : list ascii :=
  list_ascii_of_string (NilEmpty.string_of_uint u).

(** The characters of [str(n)] for [n >= 0]. *)
Definition numeral (n : Z) : list ascii :=
  match n with
  | Zpos p => digits_of (Pos.to_uint p)
  | _ => ["0"%char]
  end.

(** CPython converts a numeral to an [int] only when it has at most
    [sys.int_info.default_max_str_digits] digits, the sign apart; a
    longer one raises [ValueError]. *)
Definition max_str_digits : Z := 4300.

Definition digit_count (n : Z) : Z :=
  Z.of_nat (String.length (str_of_int (Z.abs n))).

Definition within_str_digits (n : Z) : Prop := digit_count n <= max_str_digits.

(** ** Decoding *)

(** Strings are byte strings here, and [bytes.decode()] returns the
    text with the same bytes when they are well-formed UTF-8; it raises
    [UnicodeDecodeError] otherwise. *)
Definition byte_in (lo hi : N) (c : ascii) : bool :=
  ((lo <=? N_of_ascii c) && (N_of_ascii c <=? hi))%N.

Definition continuation (c : ascii) : bool := byte_in 128 191 c.

(** The second byte of a sequence of three, by its first byte: no
    overlong form after [E0], no surrogate after [ED]. *)
Definition second_of_three (lead c : ascii) : bool :=
  if byte_in 224 224 lead then byte_in 160 191 c
  else if byte_in 237 237 lead then byte_in 128 159 c
  else continuation c.

(** The second byte of a sequence of four: no overlong form after
    [F0], nothing above U+10FFFF after [F4]. *)
Definition second_of_four (lead c : ascii) : bool :=
  if byte_in 240 240 lead then byte_in 144 191 c
  else if byte_in 244 244 lead then byte_in 128 143 c
  else continuation c.

Fixpoint utf8_valid (s : string) : bool :=
  match s with
  | EmptyString => true
  | String c s1 =>
      if byte_in 0 127 c then utf8_valid s1
      else
        match s1 with
        | EmptyString => false
        | String c1 s2 =>
            if byte_in 194 223 c then (continuation c1 && utf8_valid s2)%bool
            else
              match s2 with
              | EmptyString => false
              | String c2 s3 =>
                  if byte_in 224 239 c
                  then (second_of_three c c1 && continuation c2 && utf8_valid s3)%bool
                  else
                    match s3 with
                    | EmptyString => false
                    | String c3 s4 =>
                        if byte_in 240 244 c
                        then (second_of_four c c1 && continuation c2
                              && continuation c3 && utf8_valid s4)%bool
                        else false
                    end
              end
        end
  end.

(** [e.stderr.decode() if e.stderr else str(e)] does not raise: there
    is nothing to decode, or the captured bytes are well-formed. *)
Definition stderr_decodes (e : exc) : bool :=
  match exc_stderr e with
  | Some s => utf8_valid s
  | None => true
  end.

(** ** Scanning *)

(** The pattern the scanner builds for an extension. *)
Definition pattern_of (ext : string) : string := "*" ++ ext.

(** ** Ordinary failures *)

(** An outcome that, when it is an exception, is one of the
    [Exception] hierarchy (not a keyboard interrupt, for instance). *)
Definition ordinary {A} (o : outcome A) : Prop :=
  forall e, o = Raised e -> issubclass (exc_type e) Exception = true.

(** An environment whose external programs fail only in that way. *)
Definition ordinary_environment (env : environment) : Prop :=
  (forall path, ordinary (ffprobe env path))
  /\ ordinary (encoders_query env)
  /\ ordinary (nvenc_trial env)
  /\ (forall c, ordinary (ffmpeg_run env c)).

(** ** Batch processing *)

(** The output names a preview announces, in order. *)
Definition previewed_outputs (tr : list (event command)) : list string :=
  flat_map (fun ev => match ev with
                      | EvPrint text [ArgStr name] =>
                          if String.eqb text "   输出: {output_name}" then [name] else []
                      | _ => []
                      end) tr.

(** A turn that did not end with an exception outside the [Exception]
    hierarchy. *)
Definition ordinary_turn (d : Spec.disposition) : Prop :=
  match d with
  | Spec.Failed e => issubclass (exc_type e) Exception = true
  | _ => True
  end.

End Terms.

(* ================================================================= *)
(** * The steps of the two long functions, named

    [merge_video_subtitle] and the check-only branch of [main] are
    sequences of steps; the blocks below are those steps, cut out of the
    definitions above (the lemmas [merge_steps] and [body_check_only]
    state that nothing else is left). *)

Module Steps.
Import Py PathLib FFmpegLib OS Merger.
Local Open Scope py_scope.

(** The choice of the encoder and of its parameters. *)
Definition plan (use_nvenc : bool) (smart_bitrate : Z)
    : M (string * list (string * string)) :=
  if use_nvenc
  then
    info "使用NVIDIA硬件编码 (h264_nvenc)" [] ;;;
    scaled <- F64.int_mul_float smart_bitrate F64.f1_2 ;;
    maxrate <- F64.int_of_float scaled ;;
    ret ("h264_nvenc",
         [("preset", "medium"); ("rc", "vbr"); ("cq", "23");
          ("b:v", str_of_int smart_bitrate);
          ("maxrate", str_of_int maxrate);
          ("bufsize", str_of_int (smart_bitrate * 2));
          ("gpu", "0")])
  else
    info "使用软件编码 (libx264)" [] ;;;
    ret ("libx264",
         [("preset", "medium"); ("crf", "23");
          ("b:v", str_of_int smart_bitrate);
          ("threads", "0")]).

(** The last block of [merge_video_subtitle]: the printed lines, the
    run of the command and the translation of its failure. *)
Definition final_block (env : environment)
    (video_path subtitle_path output_path : string)
    (video_codec : string) (output : command) : M unit :=
  try_except
    (print "开始合成视频..." [] ;;;
     print "输入视频: {video_path}" [ArgStr video_path] ;;;
     print "输入字幕: {subtitle_path}" [ArgStr subtitle_path] ;;;
     print "输出视频: {output_path}" [ArgStr output_path] ;;;
     print "使用编码器: {video_codec}" [ArgStr video_codec] ;;;
     emit (EvRun output) ;;;
     lift (ffmpeg_run env output) ;;;
     print "视频合成完成!" [])
    [([FFmpegError],
      fun e => raise (new_exc RuntimeError ("FFmpeg处理失败: " ++ ffmpeg_error_text e)))].

(** The check-only branch of [main]. *)
Definition check_body (env : environment) (v s : string) : M unit :=
  validate_inputs env v s ;;;
  video_info <- probe_video_info env v ;;
  nvenc_support <- check_nvidia_support env ;;
  print "=== 系统检查结果 ===" [] ;;;
  print "视频文件: {args.video}" [ArgStr v] ;;;
  print "字幕文件: {args.subtitle}" [ArgStr s] ;;;
  print "视频信息: {video_info['width']}x{video_info['height']} @ {video_info['fps']}fps"
        [ArgInt (vi_width video_info); ArgInt (vi_height video_info);
         ArgFloat (vi_fps video_info)] ;;;
  print "NVIDIA编码支持: {'是' if nvenc_support else '否'}"
        [ArgStr (if nvenc_support : bool then "是" else "否")] ;;;
  print "检查完成，所有输入有效。" [].

End Steps.

(* ================================================================= *)
(** * Further sample environments *)

Module Sample2.
Import Py PathLib FFmpegLib OS.

(** A merge that the user interrupts at [d/b.mp4] and that writes its
    output otherwise. *)
Definition interrupted_merge (w : Sample.shelf) (video subtitle output : string)
    (style : option string)
    : Sample.shelf * (list (event command) * outcome unit) :=
  if String.eqb video "d/b.mp4"
  then (w, ([], Raised (new_exc KeyboardInterrupt "")))
  else ((w ++ [output])%list, ([], Returned tt)).

(** Three videos with their subtitles, no output yet. *)
Definition fresh_shelf : Sample.shelf :=
  ["d"; "d/a.mp4"; "d/a.ass"; "d/b.mp4"; "d/b.ass"; "d/c.mp4"; "d/c.ass"].

(** The same directory after a complete run. *)
Definition finished_shelf : Sample.shelf :=
  ["d"; "d/a.mp4"; "d/a.ass"; "d/b.mp4"; "d/b.ass";
   "d/a_with_subtitles.mp4"; "d/b_with_subtitles.mp4"].

(** The machine of [Sample.studio] with a hardware encoder that the
    encoder listing names. *)
Definition gpu_studio : environment :=
  Sample.with_tool Sample.studio
    (Returned (mkCompleted 0 " V....D h264_nvenc  NVIDIA NVENC H.264 encoder (codec h264)"))
    (Returned tt)
    (fun _ => Returned tt).

(** A machine whose merges fail in the external program. *)
Definition failing_studio : environment :=
  Sample.with_tool Sample.studio
    (Returned (mkCompleted 0 " V....D libx264  H.264 (codec h264)"))
    (Raised (mkExc FFmpegError "ffmpeg error (see stderr output for detail)"
                   (Some "Unknown encoder 'h264_nvenc'")))
    (fun _ => Raised (mkExc FFmpegError "ffmpeg error (see stderr output for detail)"
                            (Some "Conversion failed!"))).

(** A directory without videos. *)
Definition empty_shelf : Sample.shelf := ["d"; "d/readme.txt"].

End Sample2.

(* ================================================================= *)
(** * Properties *)

(** ** Input validation *)

Module ValidatorFacts.
Import Py PathLib FFmpegLib OS Merger Spec.

Lemma getsize_existing (env : environment) (p : string) (f : file_meta) :
  files env p = Some f -> getsize (Cmd := command) env p = ret (size f).
Proof. intros H. unfold getsize. now rewrite H. Qed.

(** C6. [validate_inputs] runs the eight checks in the order existence
    (video, subtitle), readability (video, subtitle), extension
    whitelist (video, subtitle), non-zero size (video, subtitle); it
    returns when all pass and otherwise raises for the first failing
    one, with an error that identifies the kind and the file. As
    instances: a zero-byte video of supported extension is [EmptyFile],
    and a [.txt] video, or a [.txt] subtitle next to a supported video,
    is [UnsupportedFormat] whatever the sizes. *)
Theorem validate_inputs_order (env : environment) (video subtitle : string) :
  validation_result (outcome_of (validate_inputs env video subtitle))
    = first_failure (checks env video subtitle)
  /\ (first_failure (checks env video subtitle) = None ->
      outcome_of (validate_inputs env video subtitle) = Returned tt)
  /\ (forall fv fs,
        files env video = Some fv -> files env subtitle = Some fs ->
        readable fv = true -> readable fs = true ->
        video_format_ok video = true -> subtitle_format_ok subtitle = true ->
        size fv = 0 ->
        validation_result (outcome_of (validate_inputs env video subtitle))
          = Some (EmptyFile, Video))
  /\ (forall fv fs,
        files env video = Some fv -> files env subtitle = Some fs ->
        readable fv = true -> readable fs = true ->
        lower (suffix video) = ".txt" ->
        validation_result (outcome_of (validate_inputs env video subtitle))
          = Some (UnsupportedFormat, Video))
  /\ (forall fv fs,
        files env video = Some fv -> files env subtitle = Some fs ->
        readable fv = true -> readable fs = true ->
        video_format_ok video = true ->
        lower (suffix subtitle) = ".txt" ->
        validation_result (outcome_of (validate_inputs env video subtitle))
          = Some (UnsupportedFormat, Subtitle)).
Proof.
  assert (main :
    validation_result (outcome_of (validate_inputs env video subtitle))
      = first_failure (checks env video subtitle)
    /\ (first_failure (checks env video subtitle) = None ->
        outcome_of (validate_inputs env video subtitle) = Returned tt)).
  { unfold validate_inputs, checks, path_exists, access_R_OK, nonempty_file,
      getsize, video_format_ok, subtitle_format_ok.
    destruct (files env video) as [fv|] eqn:Ev; cbn [negb first_failure];
      [|split; [reflexivity | discriminate]].
    destruct (files env subtitle) as [fs|] eqn:Es; cbn [negb first_failure];
      [|split; [reflexivity | discriminate]].
    destruct (readable fv); cbn [negb first_failure];
      [|split; [reflexivity | discriminate]].
    destruct (readable fs); cbn [negb first_failure];
      [|split; [reflexivity | discriminate]].
    destruct (str_in (lower (suffix video)) supported_video_formats);
      cbn [negb first_failure]; [|split; [reflexivity | discriminate]].
    destruct (str_in (lower (suffix subtitle)) supported_subtitle_formats);
      cbn [negb first_failure]; [|split; [reflexivity | discriminate]].
    cbn [bind ret].
    destruct (size fv =? 0); cbn [negb first_failure];
      [split; [reflexivity | discriminate]|].
    destruct (size fs =? 0); cbn [negb first_failure];
      [split; [reflexivity | discriminate]|].
    split; reflexivity. }
  destruct main as [main1 main2].
  split; [exact main1|]. split; [exact main2|].
  split; [|split].
  - intros fv fs Hv Hs Rv Rs Fv Fs Z0. rewrite main1.
    unfold checks, path_exists, access_R_OK, nonempty_file.
    rewrite Hv, Hs, Rv, Rs, Fv, Fs, Z0. reflexivity.
  - intros fv fs Hv Hs Rv Rs Ext. rewrite main1.
    unfold checks, path_exists, access_R_OK, video_format_ok.
    rewrite Hv, Hs, Rv, Rs, Ext. reflexivity.
  - intros fv fs Hv Hs Rv Rs Fv Ext. rewrite main1.
    unfold checks, path_exists, access_R_OK, subtitle_format_ok.
    rewrite Hv, Hs, Rv, Rs, Fv, Ext. reflexivity.
Qed.

Lemma validate_inputs_order_witness :
  validation_result
    (outcome_of (validate_inputs Sample.empty_video "movie.mp4" "movie.ass"))
    = Some (EmptyFile, Video)
  /\ validation_result
       (outcome_of (validate_inputs Sample.text_as_video "notes.txt" "movie.ass"))
     = Some (UnsupportedFormat, Video).
Proof.
  split.
  - apply (proj1 (proj2 (proj2
      (validate_inputs_order Sample.empty_video "movie.mp4" "movie.ass")))
      (mkFile true 0) (mkFile true 120)); reflexivity.
  - apply (proj1 (proj2 (proj2 (proj2
      (validate_inputs_order Sample.text_as_video "notes.txt" "movie.ass"))))
      (mkFile true 4096) (mkFile true 120)); reflexivity.
Defined.

End ValidatorFacts.

(** ** Hardware capability detection *)

Module DetectorFacts.
Import Py PathLib FFmpegLib OS Merger Spec.

(** The listing stage never raises what its clause names. *)
Lemma nvenc_listed_handles (env : environment) (e : exc) :
  encoders_query env = Raised e ->
  existsb (issubclass (exc_type e))
          [TimeoutExpired; SubprocessError; FileNotFoundError] = true ->
  outcome_of (nvenc_listed env) = Returned None.
Proof.
  intros Hq Hc. unfold nvenc_listed, try_except, lift, bind.
  rewrite Hq. cbn [select_clause]. rewrite Hc. reflexivity.
Qed.

(** An error of the trial that its clause names resolves to [False]. *)
Lemma nvenc_trial_handles (env : environment) (e : exc) :
  nvenc_trial env = Raised e ->
  existsb (issubclass (exc_type e)) [FFmpegError; TimeoutExpired] = true ->
  outcome_of (nvenc_trial_run env) = Returned false.
Proof.
  intros Hq Hc. unfold nvenc_trial_run, try_except, lift, bind.
  rewrite Hq. cbn [select_clause]. rewrite Hc. reflexivity.
Qed.

(** Any other error of the trial leaves the function. *)
Lemma nvenc_trial_escapes (env : environment) (e : exc) :
  nvenc_trial env = Raised e ->
  existsb (issubclass (exc_type e)) [FFmpegError; TimeoutExpired] = false ->
  outcome_of (nvenc_trial_run env) = Raised e.
Proof.
  intros Hq Hc. unfold nvenc_trial_run, try_except, lift, bind.
  rewrite Hq. cbn [select_clause]. rewrite Hc. reflexivity.
Qed.

(** C2 (the code departs from it). On a machine without the external
    tool both stages fail with [FileNotFoundError]; the first stage
    handles it, the second does not, and [check_nvidia_support] raises
    it to its caller instead of returning [False]. *)
Theorem check_nvidia_support_raises_without_tool :
  outcome_of (check_nvidia_support Sample.bare) = Raised Sample.missing_tool
  /\ issubclass (exc_type Sample.missing_tool) FileNotFoundError = true.
Proof. split; reflexivity. Qed.

End DetectorFacts.

(** ** Frame-rate parsing *)

Module FrameRateFacts.
Import Py PathLib FFmpegLib OS Merger Spec.

Example parse_ntsc (env : environment) :
  parse_frame_rate env "30000/1001"
  = ([], Returned (S754_finite false 0x1df853e2556b28 (-48))).
Proof. reflexivity. Qed.

Example parse_pal (env : environment) :
  parse_frame_rate env "25/1" = ([], Returned F64.f25_0).
Proof. reflexivity. Qed.

Example parse_zero_denominator (env : environment) :
  outcome_of (parse_frame_rate env "30/0") = Returned F64.f25_0.
Proof. reflexivity. Qed.

(** A string without a slash that [float] rejects gives 25.0 and one
    warning. *)
Lemma parse_unparseable (env : environment) (s : string) :
  contains "/" s = false -> float_of_str env s = None ->
  parse_frame_rate env s
  = ([EvLog WARNING "无法解析帧率 '{rate_str}', 使用默认值 25.0" [ArgStr s]],
     Returned F64.f25_0).
Proof.
  intros Hs Hf. unfold parse_frame_rate, float_of_string.
  rewrite Hs, Hf. reflexivity.
Qed.

(** C8 (the code departs from it). The string of 10^309 over 1 is a
    well-formed fraction; its conversion to [float] overflows, and
    [OverflowError] is not among the exceptions the function handles:
    it leaves [parse_frame_rate]. *)
Theorem parse_frame_rate_overflow_escapes (env : environment) :
  outcome_of (parse_frame_rate env Sample.huge_rate)
  = Raised (new_exc OverflowError "integer division result too large for a float").
Proof. vm_compute. reflexivity. Qed.

End FrameRateFacts.

(** ** Metadata probing *)

Module ProberFacts.
Import Py PathLib FFmpegLib OS Merger Spec.

Lemma first_video_stream_trace (l : list stream_dict) :
  trace_of (first_video_stream l) = [].
Proof.
  induction l as [|s l IH]; [reflexivity|]. cbn.
  destruct (codec_type s) as [t|]; [|reflexivity].
  destruct (String.eqb t "video"); [reflexivity | exact IH].
Qed.

(** Without an entry of type video the search returns [None], provided
    every entry carries the key. *)
Lemma first_video_stream_none (l : list stream_dict) :
  Forall (fun s => exists t, codec_type s = Some t /\ String.eqb t "video" = false) l ->
  first_video_stream l = ret None.
Proof.
  induction 1 as [|s l (t & Ht & Hv) _ IH]; [reflexivity|].
  cbn. rewrite Ht, Hv. exact IH.
Qed.

(** No video stream: the probe fails. *)
Lemma probe_no_video_stream (env : environment) (path : string) (p : probe_dict) :
  ffprobe env path = Returned p ->
  Forall (fun s => exists t, codec_type s = Some t /\ String.eqb t "video" = false)
         (streams p) ->
  outcome_of (probe_video_info env path)
  = Raised (new_exc RuntimeError "获取视频信息失败: 未找到视频流").
Proof.
  intros Hp Hs. unfold probe_video_info. rewrite Hp.
  cbn -[first_video_stream]. rewrite (first_video_stream_none _ Hs).
  reflexivity.
Qed.

(** Width or height absent or zero: the probe fails. *)
Lemma probe_missing_resolution (env : environment) (path : string)
    (p : probe_dict) (vs : stream_dict) :
  ffprobe env path = Returned p ->
  first_video_stream (streams p) = ret (Some vs) ->
  get_or (width vs) 0 = 0 \/ get_or (height vs) 0 = 0 ->
  outcome_of (probe_video_info env path)
  = Raised (new_exc RuntimeError "获取视频信息失败: 无法获取视频分辨率信息").
Proof.
  intros Hp Hs Hz. unfold probe_video_info. rewrite Hp.
  cbn -[first_video_stream Z.eqb]. rewrite Hs. cbn -[Z.eqb].
  replace ((get_or (width vs) 0 =? 0) || (get_or (height vs) 0 =? 0))%bool
    with true.
  - reflexivity.
  - symmetry. apply orb_true_iff.
    destruct Hz as [Hz|Hz]; rewrite Hz; auto.
Qed.

(** When the frame rate parses, the probe succeeds; a duration or a
    bitrate that does not parse reads as 0 and does not fail it. *)
Lemma probe_succeeds (env : environment) (path : string)
    (p : probe_dict) (vs : stream_dict) (fps : F64.float) :
  ffprobe env path = Returned p ->
  first_video_stream (streams p) = ret (Some vs) ->
  get_or (width vs) 0 <> 0 -> get_or (height vs) 0 <> 0 ->
  outcome_of (parse_frame_rate env (get_or (r_frame_rate vs) "25/1"))
    = Returned fps ->
  outcome_of (probe_video_info env path)
  = Returned (mkInfo (get_or (width vs) 0) (get_or (height vs) 0) fps
                (best_effort (duration vs) (float_of_str env) F64.zero)
                (best_effort (bit_rate vs) (int_of_str env) 0)
                (get_or (codec_name vs) "unknown")
                (get_or (pix_fmt vs) "yuv420p")).
Proof.
  intros Hp Hs Hw Hh Hf. unfold probe_video_info. rewrite Hp.
  cbn -[first_video_stream Z.eqb parse_frame_rate]. rewrite Hs.
  cbn -[Z.eqb parse_frame_rate].
  apply Z.eqb_neq in Hw, Hh. rewrite Hw, Hh. cbn [orb].
  destruct (parse_frame_rate env (get_or (r_frame_rate vs) "25/1"))
    as [tr o]. cbn in Hf. subst o. cbn [bind].
  unfold best_effort, float_of_string, int_of_string.
  destruct (duration vs) as [d|]; [destruct (float_of_str env d)|];
    (destruct (bit_rate vs) as [b|]; [destruct (int_of_str env b)|]);
    reflexivity.
Qed.

(** C7 (the code departs from it). A probe result whose first entry has
    no [codec_type] key and whose second entry is a 1920x1080 video
    stream makes the search raise [KeyError]; and a video stream whose
    frame-rate string overflows makes [parse_frame_rate] raise
    [OverflowError]. Either way [probe_video_info] fails although a
    video stream with a resolution is present. *)
Theorem probe_fails_despite_video_stream :
  outcome_of
    (probe_video_info
       (Sample.with_probe Sample.bare
          (fun _ => Returned (mkProbe [Sample.untyped_stream; Sample.hd_stream])))
       "in.ts")
  = Raised (new_exc RuntimeError "获取视频信息失败: 'codec_type'")
  /\ outcome_of
       (probe_video_info
          (Sample.with_probe Sample.bare
             (fun _ => Returned (mkProbe [Sample.huge_rate_stream])))
          "in.ts")
     = Raised (new_exc RuntimeError
                 "获取视频信息失败: integer division result too large for a float").
Proof. split; vm_compute; reflexivity. Qed.

End ProberFacts.

(** ** The merge command *)

Module MergeFacts.
Import Py PathLib FFmpegLib OS Merger Spec.

(** The filter is given the subtitle path as the caller passed it. *)
Lemma merge_command_filename (video subtitle output : string)
    (style : option string) (codec : string) (params : list (string * string)) :
  subtitle_filename (merge_command video subtitle output style codec params)
  = Some subtitle.
Proof. reflexivity. Qed.

(** C1 (the code departs from it). Merging with the subtitle file
    [/videos/[EP01].ass] runs one command, whose subtitle filter is
    given the path unchanged, brackets unescaped; the escaped form that
    [escape_subtitle_path] computes is a different string, and
    [merge_video_subtitle] never computes it. *)
Theorem merge_passes_unescaped_path :
  let run :=
    merge_video_subtitle Sample.studio
      "/videos/EP01.mp4" "/videos/[EP01].ass" "/videos/EP01_sub.mp4" None in
  outcome_of run = Returned tt
  /\ map subtitle_filename (Sample.runs (trace_of run))
     = [Some "/videos/[EP01].ass"]
  /\ escape_subtitle_path Sample.studio "/videos/[EP01].ass"
     = "/videos/\[EP01\].ass".
Proof. vm_compute. repeat split. Qed.

End MergeFacts.

(** ** Pairing *)

Module PairingFacts.
Import Py PathLib FFmpegLib Batch Spec.

Lemma startswith_iff (s p : string) :
  startswith s p = true <-> exists more, s = p ++ more.
Proof.
  revert s. induction p as [|a p IH]; intros s; cbn.
  - split; [intros _; now exists s | reflexivity].
  - destruct s as [|b s].
    + split; [discriminate | intros [more H]; discriminate].
    + rewrite andb_true_iff, IH, Ascii.eqb_eq. split.
      * intros [-> [more ->]]. now exists more.
      * intros [more H]. injection H as -> ->. split; [reflexivity | now exists more].
Qed.

Lemma append_assoc (a b c : string) : (a ++ b) ++ c = a ++ b ++ c.
Proof. induction a as [|x a IH]; cbn; [reflexivity | now rewrite IH]. Qed.

Lemma is_prefix_iff (p l : list string) :
  is_prefix p l = true <-> exists rest, l = (p ++ rest)%list.
Proof.
  revert l. induction p as [|x p IH]; intros l; cbn.
  - split; [intros _; now exists l | reflexivity].
  - destruct l as [|y l].
    + split; [discriminate | intros [rest H]; discriminate].
    + rewrite andb_true_iff, IH, String.eqb_eq. split.
      * intros [-> [rest ->]]. now exists rest.
      * intros [rest H]. injection H as -> ->. split; [reflexivity | now exists rest].
Qed.

Lemma list_eqb_iff (a b : list string) : list_eqb a b = true <-> a = b.
Proof.
  revert b. induction a as [|x a IH]; intros [|y b]; cbn;
    try (split; [discriminate | discriminate]); [tauto|].
  rewrite andb_true_iff, IH, String.eqb_eq. split.
  - now intros [-> ->].
  - intros H. now injection H.
Qed.

Lemma stems_match_iff (video_stem subtitle_stem : string) :
  stems_match video_stem subtitle_stem = true
  <-> stems_related video_stem subtitle_stem.
Proof.
  unfold stems_match, stems_related.
  rewrite !orb_true_iff, String.eqb_eq, !startswith_iff.
  setoid_rewrite append_assoc. tauto.
Qed.

Lemma dirs_related_iff (video_dir subtitle_dir : list string) :
  dirs_related video_dir subtitle_dir = true
  <-> dirs_close video_dir subtitle_dir.
Proof.
  unfold dirs_related, dirs_close, at_or_below, relative_to_ok.
  destruct (is_prefix subtitle_dir video_dir) eqn:E1.
  { apply is_prefix_iff in E1. tauto. }
  destruct (is_prefix video_dir subtitle_dir) eqn:E2.
  { apply is_prefix_iff in E2. tauto. }
  split.
  - intros H. apply list_eqb_iff in H. subst. left. exists []. now rewrite app_nil_r.
  - intros [H|H]; apply is_prefix_iff in H; congruence.
Qed.

(** What makes a subtitle a candidate for a video. *)
Lemma is_candidate_iff (video_file subtitle_file : string) :
  is_candidate video_file subtitle_file = true
  <-> stems_related (stem video_file) (stem subtitle_file)
      /\ dirs_close (parent video_file) (parent subtitle_file).
Proof.
  unfold is_candidate. now rewrite andb_true_iff, stems_match_iff, dirs_related_iff.
Qed.

Lemma find_filter {A} (P Q : A -> bool) (l : list A) :
  find P (filter Q l) = find (fun x => (Q x && P x)%bool) l.
Proof.
  induction l as [|x l IH]; [reflexivity|]. cbn.
  destruct (Q x); cbn; [|exact IH].
  destruct (P x); [reflexivity | exact IH].
Qed.

Lemma head_filter {A} (Q : A -> bool) (l : list A) :
  match filter Q l with [] => None | x :: _ => Some x end = find Q l.
Proof.
  induction l as [|x l IH]; [reflexivity|]. cbn.
  destruct (Q x); [reflexivity | exact IH].
Qed.

Lemma find_in {A} (P : A -> bool) (l : list A) (x : A) :
  find P l = Some x -> In x l.
Proof. intros H. now apply find_some in H. Qed.

(** The loop of the scanner computes the pairing rule. *)
Lemma pairs_of_pairing (video_files subtitle_files : list string) :
  Forall (fun s => s <> "") subtitle_files ->
  pairs_of video_files subtitle_files = pairing video_files subtitle_files.
Proof.
  intros Hne. unfold pairs_of, pairing.
  apply flat_map_ext. intros v. unfold chosen, best_match, matching_subtitles.
  rewrite <- (find_filter (fun s => String.eqb (stem s) (stem v))
                          (is_candidate v) subtitle_files).
  rewrite <- (head_filter (is_candidate v) subtitle_files).
  destruct (filter (is_candidate v) subtitle_files) as [|c cs] eqn:Ef.
  - reflexivity.
  - destruct (find (fun s => String.eqb (stem s) (stem v)) (c :: cs)) as [s|] eqn:E.
    + assert (Hin : In s subtitle_files).
      { apply find_in in E. rewrite <- Ef in E. now apply filter_In in E. }
      rewrite Forall_forall in Hne. specialize (Hne s Hin).
      apply String.eqb_neq in Hne. now rewrite Hne.
    + reflexivity.
Qed.

(** C3, as the code has it. The scanner pairs each video, in scan
    order, with the subtitle the pairing rule chooses: candidates are
    the subtitles whose stem is the video's stem, or extends it after a
    dot, or is extended by it after a dot, in a directory that is an
    ancestor of, a descendant of, or the video's directory; the first
    candidate with the video's own stem wins, else the first candidate;
    a video without a candidate yields no pair. For the directory with
    movie.mp4, movie.ass and other.srt the result is the one pair
    (movie.mp4, movie.ass). *)
Theorem find_pairs_rule (glob : string -> list string) (directory : string) :
  Forall (fun s => s <> "") (collect glob directory subtitle_extensions) ->
  find_video_subtitle_pairs glob directory
    = pairing (collect glob directory video_extensions)
              (collect glob directory subtitle_extensions)
  /\ (forall v s,
        is_candidate v s = true
        <-> stems_related (stem v) (stem s) /\ dirs_close (parent v) (parent s))
  /\ find_video_subtitle_pairs (Sample.glob_listing Sample.movie_dir) "d"
     = [("d/movie.mp4", "d/movie.ass")].
Proof.
  intros Hne. split; [|split].
  - now apply pairs_of_pairing.
  - exact is_candidate_iff.
  - reflexivity.
Qed.

Lemma find_pairs_rule_witness :
  Forall (fun s => s <> "")
         (collect (Sample.glob_listing Sample.movie_dir) "d" subtitle_extensions)
  /\ find_video_subtitle_pairs (Sample.glob_listing Sample.movie_dir) "d"
     = pairing (collect (Sample.glob_listing Sample.movie_dir) "d" video_extensions)
               (collect (Sample.glob_listing Sample.movie_dir) "d" subtitle_extensions).
Proof.
  assert (H : Forall (fun s => s <> "")
                (collect (Sample.glob_listing Sample.movie_dir) "d" subtitle_extensions)).
  { vm_compute. repeat constructor; discriminate. }
  split; [exact H|].
  exact (proj1 (find_pairs_rule (Sample.glob_listing Sample.movie_dir) "d" H)).
Defined.

(** C3 as written fails: the video movie.chs.mp4 is paired with
    movie.ass, whose stem neither equals the video's stem nor extends
    it after a dot. *)
Lemma find_pairs_pairs_shorter_stem :
  In ("d/movie.chs.mp4", "d/movie.ass")
     (find_video_subtitle_pairs (Sample.glob_listing Sample.dubbed_dir) "d")
  /\ ~ stems_related_as_written (stem "d/movie.chs.mp4") (stem "d/movie.ass").
Proof.
  split.
  - vm_compute. left. reflexivity.
  - intros [H|[more H]]; vm_compute in H; discriminate.
Qed.

End PairingFacts.

(** ** Batch processing *)

Module BatchFacts.
Import Py PathLib FFmpegLib Batch Spec.

Section Loop.
Variable World : Type.
Variable exists_ : World -> string -> bool.
Variable glob : World -> string -> list string.
Variable merge :
  World -> string -> string -> string -> option string ->
  World * (list event * outcome unit).
Variable output_suffix : string.
Variable force_style : option string.

Let turns_ := turns World exists_ merge output_suffix force_style.
Let after_ := world_after World exists_ merge output_suffix force_style.
Let loop_ := process_pairs World exists_ merge.

Lemma failures_cons (v : string) (d : disposition) (ds : list (string * disposition)) :
  failures ((v, d) :: ds)
  = ((if is_failed d then [v] else []) ++ failures ds)%list.
Proof. unfold failures. cbn. now destruct (is_failed d). Qed.

Lemma successes_cons (v : string) (d : disposition) (ds : list (string * disposition)) :
  successes ((v, d) :: ds)
  = (if is_succeeded d then 1 else 0) + successes ds.
Proof.
  unfold successes. cbn [filter snd]. destruct (is_succeeded d); [|lia].
  cbn [List.length]. lia.
Qed.

(** The loop, started with any counters, adds to them what the turns
    of the remaining pairs produce, and always reaches the end. *)
Lemma process_pairs_turns (Hmerge : fails_ordinarily merge)
    (pairs : list (string * string)) :
  forall total i w t,
  exists tr,
    loop_ total i output_suffix force_style pairs w t
    = (after_ w pairs,
       (tr, Returned (mkTally (success_count t + successes (turns_ w pairs))
                              (failed_files t ++ failures (turns_ w pairs))%list))).
Proof.
  subst turns_ after_ loop_.
  induction pairs as [|[video subtitle] rest IH]; intros total i w [sc ff].
  - exists []. cbn. now rewrite Z.add_0_r, app_nil_r.
  - cbn [process_pairs turns world_after]. unfold turn. cbn [fst snd].
    destruct (exists_ w (output_file_of video output_suffix)) eqn:Ex.
    + destruct (IH total (i + 1) w (mkTally sc ff)) as [tr Htr].
      rewrite Htr. eexists. rewrite failures_cons, successes_cons.
      cbn [is_failed is_succeeded fst app]. rewrite Z.add_0_l. reflexivity.
    + pose proof (Hmerge w video subtitle
                    (output_file_of video output_suffix) force_style) as Hm.
      destruct (merge w video subtitle (output_file_of video output_suffix)
                      force_style) as [w1 [tr1 r1]].
      cbn [fst snd] in *. destruct r1 as [[]|e].
      * destruct (IH total (i + 1) w1 (mkTally (sc + 1) ff)) as [tr Htr].
        cbn [success_count failed_files] in *. rewrite Htr. eexists.
        rewrite failures_cons, successes_cons.
        cbn [is_failed is_succeeded app success_count failed_files].
        rewrite Z.add_assoc. reflexivity.
      * rewrite (Hm e eq_refl).
        destruct (IH total (i + 1) w1 (mkTally sc (ff ++ [video])%list)) as [tr Htr].
        cbn [success_count failed_files] in *. rewrite Htr. eexists.
        rewrite failures_cons, successes_cons.
        cbn [is_failed is_succeeded app success_count failed_files].
        rewrite Z.add_0_l, <- app_assoc. reflexivity.
Qed.

(** Every pair takes its turn, in discovery order. *)
Lemma turns_videos (pairs : list (string * string)) :
  forall w, map fst (turns_ w pairs) = map fst pairs.
Proof.
  subst turns_. induction pairs as [|p rest IH]; intros w; [reflexivity|].
  cbn [turns]. destruct (turn World exists_ merge output_suffix force_style w p).
  cbn. now rewrite IH.
Qed.

(** The turns of the later pairs do not depend on how the earlier ones
    ended, only on the world they left. *)
Lemma turns_app (l1 l2 : list (string * string)) :
  forall w, turns_ w (l1 ++ l2) = (turns_ w l1 ++ turns_ (after_ w l1) l2)%list.
Proof.
  subst turns_ after_. induction l1 as [|p rest IH]; intros w; [reflexivity|].
  cbn [app turns world_after].
  destruct (turn World exists_ merge output_suffix force_style w p) as [w1 d].
  cbn [fst]. now rewrite IH.
Qed.

Lemma is_nil_iff {A} (l : list A) : is_nil l = true <-> l = [].
Proof. destruct l; cbn; split; congruence. Qed.

(** C5, as the code has it. With [dry_run = False] and at least one
    discovered pair, every
    pair takes its turn in discovery order; a pair whose output file
    exists is skipped and enters neither the successes nor the
    failures; a pair whose merge raises is recorded as failed and the
    pairs after it still take their turns; the batch returns [True]
    exactly when the list of failures is empty. *)
Theorem batch_merge_isolates_failures (w : World) (directory : string) :
  find_video_subtitle_pairs (glob w) directory <> [] ->
  fails_ordinarily merge ->
  let pairs := find_video_subtitle_pairs (glob w) directory in
  let ds := turns_ w pairs in
  map fst ds = map fst pairs
  /\ (forall w' p, exists_ w' (output_file_of (fst p) output_suffix) = true ->
        turn World exists_ merge output_suffix force_style w' p = (w', Skipped))
  /\ (forall l1 l2, pairs = (l1 ++ l2)%list ->
        ds = (turns_ w l1 ++ turns_ (after_ w l1) l2)%list)
  /\ (exists tr,
        loop_ (Z.of_nat (List.length pairs)) 1 output_suffix force_style pairs w
              (mkTally 0 [])
        = (after_ w pairs, (tr, Returned (mkTally (successes ds) (failures ds)))))
  /\ (exists tr,
        batch_merge World exists_ glob merge w directory output_suffix
                    force_style false
        = (after_ w pairs, (tr, Returned (is_nil (failures ds)))))
  /\ (is_nil (failures ds) = true <-> failures ds = []).
Proof.
  intros Hne Hmerge pairs ds.
  split; [apply turns_videos|].
  split; [intros w' p Hex; unfold turn; now rewrite Hex|].
  split; [intros l1 l2 ->; apply turns_app|].
  destruct (process_pairs_turns Hmerge pairs (Z.of_nat (List.length pairs)) 1 w
              (mkTally 0 [])) as [tr Htr].
  cbn [success_count failed_files app] in Htr. rewrite Z.add_0_l in Htr.
  split; [now exists tr|].
  split; [|apply is_nil_iff].
  unfold batch_merge. fold pairs.
  destruct (is_nil pairs) eqn:En.
  { apply is_nil_iff in En. contradiction. }
  subst loop_. rewrite Htr. cbn [failed_files]. eexists. reflexivity.
Qed.

End Loop.

Lemma shelf_merge_fails_ordinarily : fails_ordinarily Sample.shelf_merge.
Proof.
  intros w video subtitle output style e. unfold Sample.shelf_merge.
  destruct (String.eqb video "d/a.mp4"); cbn; [|discriminate].
  intros H. injection H as <-. reflexivity.
Qed.

Lemma batch_merge_isolates_failures_witness :
  let pairs :=
    find_video_subtitle_pairs (Sample.shelf_glob Sample.shelf_start) "d" in
  let ds :=
    turns Sample.shelf Sample.on_shelf Sample.shelf_merge "_with_subtitles" None
          Sample.shelf_start pairs in
  pairs <> []
  /\ ds = [("d/a.mp4", Failed (new_exc RuntimeError "FFmpeg处理失败: Invalid data"));
           ("d/b.mp4", Succeeded); ("d/c.mp4", Skipped)]
  /\ exists tr,
       batch_merge Sample.shelf Sample.on_shelf Sample.shelf_glob
                   Sample.shelf_merge Sample.shelf_start "d" "_with_subtitles"
                   None false
       = (world_after Sample.shelf Sample.on_shelf Sample.shelf_merge
                      "_with_subtitles" None Sample.shelf_start pairs,
          (tr, Returned (is_nil (failures ds)))).
Proof.
  intros pairs ds.
  assert (Hne : find_video_subtitle_pairs (Sample.shelf_glob Sample.shelf_start) "d"
                <> []).
  { vm_compute. discriminate. }
  split; [exact Hne|]. split; [reflexivity|].
  exact (proj1 (proj2 (proj2 (proj2 (proj2
    (batch_merge_isolates_failures Sample.shelf Sample.on_shelf Sample.shelf_glob
       Sample.shelf_merge "_with_subtitles" None Sample.shelf_start "d"
       Hne shelf_merge_fails_ordinarily)))))).
Defined.

(** C5 as written fails: in the directory that holds only readme.txt
    no pair is discovered, so the sequence of pairs is empty and so is
    the list of failures; yet the batch does not report success:
    [batch_merge] logs that no pair was found and returns [False]. *)
Theorem batch_merge_reports_failure_without_pairs :
  find_video_subtitle_pairs (Sample.shelf_glob Sample2.empty_shelf) "d" = []
  /\ failures (turns Sample.shelf Sample.on_shelf Sample.shelf_merge
                     "_with_subtitles" None Sample2.empty_shelf
                     (find_video_subtitle_pairs
                        (Sample.shelf_glob Sample2.empty_shelf) "d")) = []
  /\ batch_merge Sample.shelf Sample.on_shelf Sample.shelf_glob
                 Sample.shelf_merge Sample2.empty_shelf "d" "_with_subtitles"
                 None false
     = (Sample2.empty_shelf,
        ([EvLog INFO "开始批量处理目录: {directory}" [ArgStr "d"];
          EvLog WARNING "未找到任何视频字幕文件对" []],
         Returned false)).
Proof. repeat split; vm_compute; reflexivity. Qed.

End BatchFacts.

(* ================================================================= *)
(** * Correct rounding is monotone *)

Module RoundingFacts.
Import Rounding.

Local Abbreviation prec := 53 (only parsing).
Local Abbreviation emax := 1024 (only parsing).

Lemma inb_unit_ext y y' m l : (y == y')%Q -> inb_unit y m l -> inb_unit y' m l.
Proof.
  intros E. destruct l as [|[]]; cbn; rewrite E; auto.
Qed.

Lemma inject_Z_xO p : (inject_Z (Zpos p~0) == 2 * inject_Z (Zpos p))%Q.
Proof. rewrite Pos2Z.inj_xO, inject_Z_mult. reflexivity. Qed.
Lemma inject_Z_xI p : (inject_Z (Zpos p~1) == 2 * inject_Z (Zpos p) + 1)%Q.
Proof. rewrite Pos2Z.inj_xI, inject_Z_plus, inject_Z_mult. reflexivity. Qed.

Lemma Zpos_xI_div2 p : Zpos p~1 / 2 = Zpos p.
Proof. rewrite Pos2Z.inj_xI. symmetry. apply (Z.div_unique _ 2 _ 1); lia. Qed.
Lemma Zpos_xO_div2 p : Zpos p~0 / 2 = Zpos p.
Proof. rewrite Pos2Z.inj_xO. symmetry. apply (Z.div_unique _ 2 _ 0); lia. Qed.

(** One step of the shift: the represented number is halved, the
    mantissa loses its last bit and the location absorbs it. *)
Lemma shr_1_step (mrs : shr_record) (y : Q) :
  0 <= shr_m mrs ->
  inb_unit y (shr_m mrs) (loc_of_shr_record mrs) ->
  inb_unit (y * (1#2)) (shr_m (shr_1 mrs)) (loc_of_shr_record (shr_1 mrs))
  /\ shr_m (shr_1 mrs) = shr_m mrs / 2.
Proof.
  destruct mrs as [m r s]. cbn [shr_m]. intros Hm H.
  destruct m as [|p|p]; [| |lia].
  - split; [|reflexivity].
    destruct r, s; cbn in *; change (inject_Z 0) with 0%Q in *; lra.
  - destruct p as [p|p|].
    + split; [|cbn [shr_1 shr_m]; now rewrite Zpos_xI_div2].
      destruct r, s; cbn [shr_1 shr_m loc_of_shr_record orb inb_unit] in *;
        rewrite inject_Z_xI in H; lra.
    + split; [|cbn [shr_1 shr_m]; now rewrite Zpos_xO_div2].
      destruct r, s; cbn [shr_1 shr_m loc_of_shr_record orb inb_unit] in *;
        rewrite inject_Z_xO in H; lra.
    + split; [|reflexivity].
      destruct r, s; cbn [shr_1 shr_m loc_of_shr_record orb inb_unit] in *;
        change (inject_Z 1) with 1%Q in *; change (inject_Z 0) with 0%Q in *; lra.
Qed.

Lemma bpow_pos e : (0 < bpow e)%Q.
Proof. apply Qpower_0_lt. reflexivity. Qed.

Lemma bpow_add a b : (bpow (a + b) == bpow a * bpow b)%Q.
Proof. apply Qpower_plus. discriminate. Qed.

Lemma bpow_opp a : (bpow (- a) == / bpow a)%Q.
Proof. apply Qpower_opp. Qed.

Lemma bpow_le a b : a <= b -> (bpow a <= bpow b)%Q.
Proof. intros H. apply Qpower_le_compat_l; [exact H | discriminate]. Qed.

Lemma bpow_Z n : 0 <= n -> (bpow n == inject_Z (2 ^ n))%Q.
Proof. intros H. unfold bpow. now rewrite Zpower_Qpower. Qed.

Lemma bpow_m1 : (bpow (-1) == 1 # 2)%Q.
Proof. reflexivity. Qed.

Lemma bpow_cancel a : (bpow a * bpow (- a) == 1)%Q.
Proof. rewrite <- bpow_add, Z.add_opp_diag_r. reflexivity. Qed.

(** [iter_pos] iterates as many times as its argument says. *)
Lemma iter_pos_nat {A} (f : A -> A) (p : positive) (x : A) :
  iter_pos f p x = Nat.iter (Pos.to_nat p) f x.
Proof.
  revert x. induction p as [p IH|p IH|]; intros x; cbn [iter_pos].
  - rewrite !IH, Pos2Nat.inj_xI.
    replace (S (2 * Pos.to_nat p))%nat with (Pos.to_nat p + (Pos.to_nat p + 1))%nat by lia.
    rewrite !Nat.iter_add. reflexivity.
  - rewrite !IH, Pos2Nat.inj_xO.
    replace (2 * Pos.to_nat p)%nat with (Pos.to_nat p + Pos.to_nat p)%nat by lia.
    rewrite Nat.iter_add. reflexivity.
  - reflexivity.
Qed.

(** [n] steps of the shift keep representing the same number, [n]
    exponents higher. *)
Lemma shr_iter (n : nat) (mrs : shr_record) (v : Q) (e : Z) :
  0 <= shr_m mrs ->
  inb v (shr_m mrs) e (loc_of_shr_record mrs) ->
  let mrs' := Nat.iter n shr_1 mrs in
  inb v (shr_m mrs') (e + Z.of_nat n) (loc_of_shr_record mrs')
  /\ shr_m mrs' = shr_m mrs / 2 ^ Z.of_nat n.
Proof.
  intros Hm H. induction n as [|n [IH1 IH2]].
  - cbn. rewrite Z.add_0_r, Z.div_1_r. auto.
  - cbv zeta in *.
    change (Nat.iter (S n) shr_1 mrs) with (shr_1 (Nat.iter n shr_1 mrs)).
    assert (Hpos : 0 <= shr_m (Nat.iter n shr_1 mrs)).
    { rewrite IH2. apply Z.div_pos; lia. }
    destruct (shr_1_step _ _ Hpos IH1) as [S1 S2]. split.
    + unfold inb. eapply inb_unit_ext; [|exact S1].
      rewrite Nat2Z.inj_succ.
      replace (- (e + Z.succ (Z.of_nat n))) with (- (e + Z.of_nat n) + -1) by lia.
      rewrite bpow_add, bpow_m1. ring.
    + rewrite S2, IH2, Nat2Z.inj_succ, Z.pow_succ_r by lia.
      rewrite Z.div_div by lia. f_equal. lia.
Qed.

(** [shr] shifts by [n] when [n] is positive and not at all otherwise. *)
Lemma shr_spec (mrs : shr_record) (v : Q) (e n : Z) :
  0 <= shr_m mrs ->
  inb v (shr_m mrs) e (loc_of_shr_record mrs) ->
  let k := Z.max n 0 in
  let '(mrs', e') := shr mrs e n in
  e' = e + k
  /\ inb v (shr_m mrs') e' (loc_of_shr_record mrs')
  /\ shr_m mrs' = shr_m mrs / 2 ^ k.
Proof.
  intros Hm H. destruct n as [|p|p]; cbn [shr Z.max Z.compare].
  - rewrite Z.add_0_r, Z.div_1_r. auto.
  - rewrite iter_pos_nat.
    destruct (shr_iter (Pos.to_nat p) mrs v e Hm H) as [A B].
    rewrite positive_nat_Z in A, B. auto.
  - rewrite Z.add_0_r, Z.div_1_r. auto.
Qed.

Lemma loc_of_shr_record_of_loc m l :
  loc_of_shr_record (shr_record_of_loc m l) = l.
Proof. now destruct l as [|[]]. Qed.

Lemma shr_m_of_loc m l : shr_m (shr_record_of_loc m l) = m.
Proof. now destruct l as [|[]]. Qed.


Lemma fexp_eq e : fexp prec emax e = Z.max (e - 53) (-1074).
Proof. reflexivity. Qed.

Lemma digits2_size p : digits2_pos p = Pos.size p.
Proof. induction p; cbn; congruence. Qed.

(** The binary digits of a positive integer. *)
Lemma Zdigits2_bounds m :
  0 < m -> 0 < Zdigits2 m /\ 2 ^ (Zdigits2 m - 1) <= m < 2 ^ Zdigits2 m.
Proof.
  destruct m as [|p|p]; try lia. intros _. cbn [Zdigits2].
  rewrite digits2_size. split; [lia|]. split.
  - pose proof (Pos.size_le p) as H.
    assert (H' : 2 ^ Zpos (Pos.size p) <= 2 * Zpos p).
    { change 2 with (Zpos 2) at 1. rewrite <- Pos2Z.inj_pow. 
      change (2 * Zpos p) with (Zpos p~0). now apply Pos2Z.pos_le_pos. }
    replace (Zpos (Pos.size p)) with (Z.succ (Zpos (Pos.size p) - 1)) in H' by lia.
    rewrite Z.pow_succ_r in H' by lia. lia.
  - pose proof (Pos.size_gt p) as H.
    change 2 with (Zpos 2). rewrite <- Pos2Z.inj_pow. now apply Pos2Z.pos_lt_pos.
Qed.

(** The first shift of [binary_round_aux] brings the mantissa to at
    most 53 bits, exactly 53 above the smallest exponent, and keeps
    representing the number. *)
Lemma shr_fexp_steady (v : Q) (m e : Z) (l : location) :
  0 <= m -> inb v m e l -> e <= fexp prec emax (Zdigits2 m + e) ->
  let '(mrs, E) := shr_fexp prec emax m e l in
  inb v (shr_m mrs) E (loc_of_shr_record mrs)
  /\ steady (shr_m mrs) E.
Proof.
  intros Hm H Hpre. unfold shr_fexp.
  set (n := fexp prec emax (Zdigits2 m + e) - e).
  assert (Hn : 0 <= n) by (unfold n; lia).
  pose proof (shr_spec (shr_record_of_loc m l) v e n) as S.
  rewrite shr_m_of_loc, loc_of_shr_record_of_loc in S.
  specialize (S Hm H). cbv zeta in S.
  destruct (shr (shr_record_of_loc m l) e n) as [mrs E].
  destruct S as (HE & Hin & Hm1). rewrite Z.max_l in HE, Hm1 by lia.
  split; [exact Hin|].
  unfold n in HE, Hm1. rewrite fexp_eq in *.
  destruct (Z.eq_dec m 0) as [->|Hnz].
  - cbn [Zdigits2] in *. rewrite Z.div_0_l in Hm1 by lia.
    unfold steady. rewrite Hm1. lia.
  - destruct (Zdigits2_bounds m ltac:(lia)) as (Hd & Hlo & Hhi).
    set (d := Zdigits2 m) in *. set (k := Z.max (d + e - 53) (-1074) - e) in *.
    assert (Hk : 0 <= k) by (unfold k; lia).
    unfold steady. rewrite Hm1. repeat split.
    + apply Z.div_pos; lia.
    + apply Z.div_lt_upper_bound; [lia|].
      rewrite <- Z.pow_add_r by lia.
      eapply Z.lt_le_trans; [exact Hhi|]. apply Z.pow_le_mono_r; lia.
    + lia.
    + intros HE'. assert (k = d - 53) by lia.
      apply Z.div_le_lower_bound; [lia|].
      rewrite <- Z.pow_add_r by lia. replace (k + 52) with (d - 1) by lia. exact Hlo.
Qed.

(** Rounding to nearest moves the mantissa by at most one. *)
Lemma rne_range m l :
  m <= round_nearest_even m l <= m + 1.
Proof. destruct l as [|[]]; cbn; try lia. destruct (Z.even m); lia. Qed.

Lemma pow2_52 : 2 ^ 52 = 4503599627370496. Proof. reflexivity. Qed.
Lemma pow2_53 : 2 ^ 53 = 9007199254740992. Proof. reflexivity. Qed.

Lemma shr_fexp_noshift m E :
  fexp prec emax (Zdigits2 m + E) - E <= 0 ->
  shr_fexp prec emax m E loc_Exact = (Build_shr_record m false false, E).
Proof.
  intros H. unfold shr_fexp.
  destruct (fexp prec emax (Zdigits2 m + E) - E) as [|p|p]; try reflexivity; lia.
Qed.

Lemma Zdigits2_le53 m : 0 < m < 2 ^ 53 -> Zdigits2 m <= 53.
Proof.
  intros H. destruct (Zdigits2_bounds m ltac:(lia)) as (Hd & Hlo & Hhi).
  destruct (Z_le_gt_dec (Zdigits2 m) 53) as [|G]; [assumption|exfalso].
  assert (2 ^ 53 <= 2 ^ (Zdigits2 m - 1)) by (apply Z.pow_le_mono_r; lia). lia.
Qed.

(** The float [binary_round_aux] ends with, by its key: the key of
    the rounded mantissa, or the key of infinity when that overflows. *)
Lemma finish_spec (m1 E : Z) (l1 : location) :
  steady m1 E ->
  let r := finish (round_nearest_even m1 l1) E in
  nonneg r /\ rank r = Z.min (key (round_nearest_even m1 l1) E) key_inf.
Proof.
  intros (Hm & HE & Hn). pose proof (rne_range m1 l1) as Hr.
  set (m2 := round_nearest_even m1 l1) in *. cbv zeta. unfold finish.
  pose proof pow2_52 as P52. pose proof pow2_53 as P53.
  destruct (Z.eq_dec m2 0) as [Z0|NZ].
  - rewrite Z0. rewrite shr_fexp_noshift by (rewrite fexp_eq; cbn [Zdigits2]; lia).
    cbn [shr_m]. split; [exact I|]. cbn [rank].
    assert (E = -1074) by lia. subst E. unfold key, key_inf. lia.
  - destruct (Z.eq_dec m2 (2 ^ 53)) as [C|NC].
    + rewrite C. unfold shr_fexp.
      replace (fexp prec emax (Zdigits2 (2 ^ 53) + E) - E) with 1
        by (rewrite fexp_eq; change (Zdigits2 (2 ^ 53)) with 54; lia).
      cbn [shr shr_record_of_loc iter_pos].
      change (shr_m _) with (Zpos 4503599627370496).
      cbv iota. change (emax - prec) with 971.
      destruct (E + 1 <=? 971) eqn:Eb.
      * apply Z.leb_le in Eb. split.
        -- cbn [nonneg]. unfold steady. lia.
        -- cbn [rank]. unfold key, key_inf. lia.
      * apply Z.leb_gt in Eb. split; [exact I|]. cbn [rank]. unfold key, key_inf. lia.
    + assert (Hd : Zdigits2 m2 <= 53) by (apply Zdigits2_le53; lia).
      rewrite shr_fexp_noshift by (rewrite fexp_eq; lia).
      cbn [shr_m]. destruct m2 as [|p|p]; try lia.
      change (emax - prec) with 971.
      destruct (E <=? 971) eqn:Eb.
      * apply Z.leb_le in Eb. split.
        -- cbn [nonneg]. unfold steady. lia.
        -- cbn [rank]. unfold key, key_inf. lia.
      * apply Z.leb_gt in Eb. split; [exact I|]. cbn [rank]. unfold key, key_inf. lia.
Qed.

Lemma binary_round_aux_finish m e l :
  binary_round_aux prec emax false m e l
  = let '(mrs, E) := shr_fexp prec emax m e l in
    finish (round_nearest_even (shr_m mrs) (loc_of_shr_record mrs)) E.
Proof. reflexivity. Qed.

(** The rounded value of a represented number. *)
Lemma round_spec (v : Q) (m e : Z) (l : location) :
  0 <= m -> inb v m e l -> e <= fexp prec emax (Zdigits2 m + e) ->
  exists m1 l1 E,
    inb v m1 E l1 /\ steady m1 E
    /\ nonneg (binary_round_aux prec emax false m e l)
    /\ rank (binary_round_aux prec emax false m e l)
       = Z.min (key (round_nearest_even m1 l1) E) key_inf.
Proof.
  intros Hm H Hpre. rewrite binary_round_aux_finish.
  pose proof (shr_fexp_steady v m e l Hm H Hpre) as S.
  destruct (shr_fexp prec emax m e l) as [mrs E]. destruct S as [S1 S2].
  exists (shr_m mrs), (loc_of_shr_record mrs), E.
  split; [exact S1|]. split; [exact S2|]. now apply finish_spec.
Qed.

Lemma inb_unit_bracket y m l :
  inb_unit y m l -> (inject_Z m <= y /\ y < inject_Z m + 1)%Q.
Proof. destruct l as [|[]]; cbn; lra. Qed.

Lemma Qlt_inject_Z_lt a b : (inject_Z a < inject_Z b + 1)%Q -> a <= b.
Proof.
  intros H. change 1%Q with (inject_Z 1) in H. rewrite <- inject_Z_plus in H.
  rewrite <- Zlt_Qlt in H. lia.
Qed.

(** At one exponent, rounding to nearest (ties to even) is monotone. *)
Lemma rne_mono y1 y2 m1 m2 l1 l2 :
  inb_unit y1 m1 l1 -> inb_unit y2 m2 l2 -> (y1 <= y2)%Q ->
  round_nearest_even m1 l1 <= round_nearest_even m2 l2.
Proof.
  intros H1 H2 Hy.
  pose proof (inb_unit_bracket _ _ _ H1) as B1.
  pose proof (inb_unit_bracket _ _ _ H2) as B2.
  assert (Hm : m1 <= m2) by (apply Qlt_inject_Z_lt; lra).
  destruct (Z.eq_dec m1 m2) as [->|Hne].
  - destruct l1 as [|[]], l2 as [|[]]; cbn in *;
      try lia; try (destruct (Z.even m2); lia); exfalso; lra.
  - pose proof (rne_range m1 l1). pose proof (rne_range m2 l2). lia.
Qed.

Lemma scaled_back v E : (v * bpow (- E) * bpow E == v)%Q.
Proof.
  rewrite <- Qmult_assoc, (Qmult_comm (bpow (- E))), bpow_cancel. ring.
Qed.

(** The key of the rounded mantissa is monotone in the number that
    is rounded, across exponents. *)
Lemma key_mono v1 v2 m1 m2 E1 E2 l1 l2 :
  inb v1 m1 E1 l1 -> steady m1 E1 ->
  inb v2 m2 E2 l2 -> steady m2 E2 ->
  (v1 <= v2)%Q ->
  key (round_nearest_even m1 l1) E1 <= key (round_nearest_even m2 l2) E2.
Proof.
  intros H1 S1 H2 S2 Hv. unfold inb in *.
  pose proof (rne_range m1 l1) as R1. pose proof (rne_range m2 l2) as R2.
  pose proof pow2_52 as P52. pose proof pow2_53 as P53.
  destruct S1 as (Sa1 & Sb1 & Sc1). destruct S2 as (Sa2 & Sb2 & Sc2).
  unfold key.
  destruct (Z.lt_trichotomy E1 E2) as [Lt|[Eq|Gt]].
  - specialize (Sc2 ltac:(lia)). nia.
  - subst E2.
    assert (Hy : (v1 * bpow (- E1) <= v2 * bpow (- E1))%Q).
    { apply Qmult_le_compat_r; [exact Hv|]. apply Qlt_le_weak, bpow_pos. }
    pose proof (rne_mono _ _ _ _ _ _ H1 H2 Hy). lia.
  - exfalso. specialize (Sc1 ltac:(lia)).
    pose proof (inb_unit_bracket _ _ _ H1) as [B1 _].
    pose proof (inb_unit_bracket _ _ _ H2) as [_ B2].
    (* v1 >= 2^52 * bpow E1 >= 2^53 * bpow E2 > v2 *)
    assert (A1 : (inject_Z (2 ^ 52) * bpow E1 <= v1)%Q).
    { rewrite <- (scaled_back v1 E1). apply Qmult_le_compat_r.
      - eapply Qle_trans; [|exact B1]. rewrite <- Zle_Qle. lia.
      - apply Qlt_le_weak, bpow_pos. }
    assert (A2 : (v2 < inject_Z (2 ^ 53) * bpow E2)%Q).
    { rewrite <- (scaled_back v2 E2) at 1. apply Qmult_lt_compat_r.
      - apply bpow_pos.
      - eapply Qlt_le_trans; [exact B2|].
        change 1%Q with (inject_Z 1). rewrite <- inject_Z_plus, <- Zle_Qle. lia. }
    assert (A3 : (inject_Z (2 ^ 53) * bpow E2 <= inject_Z (2 ^ 52) * bpow E1)%Q).
    { replace (2 ^ 53) with (2 ^ 52 * 2) by reflexivity.
      rewrite inject_Z_mult, <- Qmult_assoc.
      apply Qmult_le_l; [rewrite P52; reflexivity|].
      change (inject_Z 2) with (bpow 1). rewrite <- bpow_add.
      apply bpow_le. lia. }
    lra.
Qed.

(** Correct rounding is monotone: a smaller number rounds to a float
    that is not larger. *)
Lemma round_mono v1 v2 m1 e1 l1 m2 e2 l2 :
  0 <= m1 -> inb v1 m1 e1 l1 -> e1 <= fexp prec emax (Zdigits2 m1 + e1) ->
  0 <= m2 -> inb v2 m2 e2 l2 -> e2 <= fexp prec emax (Zdigits2 m2 + e2) ->
  (v1 <= v2)%Q ->
  rank (binary_round_aux prec emax false m1 e1 l1)
  <= rank (binary_round_aux prec emax false m2 e2 l2).
Proof.
  intros Hm1 H1 P1 Hm2 H2 P2 Hv.
  destruct (round_spec v1 m1 e1 l1 Hm1 H1 P1) as (a1 & b1 & E1 & I1 & S1 & _ & O1).
  destruct (round_spec v2 m2 e2 l2 Hm2 H2 P2) as (a2 & b2 & E2 & I2 & S2 & _ & O2).
  rewrite O1, O2. pose proof (key_mono _ _ _ _ _ _ _ _ I1 S1 I2 S2 Hv). lia.
Qed.

Lemma nonneg_rank_lower x : nonneg x -> 2 ^ 52 <= rank x.
Proof.
  destruct x as [s|[]| |[] m e]; cbn [nonneg rank]; try tauto;
    unfold key_inf, key, steady; rewrite ?pow2_52, ?pow2_53; lia.
Qed.

Lemma nonneg_rank_upper x : nonneg x -> rank x <= key_inf.
Proof.
  destruct x as [s|[]| |[] m e]; cbn [nonneg rank]; try tauto;
    unfold key_inf, key, steady; rewrite ?pow2_52, ?pow2_53; lia.
Qed.

(** On non-negative floats [<=] and [<] compare the ranks. *)
Lemma leb_rank x y : nonneg x -> nonneg y -> SFleb x y = (rank x <=? rank y).
Proof.
  pose proof pow2_52 as P52. pose proof pow2_53 as P53.
  intros Hx Hy. pose proof (nonneg_rank_lower x Hx). pose proof (nonneg_rank_lower y Hy).
  pose proof (nonneg_rank_upper x Hx). pose proof (nonneg_rank_upper y Hy).
  symmetry.
  destruct x as [s|[]| |[] m e]; cbn in Hx; try tauto;
  destruct y as [s'|[]| |[] m' e']; cbn in Hy; try tauto;
  unfold SFleb, SFcompare; cbn [rank] in *; unfold key_inf, key in *;
  unfold steady in *;
  try (apply Z.leb_le; lia); try (apply Z.leb_gt; lia).
  change (Pos.compare_cont Eq m m') with (Zpos m ?= Zpos m').
  destruct (Z.compare_spec e e'); [subst; destruct (Z.compare_spec (Zpos m) (Zpos m'))|..];
  try (apply Z.leb_le; nia); try (apply Z.leb_gt; nia).
Qed.

Lemma ltb_rank x y : nonneg x -> nonneg y -> SFltb x y = (rank x <? rank y).
Proof.
  pose proof pow2_52 as P52. pose proof pow2_53 as P53.
  intros Hx Hy. pose proof (nonneg_rank_lower x Hx). pose proof (nonneg_rank_lower y Hy).
  pose proof (nonneg_rank_upper x Hx). pose proof (nonneg_rank_upper y Hy).
  symmetry.
  destruct x as [s|[]| |[] m e]; cbn in Hx; try tauto;
  destruct y as [s'|[]| |[] m' e']; cbn in Hy; try tauto;
  unfold SFltb, SFcompare; cbn [rank] in *; unfold key_inf, key in *;
  unfold steady in *;
  try (apply Z.ltb_lt; lia); try (apply Z.ltb_ge; lia).
  change (Pos.compare_cont Eq m m') with (Zpos m ?= Zpos m').
  destruct (Z.compare_spec e e'); [subst; destruct (Z.compare_spec (Zpos m) (Zpos m'))|..];
  try (apply Z.ltb_lt; nia); try (apply Z.ltb_ge; nia).
Qed.

Lemma valQ_nonneg x : (0 <= valQ x)%Q.
Proof.
  destruct x as [s|s| |[] m e]; cbn; try lra.
  apply Qmult_le_0_compat; [rewrite <- (Zle_Qle 0); lia | apply Qlt_le_weak, bpow_pos].
Qed.

(** Rank order is value order. *)
Lemma rank_le_val x y :
  finite_nonneg x -> finite_nonneg y -> rank x <= rank y -> (valQ x <= valQ y)%Q.
Proof.
  pose proof pow2_52 as P52. pose proof pow2_53 as P53.
  intros [Hx Fx] [Hy Fy] H.
  destruct x as [s|[]| |[] m e]; cbn in Hx, Fx; try tauto; try lia;
    [apply valQ_nonneg|].
  pose proof (nonneg_rank_lower _ Hy).
  destruct y as [s'|[]| |[] m' e']; cbn in Hy, Fy; try tauto; try lia.
  - exfalso. cbn in H. unfold key, steady in *. nia.
  - cbn [rank valQ] in *. unfold key, steady in *.
    destruct Hx as [(A & B & C) D]. destruct Hy as [(A' & B' & C') D'].
    destruct (Z.lt_trichotomy e e') as [Lt|[Eq|Gt]].
    + specialize (C' ltac:(lia)).
      apply Qle_trans with (inject_Z (2 ^ 53) * bpow e)%Q.
      { apply Qmult_le_compat_r; [rewrite <- Zle_Qle; lia | apply Qlt_le_weak, bpow_pos]. }
      apply Qle_trans with (inject_Z (2 ^ 52) * bpow e')%Q.
      { replace (2 ^ 53) with (2 ^ 52 * 2) by reflexivity.
        rewrite inject_Z_mult, <- Qmult_assoc.
        apply Qmult_le_l; [rewrite P52; reflexivity|].
        change (inject_Z 2) with (bpow 1). rewrite <- bpow_add. apply bpow_le. lia. }
      apply Qmult_le_compat_r; [rewrite <- Zle_Qle; lia | apply Qlt_le_weak, bpow_pos].
    + subst e'. apply Qmult_le_compat_r; [rewrite <- Zle_Qle; lia | apply Qlt_le_weak, bpow_pos].
    + exfalso. specialize (C ltac:(lia)). nia.
Qed.

Lemma Zdigits2_ge53 m : 2 ^ 52 <= m -> 53 <= Zdigits2 m.
Proof.
  intros H. pose proof pow2_52.
  destruct (Zdigits2_bounds m ltac:(lia)) as (Hd & Hlo & Hhi).
  destruct (Z_le_gt_dec 53 (Zdigits2 m)) as [|G]; [assumption|exfalso].
  assert (2 ^ Zdigits2 m <= 2 ^ 52) by (apply Z.pow_le_mono_r; lia). lia.
Qed.

Lemma pre_of_normal m e : 2 ^ 52 <= m -> e <= fexp prec emax (Zdigits2 m + e).
Proof. intros H. apply Zdigits2_ge53 in H. rewrite fexp_eq. lia. Qed.

Lemma bpow_nonzero e : ~ (bpow e == 0)%Q.
Proof. pose proof (bpow_pos e). lra. Qed.

(** The product of the mantissas at the sum of the exponents is the
    exact product. *)
Lemma mul_inb mx ex my ey :
  inb (valQ (S754_finite false mx ex) * valQ (S754_finite false my ey))
      (Zpos (mx * my)) (ex + ey) loc_Exact.
Proof.
  unfold inb, inb_unit, valQ.
  rewrite Pos2Z.inj_mul, inject_Z_mult.
  replace (- (ex + ey)) with (- ex + - ey) by lia.
  rewrite bpow_add.
  transitivity (inject_Z (Zpos mx) * inject_Z (Zpos my)
                * (bpow ex * bpow (- ex)) * (bpow ey * bpow (- ey)))%Q; [ring|].
  rewrite !bpow_cancel. ring.
Qed.

Lemma mul_nonneg x y :
  normal x -> positive_finite y -> nonneg (SFmul prec emax x y).
Proof.
  destruct x as [| | |[] mx ex]; cbn [normal]; try tauto.
  destruct y as [| | |[] my ey]; cbn [positive_finite]; try tauto.
  intros (_ & _ & Hx) _.
  change (SFmul prec emax (S754_finite false mx ex) (S754_finite false my ey))
    with (binary_round_aux prec emax false (Zpos (mx * my)) (ex + ey) loc_Exact).
  destruct (round_spec _ _ _ _ (Pos2Z.is_nonneg _) (mul_inb mx ex my ey))
    as (m1 & l1 & E & _ & _ & HN & _).
  - apply pre_of_normal. rewrite Pos2Z.inj_mul. nia.
  - exact HN.
Qed.

(** Multiplication of positive floats is monotone in the exact
    product. *)
Lemma mul_mono x1 y1 x2 y2 :
  normal x1 -> positive_finite y1 -> normal x2 -> positive_finite y2 ->
  (valQ x1 * valQ y1 <= valQ x2 * valQ y2)%Q ->
  rank (SFmul prec emax x1 y1) <= rank (SFmul prec emax x2 y2).
Proof.
  destruct x1 as [| | |[] mx1 ex1]; cbn [normal]; try tauto.
  destruct y1 as [| | |[] my1 ey1]; cbn [positive_finite]; try tauto.
  destruct x2 as [| | |[] mx2 ex2]; cbn [normal]; try tauto.
  destruct y2 as [| | |[] my2 ey2]; cbn [positive_finite]; try tauto.
  intros (_ & _ & Hx1) _ (_ & _ & Hx2) _ Hv.
  change (SFmul prec emax (S754_finite false mx1 ex1) (S754_finite false my1 ey1))
    with (binary_round_aux prec emax false (Zpos (mx1 * my1)) (ex1 + ey1) loc_Exact).
  change (SFmul prec emax (S754_finite false mx2 ex2) (S754_finite false my2 ey2))
    with (binary_round_aux prec emax false (Zpos (mx2 * my2)) (ex2 + ey2) loc_Exact).
  eapply round_mono; try apply mul_inb; try apply Pos2Z.is_nonneg; try exact Hv;
    apply pre_of_normal; rewrite Pos2Z.inj_mul; nia.
Qed.

Lemma div_eucl_div_mod a b : Z.div_eucl a b = (a / b, a mod b).
Proof. unfold Z.div, Z.modulo. now destruct (Z.div_eucl a b). Qed.

Lemma steady_digits m e : 0 < m -> steady m e -> 1 <= Zdigits2 m <= 53.
Proof.
  intros Hm (A & _). pose proof (Zdigits2_le53 m ltac:(lia)).
  destruct (Zdigits2_bounds m Hm). lia.
Qed.

Lemma inject_Z_pow2 s : 0 <= s -> (inject_Z (2 ^ s) == bpow s)%Q.
Proof. intros H. now rewrite bpow_Z. Qed.

(** Division of a positive float by 25.0: the quotient, the remainder
    and the location [SFdiv] hands to the rounding represent the exact
    quotient, with enough digits. *)
Lemma div25_repr mx ex :
  steady (Zpos mx) ex -> ex <= 971 ->
  exists q e' l,
    SFdiv prec emax (S754_finite false mx ex) f25
      = binary_round_aux prec emax false q e' l
    /\ 0 <= q
    /\ inb (valQ (S754_finite false mx ex) * (1 # 25)) q e' l
    /\ e' <= fexp prec emax (Zdigits2 q + e').
Proof.
  intros St Hex.
  pose proof (steady_digits _ _ (Pos2Z.is_pos mx) St) as Hd.
  destruct (Zdigits2_bounds _ (Pos2Z.is_pos mx)) as (_ & Hlo & Hhi).
  destruct St as (Sa & Sb & Sc).
  set (d1 := Zdigits2 (Zpos mx)) in *.
  set (e' := Z.max (d1 + ex - 58) (-1074)).
  set (s := ex + 48 - e').
  assert (Hs : 0 < s) by (unfold s, e'; lia).
  set (m' := Zpos mx * 2 ^ s).
  exists (m' / Zpos m25), e', (new_location (Zpos m25) (m' mod Zpos m25)).
  assert (Hm' : 0 < m') by (unfold m'; apply Z.mul_pos_pos; [lia | apply Z.pow_pos_nonneg; lia]).
  pose proof (Z.div_mod m' (Zpos m25) ltac:(lia)) as Hdm.
  pose proof (Z.mod_pos_bound m' (Zpos m25) ltac:(lia)) as Hr.
  set (q := m' / Zpos m25) in *. set (r := m' mod Zpos m25) in *.
  assert (Hq : 0 <= q) by (apply Z.div_pos; lia).
  split; [|split; [exact Hq|split]].
  - unfold SFdiv, f25, SFdiv_core_binary. cbn [xorb].
    fold d1. change (Zdigits2 (Zpos m25)) with 53.
    replace (Z.min (fexp prec emax (d1 + ex - (53 + -48))) (ex - -48)) with e'
      by (rewrite fexp_eq; unfold e'; lia).
    replace (ex - -48 - e') with s by (unfold s; lia).
    destruct s as [|ps|ps] eqn:Es; try lia.
    rewrite Z.shiftl_mul_pow2 by lia. fold m'.
    rewrite div_eucl_div_mod. reflexivity.
  - (* the quotient and its location *)
    assert (Hy : (valQ (S754_finite false mx ex) * (1 # 25) * bpow (- e')
                  == inject_Z q + inject_Z r * (1 # m25))%Q).
    { transitivity (inject_Z m' * (1 # m25))%Q.
      - unfold valQ, m'. rewrite inject_Z_mult, inject_Z_pow2 by lia.
        unfold s. replace (ex + 48 - e') with (ex + (48 + - e')) by lia.
        rewrite !bpow_add.
        assert (C : ((1 # m25) * bpow 48 == 1 # 25)%Q) by reflexivity.
        rewrite <- C. ring.
      - rewrite Hdm at 1. rewrite inject_Z_plus, inject_Z_mult.
        assert (C : (inject_Z (Zpos m25) * (1 # m25) == 1)%Q) by reflexivity.
        transitivity (inject_Z q * (inject_Z (Zpos m25) * (1 # m25))
                      + inject_Z r * (1 # m25))%Q; [ring|].
        rewrite C. ring. }
    unfold inb. eapply inb_unit_ext; [symmetry; exact Hy|].
    unfold new_location. change (Z.even (Zpos m25)) with true. cbv iota.
    unfold new_location_even.
    destruct (Z.eqb_spec r 0) as [R0|RN].
    + rewrite R0. cbn [inb_unit]. change (inject_Z 0) with 0%Q. ring.
    + assert (Rp : (0 < inject_Z r)%Q) by (rewrite <- (Zlt_Qlt 0); lia).
      assert (Rm : (inject_Z r < inject_Z (Zpos m25))%Q) by (rewrite <- Zlt_Qlt; lia).
      unfold m25 in *.
      destruct (Z.compare_spec (2 * r) (Zpos 7036874417766400)) as [C|C|C]; cbn [inb_unit].
      * assert (C' : (2 * inject_Z r == inject_Z (Zpos 7036874417766400))%Q)
          by (rewrite <- C, inject_Z_mult; reflexivity).
        change (inject_Z (Zpos 7036874417766400)) with (7036874417766400 # 1)%Q in *.
        lra.
      * assert (C' : (2 * inject_Z r < inject_Z (Zpos 7036874417766400))%Q).
        { change 2%Q with (inject_Z 2). rewrite <- inject_Z_mult, <- Zlt_Qlt. exact C. }
        change (inject_Z (Zpos 7036874417766400)) with (7036874417766400 # 1)%Q in *.
        lra.
      * assert (C' : (inject_Z (Zpos 7036874417766400) < 2 * inject_Z r)%Q).
        { change 2%Q with (inject_Z 2). rewrite <- inject_Z_mult, <- Zlt_Qlt. exact C. }
        change (inject_Z (Zpos 7036874417766400)) with (7036874417766400 # 1)%Q in *.
        lra.
  - destruct (Z.eq_dec e' (-1074)) as [->|Hne].
    + rewrite fexp_eq. lia.
    + apply pre_of_normal.
      assert (Hs' : s = 106 - d1) by (unfold s, e' in *; lia).
      apply Z.div_le_lower_bound; [lia|].
      unfold m'. rewrite Hs'.
      apply Z.le_trans with (2 ^ 105); [vm_compute; discriminate|].
      apply Z.le_trans with (2 ^ (d1 - 1) * 2 ^ (106 - d1)).
      * rewrite <- Z.pow_add_r by lia. replace (d1 - 1 + (106 - d1)) with 105 by lia.
        reflexivity.
      * apply Z.mul_le_mono_nonneg_r; [apply Z.pow_nonneg; lia | exact Hlo].
Qed.

Lemma finite_nonneg_lt x : nonneg x -> (forall s, x <> S754_infinity s) -> rank x < key_inf.
Proof.
  destruct x as [s|[]| |[] m e]; cbn [nonneg rank]; try tauto;
    unfold key_inf, key, steady; rewrite ?pow2_52, ?pow2_53; try lia.
  intros _ H. now specialize (H false).
Qed.

Lemma round_nonneg v m e l :
  0 <= m -> inb v m e l -> e <= fexp prec emax (Zdigits2 m + e) ->
  nonneg (binary_round_aux prec emax false m e l).
Proof.
  intros A B C. destruct (round_spec v m e l A B C) as (_ & _ & _ & _ & _ & H & _).
  exact H.
Qed.

(** ** Division by 25.0 *)

Lemma div25_nonneg x : nonneg x -> nonneg (F64.div x F64.f25_0).
Proof.
  destruct x as [s|[]| |[] m e]; cbn [nonneg]; try tauto; intros H; try exact I.
  destruct H as [St He].
  destruct (div25_repr m e St He) as (q & e' & l & Eq & Hq & Hin & Hpre).
  change (F64.div (S754_finite false m e) F64.f25_0)
    with (SFdiv prec emax (S754_finite false m e) f25).
  rewrite Eq. eapply round_nonneg; eassumption.
Qed.

(** Division by 25.0 is monotone on non-negative floats. *)
Lemma div25_mono x1 x2 :
  nonneg x1 -> nonneg x2 -> rank x1 <= rank x2 ->
  rank (F64.div x1 F64.f25_0) <= rank (F64.div x2 F64.f25_0).
Proof.
  intros N1 N2 H.
  pose proof (nonneg_rank_lower _ (div25_nonneg _ N2)) as L2.
  pose proof (nonneg_rank_upper _ (div25_nonneg _ N1)) as U1.
  pose proof (nonneg_rank_lower _ N1) as L1'. pose proof (nonneg_rank_upper _ N2) as U2'.
  destruct x1 as [s1|[]| |[] m1 e1]; cbn [nonneg] in N1; try (exfalso; exact N1).
  - exact L2.
  - (* x1 = +inf *)
    destruct x2 as [s2|[]| |[] m2 e2]; cbn [nonneg] in N2; try (exfalso; exact N2).
    + cbn [rank] in H. unfold key_inf in H. rewrite pow2_52 in H. lia.
    + apply Z.le_refl.
    + exfalso. pose proof (finite_nonneg_lt (S754_finite false m2 e2) N2 ltac:(discriminate)).
      cbn [rank] in *. lia.
  - destruct x2 as [s2|[]| |[] m2 e2]; cbn [nonneg] in N2; try (exfalso; exact N2).
    + exfalso. cbn [rank] in H. destruct N1 as [(A & B & C) D].
      unfold key in H. rewrite pow2_52 in *. lia.
    + exact U1.
    + destruct N1 as [St1 He1]. destruct N2 as [St2 He2].
      destruct (div25_repr m1 e1 St1 He1) as (q1 & e1' & l1 & Eq1 & Hq1 & Hin1 & Hpre1).
      destruct (div25_repr m2 e2 St2 He2) as (q2 & e2' & l2 & Eq2 & Hq2 & Hin2 & Hpre2).
      change (F64.div (S754_finite false m1 e1) F64.f25_0)
        with (SFdiv prec emax (S754_finite false m1 e1) f25).
      change (F64.div (S754_finite false m2 e2) F64.f25_0)
        with (SFdiv prec emax (S754_finite false m2 e2) f25).
      rewrite Eq1, Eq2.
      eapply round_mono; try eassumption.
      apply Qmult_le_compat_r; [|discriminate].
      apply rank_le_val; [split; [split; assumption|]..|exact H];
        apply finite_nonneg_lt; try discriminate; split; assumption.
Qed.

(** ** The cap at 2.0 *)

Lemma nonneg_f2 : nonneg F64.f2_0.
Proof. cbn. unfold steady. rewrite pow2_52, pow2_53. lia. Qed.

(** [min(y, 2.0)] is the one of lower rank. *)
Lemma min2_cap y :
  nonneg y ->
  nonneg (F64.min2 y F64.f2_0)
  /\ rank (F64.min2 y F64.f2_0) = Z.min (rank y) (rank F64.f2_0).
Proof.
  intros Hy. unfold F64.min2, F64.ltb. rewrite (ltb_rank _ _ nonneg_f2 Hy).
  destruct (Z.ltb_spec (rank F64.f2_0) (rank y)).
  - split; [exact nonneg_f2 | lia].
  - split; [exact Hy | lia].
Qed.

Lemma capped_finite f :
  nonneg f -> rank f <= rank F64.f2_0 -> finite_nonneg f.
Proof.
  intros N H. split; [exact N|].
  eapply Z.le_lt_trans; [exact H | reflexivity].
Qed.

Lemma finite_nonneg_cases f :
  finite_nonneg f -> (exists s, f = S754_zero s) \/ positive_finite f.
Proof.
  intros [N L]. destruct f as [s|[]| |[] m e]; cbn [nonneg] in N; try tauto.
  - left. now exists s.
  - cbn in L. lia.
  - right. exact I.
Qed.

(** ** Multiplication by a normal float *)

Lemma mul_zero_r x s :
  normal x -> SFmul prec emax x (S754_zero s) = S754_zero s.
Proof.
  destruct x as [| | |[] m e]; cbn [normal]; intros H; try (exfalso; exact H).
  reflexivity.
Qed.

Lemma mulN_nonneg x f : normal x -> finite_nonneg f -> nonneg (F64.mul x f).
Proof.
  intros Hx Hf. destruct (finite_nonneg_cases f Hf) as [[s ->]|P].
  - unfold F64.mul. rewrite mul_zero_r by assumption. exact I.
  - now apply mul_nonneg.
Qed.

Lemma normal_nonneg x : normal x -> finite_nonneg x.
Proof.
  destruct x as [| | |[] m e]; cbn [normal]; try tauto. intros (A & B & C).
  assert (N : nonneg (S754_finite false m e)) by (split; assumption).
  split; [exact N|]. apply finite_nonneg_lt; [exact N | discriminate].
Qed.

(** Multiplication by a normal float is monotone in both arguments,
    zero included. *)
Lemma mulN_mono x1 x2 f1 f2 :
  normal x1 -> normal x2 -> (valQ x1 <= valQ x2)%Q ->
  finite_nonneg f1 -> finite_nonneg f2 -> rank f1 <= rank f2 ->
  rank (F64.mul x1 f1) <= rank (F64.mul x2 f2).
Proof.
  intros Hx1 Hx2 Hv Hf1 Hf2 Ho.
  pose proof (nonneg_rank_lower _ (mulN_nonneg x2 f2 Hx2 Hf2)) as L2.
  pose proof (rank_le_val f1 f2 Hf1 Hf2 Ho) as Hfv.
  destruct (finite_nonneg_cases f1 Hf1) as [[s1 ->]|P1].
  - unfold F64.mul at 1. rewrite mul_zero_r by assumption. exact L2.
  - destruct (finite_nonneg_cases f2 Hf2) as [[s2 ->]|P2].
    + exfalso. destruct f1 as [| | |[] m e]; cbn in P1; try tauto.
      destruct Hf1 as [[(A & B & C) D] _]. cbn [rank] in Ho. unfold key in Ho.
      rewrite pow2_52 in *. lia.
    + apply mul_mono; try assumption.
      pose proof (valQ_nonneg x1). pose proof (valQ_nonneg f1).
      apply Qle_trans with (valQ x2 * valQ f1)%Q.
      * apply Qmult_le_compat_r; assumption.
      * rewrite !(Qmult_comm (valQ x2)). apply Qmult_le_compat_r; [assumption|].
        apply valQ_nonneg.
Qed.

(** ** Truncation *)

Lemma trunc_bracket x :
  finite_nonneg x ->
  (inject_Z (F64.trunc x) <= valQ x /\ valQ x < inject_Z (F64.trunc x) + 1)%Q.
Proof.
  intros Hx. destruct (finite_nonneg_cases x Hx) as [[s ->]|P].
  - cbn [F64.trunc valQ]. change (inject_Z 0) with 0%Q. lra.
  - destruct x as [| | |[] m e]; cbn in P; try (exfalso; exact P).
    cbn [F64.trunc valQ cond_Zopp].
    destruct (Z.leb_spec 0 e) as [He|He].
    + rewrite inject_Z_mult, inject_Z_pow2 by lia. lra.
    + set (k := - e). assert (Hk : 0 < k) by (unfold k; lia).
      assert (P2 : 0 < 2 ^ k) by (apply Z.pow_pos_nonneg; lia).
      pose proof (Z.div_mod (Zpos m) (2 ^ k) ltac:(lia)) as Hdm.
      pose proof (Z.mod_pos_bound (Zpos m) (2 ^ k) P2) as Hr.
      set (t := Zpos m / 2 ^ k) in *. set (r := Zpos m mod 2 ^ k) in *.
      assert (Hm : (inject_Z (Zpos m) == inject_Z t * bpow k + inject_Z r)%Q).
      { rewrite Hdm at 1. rewrite inject_Z_plus, inject_Z_mult, inject_Z_pow2 by lia. ring. }
      assert (Hr1 : (0 <= inject_Z r)%Q) by (rewrite <- (Zle_Qle 0); lia).
      assert (Hr2 : (inject_Z r < bpow k)%Q)
        by (rewrite <- inject_Z_pow2 by lia; rewrite <- Zlt_Qlt; lia).
      replace e with (- k) by (unfold k; lia).
      pose proof (bpow_pos (- k)) as Bp. pose proof (bpow_cancel k) as Bc.
      set (b := bpow k) in *. set (c := bpow (- k)) in *.
      rewrite Hm. split.
      * assert (0 <= inject_Z r * c)%Q by (apply Qmult_le_0_compat; lra).
        setoid_replace ((inject_Z t * b + inject_Z r) * c)%Q
          with (inject_Z t * (b * c) + inject_Z r * c)%Q by ring.
        rewrite Bc. lra.
      * assert (inject_Z r * c < b * c)%Q by (apply Qmult_lt_compat_r; lra).
        setoid_replace ((inject_Z t * b + inject_Z r) * c)%Q
          with (inject_Z t * (b * c) + inject_Z r * c)%Q by ring.
        rewrite Bc in *. lra.
Qed.

(** Truncation is monotone. *)
Lemma trunc_mono x y :
  finite_nonneg x -> finite_nonneg y -> rank x <= rank y -> F64.trunc x <= F64.trunc y.
Proof.
  intros Hx Hy H. pose proof (rank_le_val x y Hx Hy H).
  pose proof (trunc_bracket x Hx). pose proof (trunc_bracket y Hy).
  apply Qlt_inject_Z_lt. lra.
Qed.

Lemma trunc_nonneg x : finite_nonneg x -> 0 <= F64.trunc x.
Proof.
  intros Hx. pose proof (trunc_bracket x Hx). pose proof (valQ_nonneg x).
  assert (H1 : (inject_Z (-1) < inject_Z (F64.trunc x))%Q).
  { change (inject_Z (-1)) with (-1)%Q. lra. }
  rewrite <- Zlt_Qlt in H1. lia.
Qed.

End RoundingFacts.

(** ** Bitrate estimation *)

Module EstimatorFacts.
Import Py FFmpegLib Merger Rounding RoundingFacts Spec.

Local Abbreviation prec := 53 (only parsing).
Local Abbreviation emax := 1024 (only parsing).

(** A canonical mantissa is in steady shape. *)
Lemma canonical_steady m e :
  canonical_mantissa prec emax m e = true -> steady (Zpos m) e.
Proof.
  unfold canonical_mantissa. intros H. apply Z.eqb_eq in H. rewrite fexp_eq in H.
  destruct (Zdigits2_bounds (Zpos m) (Pos2Z.is_pos m)) as (Hd & Hlo & Hhi).
  cbn [Zdigits2] in *. set (d := Zpos (digits2_pos m)) in *.
  unfold steady. repeat split; try lia.
  - eapply Z.lt_le_trans; [exact Hhi|]. apply Z.pow_le_mono_r; lia.
  - intros He. assert (d = 53) by lia. replace 52 with (d - 1) by lia. exact Hlo.
Qed.

(** A valid frame rate is zero, positive or plus infinity. *)
Lemma valid_rate_nonneg fps : valid_rate fps -> nonneg fps.
Proof.
  intros [V L]. destruct fps as [s|[]| |[] m e]; cbn [nonneg]; try exact I;
    try discriminate L.
  unfold F64.is_float64, valid_binary, bounded in V.
  apply andb_true_iff in V. destruct V as [C B].
  split; [now apply canonical_steady | now apply Z.leb_le in B].
Qed.

Lemma rank_zero : rank F64.zero = 2 ^ 52.
Proof. reflexivity. Qed.

Lemma base_bitrate_table p : base_bitrate p = base_table p.
Proof. reflexivity. Qed.

Lemma base_bitrate_in p : In (base_bitrate p) bases.
Proof.
  unfold base_bitrate, bases.
  repeat match goal with |- context [if ?c then _ else _] => destruct c end;
    cbn; auto 10.
Qed.

(** The base bitrate grows with the pixel count. *)
Lemma base_bitrate_mono p q : p <= q -> base_bitrate p <= base_bitrate q.
Proof.
  intros H. unfold base_bitrate.
  repeat match goal with
         | |- context [?a <=? ?b] => destruct (Z.leb_spec a b)
         end; lia.
Qed.

Lemma normalb_normal x : normalb x = true -> normal x.
Proof.
  destruct x as [| | |[] m e]; cbn [normalb normal]; try discriminate.
  rewrite !andb_true_iff. intros ((((A & B) & C) & D) & E).
  apply Z.leb_le in A, C, D, E. apply Z.ltb_lt in B.
  unfold steady. lia.
Qed.

Lemma base_normal B : In B bases -> normal (F64.of_Z B).
Proof.
  intros H. apply normalb_normal.
  cbn in H. destruct H as [<-|[<-|[<-|[<-|[<-|[]]]]]]; reflexivity.
Qed.

Lemma base_float_of_int B :
  In B bases -> F64.float_of_int (Cmd := command) B = ret (F64.of_Z B).
Proof.
  intros H. cbn in H. destruct H as [<-|[<-|[<-|[<-|[<-|[]]]]]]; reflexivity.
Qed.

Lemma base_doubled B :
  In B bases ->
  F64.trunc (F64.mul (F64.of_Z B) F64.f2_0) = 2 * B
  /\ rank (F64.mul (F64.of_Z B) F64.f2_0) < key_inf.
Proof.
  intros H. cbn in H. destruct H as [<-|[<-|[<-|[<-|[<-|[]]]]]]; split; reflexivity.
Qed.

Lemma base_rank_mono B1 B2 :
  In B1 bases -> In B2 bases -> B1 <= B2 ->
  rank (F64.of_Z B1) <= rank (F64.of_Z B2).
Proof.
  intros H1 H2 H. cbn in H1, H2.
  destruct H1 as [<-|[<-|[<-|[<-|[<-|[]]]]]];
    destruct H2 as [<-|[<-|[<-|[<-|[<-|[]]]]]];
    try lia; vm_compute; discriminate.
Qed.

Lemma factor_props fps :
  nonneg fps ->
  finite_nonneg (factor fps)
  /\ rank (factor fps) = Z.min (rank (F64.div fps F64.f25_0)) (rank F64.f2_0).
Proof.
  intros N. destruct (min2_cap _ (div25_nonneg _ N)) as [A B]. fold (factor fps) in A, B.
  split; [|exact B]. apply capped_finite; [exact A | lia].
Qed.

Lemma finite_f2 : finite_nonneg F64.f2_0.
Proof. apply capped_finite; [exact nonneg_f2 | lia]. Qed.

(** The product of a base bitrate and the capped factor is finite. *)
Lemma product_finite B fps :
  In B bases -> nonneg fps -> finite_nonneg (F64.mul (F64.of_Z B) (factor fps)).
Proof.
  intros HB N. destruct (factor_props fps N) as [F O].
  pose proof (base_normal B HB) as Hn.
  split; [now apply mulN_nonneg|].
  eapply Z.le_lt_trans; [|exact (proj2 (base_doubled B HB))].
  apply mulN_mono; try assumption; [apply Qle_refl | exact finite_f2 | lia].
Qed.

Lemma int_of_float_finite x :
  finite_nonneg x -> F64.int_of_float (Cmd := command) x = ret (F64.trunc x).
Proof.
  intros [N L]. destruct x as [s|[]| |[] m e]; cbn [nonneg] in N; try (exfalso; exact N);
    try reflexivity.
  exfalso. cbn in L. lia.
Qed.

(** The estimate lies between 0 and twice the base bitrate. *)
Lemma estimate_bounds B fps :
  In B bases -> nonneg fps -> 0 <= estimate B fps <= 2 * B.
Proof.
  intros HB N. pose proof (product_finite B fps HB N) as PF.
  destruct (factor_props fps N) as [F O]. pose proof (base_normal B HB) as Hn.
  split; [now apply trunc_nonneg|].
  rewrite <- (proj1 (base_doubled B HB)). unfold estimate.
  apply trunc_mono; [exact PF | |].
  - split; [apply mulN_nonneg; [exact Hn | exact finite_f2] | exact (proj2 (base_doubled B HB))].
  - apply mulN_mono; try assumption; [apply Qle_refl | exact finite_f2 | lia].
Qed.

(** Without a known bitrate the function returns the estimate, for
    every frame rate that is not NaN and not negative. *)
Lemma calculate_estimate w h fps ob :
  nonneg fps -> ob <= 0 ->
  calculate_smart_bitrate w h fps ob = ret (estimate (base_bitrate (w * h)) fps).
Proof.
  intros N Hob. unfold calculate_smart_bitrate.
  destruct (Z.ltb_spec 0 ob) as [|_]; [lia|].
  unfold F64.truediv. change (F64.is_zero F64.f25_0) with false. cbv iota.
  cbn [bind ret]. fold (factor fps).
  unfold F64.int_mul_float. rewrite (base_float_of_int _ (base_bitrate_in (w * h))).
  cbn [bind ret app].
  rewrite (int_of_float_finite _ (product_finite _ fps (base_bitrate_in (w * h)) N)).
  reflexivity.
Qed.

Lemma estimate_mono_base B1 B2 fps :
  In B1 bases -> In B2 bases -> B1 <= B2 -> nonneg fps ->
  estimate B1 fps <= estimate B2 fps.
Proof.
  intros H1 H2 H N. unfold estimate. destruct (factor_props fps N) as [F O].
  apply trunc_mono; try now apply product_finite.
  apply mulN_mono; try (now apply base_normal); try assumption; [|lia].
  apply rank_le_val; try (apply normal_nonneg; now apply base_normal).
  now apply base_rank_mono.
Qed.

Lemma estimate_mono_rate B fps1 fps2 :
  In B bases -> nonneg fps1 -> nonneg fps2 -> rank fps1 <= rank fps2 ->
  estimate B fps1 <= estimate B fps2.
Proof.
  intros HB N1 N2 H. unfold estimate.
  destruct (factor_props fps1 N1) as [F1 O1]. destruct (factor_props fps2 N2) as [F2 O2].
  pose proof (div25_mono fps1 fps2 N1 N2 H).
  apply trunc_mono; try now apply product_finite.
  apply mulN_mono; try (now apply base_normal); try assumption; [apply Qle_refl | lia].
Qed.

(** From 50 frames per second on the factor is 2.0. *)
Lemma estimate_capped B fps :
  In B bases -> nonneg fps -> rank (F64.of_Z 50) <= rank fps ->
  estimate B fps = 2 * B.
Proof.
  intros HB N H. pose proof (estimate_bounds B fps HB N) as [_ U].
  assert (N50 : nonneg (F64.of_Z 50)).
  { apply (proj1 (normal_nonneg (F64.of_Z 50) (normalb_normal (F64.of_Z 50) eq_refl))). }
  pose proof (estimate_mono_rate B _ _ HB N50 N H) as L.
  assert (E50 : estimate B (F64.of_Z 50) = 2 * B).
  { cbn in HB. destruct HB as [<-|[<-|[<-|[<-|[<-|[]]]]]]; reflexivity. }
  lia.
Qed.

(** Outside that domain [int] can raise: NaN is not converted. *)
Example estimate_of_nan (width height : Z) :
  outcome_of (calculate_smart_bitrate width height F64.nan 0)
  = Raised (new_exc ValueError "cannot convert float NaN to integer").
Proof.
  unfold calculate_smart_bitrate. cbn [Z.ltb Z.compare].
  pose proof (base_bitrate_in (width * height)) as I. cbn in I.
  destruct I as [E|[E|[E|[E|[E|[]]]]]]; rewrite <- E; reflexivity.
Qed.

Lemma rate_nonneg fps :
  F64.is_float64 fps -> F64.leb F64.zero fps = true -> nonneg fps.
Proof. intros V L. apply valid_rate_nonneg. now split. Qed.

Lemma positive_rate fps :
  F64.ltb F64.zero fps = true -> F64.leb F64.zero fps = true.
Proof.
  unfold F64.ltb, F64.leb, SFltb, SFleb.
  destruct (SFcompare F64.zero fps) as [[]|]; congruence.
Qed.

Lemma nonneg_50 : nonneg (F64.of_Z 50).
Proof. apply (proj1 (normal_nonneg (F64.of_Z 50) (normalb_normal (F64.of_Z 50) eq_refl))). Qed.

(** C4. The bitrate estimator has no effect and always returns: a
    known bitrate above zero is returned unchanged; otherwise the
    result is the base bitrate of the pixel count (1.5, 3, 5, 15 or
    40 Mbps by the breakpoints 640x480, 1280x720, 1920x1080 and
    3840x2160) times [min(fps / 25.0, 2.0)], truncated to an integer.
    The frame rate ranges over the binary64 numbers that are not NaN
    and not negative. In particular the estimate is 5000000 for
    1920x1080 at 25.0, 6000000 for 1280x720 at 50.0, and 4000000 for
    a known bitrate of 4000000. *)
Theorem calculate_smart_bitrate_total (width height : Z) (fps : F64.float)
    (original_bitrate : Z) :
  F64.is_float64 fps -> F64.leb F64.zero fps = true ->
  (0 < original_bitrate ->
     calculate_smart_bitrate width height fps original_bitrate
     = ret original_bitrate)
  /\ (original_bitrate <= 0 ->
        calculate_smart_bitrate width height fps original_bitrate
        = ret (F64.trunc
                 (F64.mul (F64.of_Z (base_table (width * height)))
                          (F64.min2 (F64.div fps F64.f25_0) F64.f2_0))))
  /\ calculate_smart_bitrate 1920 1080 F64.f25_0 0 = ret 5000000
  /\ calculate_smart_bitrate 1280 720 (F64.of_Z 50) 0 = ret 6000000
  /\ calculate_smart_bitrate 640 480 (F64.of_Z 10) 4000000 = ret 4000000.
Proof.
  intros V L. split; [|split; [|repeat split]].
  - intros H. unfold calculate_smart_bitrate.
    destruct (Z.ltb_spec 0 original_bitrate); [reflexivity | lia].
  - intros H. rewrite (calculate_estimate _ _ _ _ (rate_nonneg _ V L) H).
    reflexivity.
Qed.

Lemma calculate_smart_bitrate_total_witness :
  calculate_smart_bitrate 3840 2160 (F64.of_Z 50) 0 = ret 30000000.
Proof.
  rewrite (proj1 (proj2 (calculate_smart_bitrate_total 3840 2160 (F64.of_Z 50) 0
                           eq_refl eq_refl)) (Z.le_refl 0)).
  reflexivity.
Defined.

(** C10. For a width and a height of at least 1 and a frame rate
    above zero, with no known bitrate, the estimator returns an integer
    between 0 and 80000000; it can be 0: at 2^-30 frames per second the
    estimate for 1920x1080 is 0. *)
Theorem estimate_bounded (width height : Z) (fps : F64.float) :
  1 <= width -> 1 <= height ->
  F64.is_float64 fps -> F64.ltb F64.zero fps = true ->
  (exists n, calculate_smart_bitrate width height fps 0 = ret n
             /\ 0 <= n <= 80000000)
  /\ (F64.is_float64 Sample.slow_rate /\ F64.ltb F64.zero Sample.slow_rate = true
      /\ calculate_smart_bitrate 1920 1080 Sample.slow_rate 0 = ret 0).
Proof.
  intros _ _ V L. split; [|repeat split].
  pose proof (rate_nonneg _ V (positive_rate _ L)) as N.
  exists (estimate (base_bitrate (width * height)) fps).
  split; [now apply calculate_estimate|].
  pose proof (estimate_bounds _ fps (base_bitrate_in (width * height)) N) as B.
  pose proof (base_bitrate_in (width * height)) as I.
  cbn in I. destruct I as [E|[E|[E|[E|[E|[]]]]]]; rewrite <- E in B |- *; lia.
Qed.

Lemma estimate_bounded_witness :
  exists n, calculate_smart_bitrate 7680 4320 (F64.of_Z 120) 0 = ret n
            /\ 0 <= n <= 80000000.
Proof.
  apply (estimate_bounded 7680 4320 (F64.of_Z 120)); [lia | lia | reflexivity | reflexivity].
Defined.

(** C9. With no known bitrate, and frame rates that are not NaN and
    not negative: for a fixed frame rate the estimate does not decrease
    when the pixel count grows; for a fixed resolution it does not
    decrease when the frame rate grows; and from 50 frames per second
    on it is constant, twice the base bitrate. *)
Theorem estimate_monotone (w1 h1 w2 h2 : Z) (fps1 fps2 : F64.float) :
  F64.is_float64 fps1 -> F64.leb F64.zero fps1 = true ->
  F64.is_float64 fps2 -> F64.leb F64.zero fps2 = true ->
  (w1 * h1 <= w2 * h2 ->
     exists n1 n2,
       calculate_smart_bitrate w1 h1 fps1 0 = ret n1
       /\ calculate_smart_bitrate w2 h2 fps1 0 = ret n2
       /\ n1 <= n2)
  /\ (F64.leb fps1 fps2 = true ->
        exists n1 n2,
          calculate_smart_bitrate w1 h1 fps1 0 = ret n1
          /\ calculate_smart_bitrate w1 h1 fps2 0 = ret n2
          /\ n1 <= n2)
  /\ (F64.leb (F64.of_Z 50) fps1 = true ->
        calculate_smart_bitrate w1 h1 fps1 0 = ret (2 * base_table (w1 * h1))).
Proof.
  intros V1 L1 V2 L2.
  pose proof (rate_nonneg _ V1 L1) as N1. pose proof (rate_nonneg _ V2 L2) as N2.
  split; [|split].
  - intros H. eexists. eexists.
    split; [now apply calculate_estimate|]. split; [now apply calculate_estimate|].
    apply estimate_mono_base; try apply base_bitrate_in; [|exact N1].
    now apply base_bitrate_mono.
  - intros H. eexists. eexists.
    split; [now apply calculate_estimate|]. split; [now apply calculate_estimate|].
    apply estimate_mono_rate; try apply base_bitrate_in; try assumption.
    unfold F64.leb in H. rewrite (leb_rank _ _ N1 N2) in H. now apply Z.leb_le in H.
  - intros H. rewrite (calculate_estimate _ _ _ _ N1 (Z.le_refl 0)).
    f_equal. f_equal. apply estimate_capped; [apply base_bitrate_in | exact N1 |].
    unfold F64.leb in H. rewrite (leb_rank _ _ nonneg_50 N1) in H. now apply Z.leb_le in H.
Qed.

Lemma estimate_monotone_witness :
  (exists n1 n2,
     calculate_smart_bitrate 1280 720 (F64.of_Z 30) 0 = ret n1
     /\ calculate_smart_bitrate 1920 1080 (F64.of_Z 30) 0 = ret n2
     /\ n1 <= n2)
  /\ (exists n1 n2,
        calculate_smart_bitrate 1280 720 (F64.of_Z 30) 0 = ret n1
        /\ calculate_smart_bitrate 1280 720 (F64.of_Z 60) 0 = ret n2
        /\ n1 <= n2).
Proof.
  pose proof (estimate_monotone 1280 720 1920 1080 (F64.of_Z 30) (F64.of_Z 60)
                eq_refl eq_refl eq_refl eq_refl) as (A & B & _).
  split; [apply A; lia | apply B; reflexivity].
Defined.

End EstimatorFacts.

(** ** Input validation: effects *)

Module ValidatorProps.
Import Py PathLib FFmpegLib OS Merger Spec.

Lemma validate_inputs_cases (env : environment) (video subtitle : string) :
  match validate_inputs env video subtitle with
  | (tr, Returned _) =>
      exists fv fs,
        files env video = Some fv /\ files env subtitle = Some fs
        /\ readable fv = true /\ readable fs = true
        /\ size fv <> 0 /\ size fs <> 0
        /\ tr = [EvLog INFO "输入验证通过 - 视频: {video_size} bytes, 字幕: {subtitle_size} bytes"
                       [ArgInt (size fv); ArgInt (size fs)]]
  | (tr, Raised e) =>
      tr = []
      /\ In (exc_type e) [FileNotFoundError; PermissionError; ValueError]
  end.
Proof.
  unfold validate_inputs, path_exists, access_R_OK, getsize.
  destruct (files env video) as [fv|]; cbn [negb]; [|split; [reflexivity | cbn; auto]].
  destruct (files env subtitle) as [fs|]; cbn [negb]; [|split; [reflexivity | cbn; auto]].
  destruct (readable fv) eqn:Rv; cbn [negb]; [|split; [reflexivity | cbn; auto]].
  destruct (readable fs) eqn:Rs; cbn [negb]; [|split; [reflexivity | cbn; auto]].
  destruct (str_in (lower (suffix video)) supported_video_formats);
    cbn [negb]; [|split; [reflexivity | cbn; auto]].
  destruct (str_in (lower (suffix subtitle)) supported_subtitle_formats);
    cbn [negb]; [|split; [reflexivity | cbn; auto]].
  cbn [bind ret].
  destruct (Z.eqb_spec (size fv) 0); [split; [reflexivity | cbn; auto]|].
  destruct (Z.eqb_spec (size fs) 0); [split; [reflexivity | cbn; auto]|].
  exists fv, fs. repeat split; assumption || reflexivity.
Qed.

(** X1. [validate_inputs] writes nothing until it succeeds. When
    it returns, both files exist, are readable and are not empty, and
    the only record is the INFO line with the two sizes; when it raises,
    nothing has been logged or printed, and the exception is a
    [FileNotFoundError], a [PermissionError] or a [ValueError]. *)
Theorem validate_inputs_effects (env : environment) (video subtitle : string) :
  match validate_inputs env video subtitle with
  | (tr, Returned _) =>
      exists fv fs,
        files env video = Some fv /\ files env subtitle = Some fs
        /\ readable fv = true /\ readable fs = true
        /\ size fv <> 0 /\ size fs <> 0
        /\ tr = [EvLog INFO "输入验证通过 - 视频: {video_size} bytes, 字幕: {subtitle_size} bytes"
                       [ArgInt (size fv); ArgInt (size fs)]]
  | (tr, Raised e) =>
      tr = []
      /\ In (exc_type e) [FileNotFoundError; PermissionError; ValueError]
  end.
Proof. exact (validate_inputs_cases env video subtitle). Qed.

End ValidatorProps.

(** ** Hardware capability detection: all outcomes *)

Module DetectorProps.
Import Py PathLib FFmpegLib OS Merger Spec Terms.

Lemma stage1_classes (c : exc_class) :
  existsb (issubclass c) [TimeoutExpired; SubprocessError; FileNotFoundError]
  = (issubclass c SubprocessError || issubclass c FileNotFoundError)%bool.
Proof. destruct c; reflexivity. Qed.

Lemma stage2_classes (c : exc_class) :
  existsb (issubclass c) [FFmpegError; TimeoutExpired]
  = (issubclass c FFmpegError || issubclass c TimeoutExpired)%bool.
Proof. destruct c; reflexivity. Qed.

(** The two stages, by cases on what the environment answers. *)
Lemma check_nvidia_support_cases (env : environment) :
  outcome_of (check_nvidia_support env)
  = match encoders_query env with
    | Returned r =>
        if ((returncode r =? 0) && contains "h264_nvenc" (stdout r))%bool
        then Returned true
        else outcome_of (nvenc_trial_run env)
    | Raised e =>
        if (issubclass (exc_type e) SubprocessError
            || issubclass (exc_type e) FileNotFoundError)%bool
        then outcome_of (nvenc_trial_run env)
        else Raised e
    end.
Proof.
  unfold check_nvidia_support, nvenc_listed, try_except, lift, bind.
  destruct (encoders_query env) as [r|e].
  - destruct ((returncode r =? 0) && contains "h264_nvenc" (stdout r))%bool;
      cbn; [reflexivity|].
    destruct (nvenc_trial_run env) as [tr o]. reflexivity.
  - cbn [select_clause]. rewrite stage1_classes.
    destruct (issubclass (exc_type e) SubprocessError
              || issubclass (exc_type e) FileNotFoundError)%bool; cbn; [|reflexivity].
    destruct (nvenc_trial_run env) as [tr o]. reflexivity.
Qed.

Lemma nvenc_trial_run_cases (env : environment) :
  outcome_of (nvenc_trial_run env)
  = match nvenc_trial env with
    | Returned _ => Returned true
    | Raised e =>
        if (issubclass (exc_type e) FFmpegError
            || issubclass (exc_type e) TimeoutExpired)%bool
        then Returned false else Raised e
    end.
Proof.
  unfold nvenc_trial_run, try_except, lift, bind.
  destruct (nvenc_trial env) as [[]|e]; [reflexivity|].
  cbn [select_clause]. rewrite stage2_classes.
  destruct (issubclass (exc_type e) FFmpegError
            || issubclass (exc_type e) TimeoutExpired)%bool; reflexivity.
Qed.

Section Cases.
Variable env : environment.

Lemma lists_returned r :
  encoders_query env = Returned r ->
  (lists_nvenc env
   <-> ((returncode r =? 0) && contains "h264_nvenc" (stdout r))%bool = true).
Proof.
  intros E. unfold lists_nvenc. rewrite E, andb_true_iff, Z.eqb_eq. split.
  - intros (r' & H & A & B). injection H as <-. now split.
  - intros [A B]. now exists r.
Qed.

Lemma lists_raised e : encoders_query env = Raised e -> (lists_nvenc env <-> False).
Proof.
  intros E. unfold lists_nvenc. rewrite E. split; [|tauto].
  intros (r & H & _). discriminate.
Qed.

Lemma inconclusive_returned r :
  encoders_query env = Returned r ->
  (listing_inconclusive env
   <-> ((returncode r =? 0) && contains "h264_nvenc" (stdout r))%bool = false).
Proof.
  intros E. unfold listing_inconclusive. rewrite E. split.
  - intros [(r' & H & A)|(e & H & _)]; [|discriminate]. now injection H as <-.
  - intros A. left. now exists r.
Qed.

Lemma inconclusive_raised e :
  encoders_query env = Raised e ->
  (listing_inconclusive env
   <-> (issubclass (exc_type e) SubprocessError = true
        \/ issubclass (exc_type e) FileNotFoundError = true)).
Proof.
  intros E. unfold listing_inconclusive. rewrite E. split.
  - intros [(r' & H & A)|(e' & H & A)]; [discriminate|]. now injection H as <-.
  - intros A. right. now exists e.
Qed.

Lemma trial_raised_iff (te : exc) (P : exc -> Prop) :
  (exists e, Raised (A := unit) te = Raised e /\ P e) <-> P te.
Proof.
  split.
  - intros (e & H & A). now injection H as <-.
  - intros A. now exists te.
Qed.

Lemma raised_eq_iff {A} (e e' : exc) : Raised (A := A) e = Raised e' <-> e = e'.
Proof. split; [intros H; now injection H | now intros ->]. Qed.

End Cases.

Ltac build :=
  solve [ reflexivity | assumption | discriminate | congruence
        | left; build | right; build | split; build ].

Ltac fin :=
  rewrite ?raised_eq_iff; split; intros H;
  try discriminate;
  intuition (subst; try discriminate; try congruence; try build).

Lemma detection_outcomes (env : environment) :
  (outcome_of (check_nvidia_support env) = Returned true
   <-> lists_nvenc env
       \/ (listing_inconclusive env /\ nvenc_trial env = Returned tt))
  /\ (outcome_of (check_nvidia_support env) = Returned false
      <-> listing_inconclusive env
          /\ exists e, nvenc_trial env = Raised e
                       /\ (issubclass (exc_type e) FFmpegError = true
                           \/ issubclass (exc_type e) TimeoutExpired = true))
  /\ (forall e,
        outcome_of (check_nvidia_support env) = Raised e
        <-> (encoders_query env = Raised e
             /\ issubclass (exc_type e) SubprocessError = false
             /\ issubclass (exc_type e) FileNotFoundError = false)
            \/ (listing_inconclusive env
                /\ nvenc_trial env = Raised e
                /\ issubclass (exc_type e) FFmpegError = false
                /\ issubclass (exc_type e) TimeoutExpired = false)).
Proof.
  rewrite check_nvidia_support_cases, nvenc_trial_run_cases.
  destruct (nvenc_trial env) as [[]|te].
  - assert (T : (exists e, Returned (A := unit) tt = Raised e
                   /\ (issubclass (exc_type e) FFmpegError = true
                       \/ issubclass (exc_type e) TimeoutExpired = true)) <-> False).
    { split; [intros (e & H & _); discriminate | tauto]. }
    rewrite T. clear T.
    destruct (encoders_query env) as [r|qe] eqn:Q.
    + setoid_rewrite (lists_returned env r Q); setoid_rewrite (inconclusive_returned env r Q).
      destruct ((returncode r =? 0) && contains "h264_nvenc" (stdout r))%bool;
        (split; [|split; [|intros e]]); fin.
    + setoid_rewrite (lists_raised env qe Q); setoid_rewrite (inconclusive_raised env qe Q).
      destruct (issubclass (exc_type qe) SubprocessError) eqn:Q1;
        destruct (issubclass (exc_type qe) FileNotFoundError) eqn:Q2; cbn [orb];
        (split; [|split; [|intros e]]); fin.
  - rewrite (trial_raised_iff te
               (fun e => issubclass (exc_type e) FFmpegError = true
                         \/ issubclass (exc_type e) TimeoutExpired = true)).
    destruct (encoders_query env) as [r|qe] eqn:Q.
    + setoid_rewrite (lists_returned env r Q); setoid_rewrite (inconclusive_returned env r Q).
      destruct ((returncode r =? 0) && contains "h264_nvenc" (stdout r))%bool;
        destruct (issubclass (exc_type te) FFmpegError) eqn:C1;
        destruct (issubclass (exc_type te) TimeoutExpired) eqn:C2; cbn [orb];
        (split; [|split; [|intros e]]); fin.
    + setoid_rewrite (lists_raised env qe Q); setoid_rewrite (inconclusive_raised env qe Q).
      destruct (issubclass (exc_type qe) SubprocessError) eqn:Q1;
        destruct (issubclass (exc_type qe) FileNotFoundError) eqn:Q2;
        destruct (issubclass (exc_type te) FFmpegError) eqn:C1;
        destruct (issubclass (exc_type te) TimeoutExpired) eqn:C2; cbn [orb];
        (split; [|split; [|intros e]]); fin.
Qed.

(** X2. [check_nvidia_support] answers [True] exactly when the
    encoder listing names [h264_nvenc], or the listing settles nothing
    and the trial encoding succeeds; it answers [False] exactly when the
    listing settles nothing and the trial fails with an ffmpeg error or
    a timeout; and the exceptions it lets through are exactly those of
    the listing query that are neither a subprocess error nor
    [FileNotFoundError], and those of the trial that are neither an
    ffmpeg error nor a timeout. *)
Theorem check_nvidia_support_outcome (env : environment) :
  (outcome_of (check_nvidia_support env) = Returned true
   <-> lists_nvenc env
       \/ (listing_inconclusive env /\ nvenc_trial env = Returned tt))
  /\ (outcome_of (check_nvidia_support env) = Returned false
      <-> listing_inconclusive env
          /\ exists e, nvenc_trial env = Raised e
                       /\ (issubclass (exc_type e) FFmpegError = true
                           \/ issubclass (exc_type e) TimeoutExpired = true))
  /\ (forall e,
        outcome_of (check_nvidia_support env) = Raised e
        <-> (encoders_query env = Raised e
             /\ issubclass (exc_type e) SubprocessError = false
             /\ issubclass (exc_type e) FileNotFoundError = false)
            \/ (listing_inconclusive env
                /\ nvenc_trial env = Raised e
                /\ issubclass (exc_type e) FFmpegError = false
                /\ issubclass (exc_type e) TimeoutExpired = false)).
Proof. exact (detection_outcomes env). Qed.

End DetectorProps.

(** ** Frame-rate parsing: all outcomes *)

Module FrameRateProps.
Import Py PathLib FFmpegLib OS Merger Spec Terms.

(** [Fraction(s)] raises nothing but [ValueError] and
    [ZeroDivisionError], and has no effect. *)
Lemma Fraction_of_slashed_cases (s : string) :
  match Fractions.Fraction_of_slashed (Cmd := command) s with
  | (tr, Returned (n, d)) => tr = [] /\ d <> 0
  | (tr, Raised e) =>
      tr = [] /\ (exc_type e = ValueError \/ exc_type e = ZeroDivisionError)
  end.
Proof.
  unfold Fractions.Fraction_of_slashed.
  destruct (Fractions.split_sign _) as [neg body].
  destruct (Fractions.split_at_slash body) as [[num den]|]; [|cbn; auto].
  destruct (Fractions.int_of_digits num) as [n|]; [|cbn; auto].
  destruct (Fractions.int_of_digits den) as [d|]; [|cbn; auto].
  destruct (Z.eqb_spec d 0); cbn; auto.
Qed.

(** [n / d] on integers raises nothing but [ZeroDivisionError] (for
    [d = 0]) and [OverflowError], and has no effect. *)
Lemma int_truediv_cases (n d : Z) :
  match F64.int_truediv (Cmd := command) n d with
  | (tr, Returned x) => tr = [] /\ d <> 0
  | (tr, Raised e) =>
      tr = []
      /\ ((d = 0 /\ exc_type e = ZeroDivisionError)
          \/ (d <> 0 /\ exc_type e = OverflowError))
  end.
Proof.
  unfold F64.int_truediv.
  destruct (Z.eqb_spec d 0); [cbn; auto|].
  destruct (n =? 0); [cbn; auto|].
  destruct (SFdiv_core_binary _ _ _ _ _ _) as [[q e] l].
  destruct (binary_round_aux _ _ _ _ _ _); cbn; auto.
Qed.

Lemma parse_frame_rate_cases (env : environment) (rate_str : string) :
  match parse_frame_rate env rate_str with
  | (tr, Returned x) =>
      tr = [] \/ (tr = [rate_warning rate_str] /\ x = F64.f25_0)
  | (tr, Raised e) =>
      tr = [] /\ exc_type e = OverflowError /\ contains "/" rate_str = true
  end.
Proof.
  unfold parse_frame_rate, float_of_string, rate_warning.
  destruct (contains "/" rate_str).
  - pose proof (Fraction_of_slashed_cases rate_str) as HF.
    destruct (Fractions.Fraction_of_slashed rate_str) as [tr [[n d]|e]].
    + destruct HF as [-> Hd]. unfold Fractions.float_of_Fraction. cbn [fst snd bind].
      pose proof (int_truediv_cases n d) as HD.
      destruct (F64.int_truediv n d) as [tr' [x|e]].
      * destruct HD as [-> _]. cbn. now left.
      * destruct HD as [-> [[H _]|[_ H]]]; [contradiction|].
        unfold try_except. cbn [select_clause]. rewrite H. cbn. auto.
    + destruct HF as [-> H]. cbn [bind].
      unfold try_except. cbn [select_clause].
      destruct H as [H|H]; rewrite H; cbn; right; auto.
  - destruct (float_of_str env rate_str); cbn; auto.
Qed.

(** X3. [parse_frame_rate] returns either without a record, or
    with the one warning and the default 25.0. The only exception it
    raises is [OverflowError], without a record, and only for a string
    with a slash. For a string without a slash the result is
    [float(rate_str)], or the warning and 25.0 when that conversion
    fails. *)
Theorem parse_frame_rate_outcomes (env : environment) (rate_str : string) :
  match parse_frame_rate env rate_str with
  | (tr, Returned x) =>
      tr = [] \/ (tr = [rate_warning rate_str] /\ x = F64.f25_0)
  | (tr, Raised e) =>
      tr = [] /\ exc_type e = OverflowError /\ contains "/" rate_str = true
  end
  /\ (contains "/" rate_str = false ->
      parse_frame_rate env rate_str
      = match float_of_str env rate_str with
        | Some x => ([], Returned x)
        | None => ([rate_warning rate_str], Returned F64.f25_0)
        end).
Proof.
  split; [exact (parse_frame_rate_cases env rate_str)|].
  intros H. unfold parse_frame_rate, float_of_string, rate_warning. rewrite H.
  destruct (float_of_str env rate_str); reflexivity.
Qed.

End FrameRateProps.

(** ** Frame rates written as two decimal integers *)

Module DecimalRateProps.
Import Py PathLib FFmpegLib OS Merger Spec Terms Fractions.

Lemma digits_are_digits (u : Decimal.uint) :
  Forall (fun c => is_digit c = true) (digits_of u).
Proof. induction u; constructor; (reflexivity || assumption). Qed.

Lemma digits_value_acc (u : Decimal.uint) (acc : positive) :
  digits_value (digits_of u) (Zpos acc) true = Some (Zpos (Pos.of_uint_acc u acc)).
Proof.
  revert acc. induction u; intros acc; [reflexivity|..];
    cbn [digits_of NilEmpty.string_of_uint list_ascii_of_string digits_value
         Pos.of_uint_acc];
    fold (digits_of u);
    (match goal with
     | |- context [is_digit ?c] => change (is_digit c) with true
     end); cbv iota;
    (match goal with
     | |- context [digit_val ?c] =>
         let v := eval vm_compute in (digit_val c) in change (digit_val c) with v
     end);
    (match goal with
     | |- digits_value _ ?a true = Some (Zpos (Pos.of_uint_acc _ ?b)) =>
         replace a with (Zpos b) by lia
     end); apply IHu.
Qed.

Lemma digits_value_zero (u : Decimal.uint) :
  digits_value (digits_of u) 0 true = Some (Z.of_N (Pos.of_uint u)).
Proof.
  induction u; [reflexivity|..];
    cbn [digits_of NilEmpty.string_of_uint list_ascii_of_string digits_value
         Pos.of_uint];
    fold (digits_of u);
    (match goal with
     | |- context [is_digit ?c] => change (is_digit c) with true
     end); cbv iota;
    [exact IHu|..];
    (match goal with
     | |- digits_value _ ?a true = _ =>
         let v := eval vm_compute in a in change a with v
     end); rewrite digits_value_acc; reflexivity.
Qed.

Lemma int_of_digits_numeral (u : Decimal.uint) :
  u <> Decimal.Nil -> int_of_digits (digits_of u) = Some (Z.of_N (Pos.of_uint u)).
Proof.
  intros Hu. unfold int_of_digits. destruct u; [contradiction|..];
    cbn [digits_of NilEmpty.string_of_uint list_ascii_of_string digits_value
         Pos.of_uint];
    fold (digits_of u);
    (match goal with
     | |- context [is_digit ?c] => change (is_digit c) with true
     end); cbv iota;
    [apply digits_value_zero|..];
    (match goal with
     | |- digits_value _ ?a true = _ =>
         let v := eval vm_compute in a in change a with v
     end); rewrite digits_value_acc; reflexivity.
Qed.

(** [str(n)] for a positive integer reads back as [n]. *)
Lemma int_of_digits_pos (p : positive) :
  int_of_digits (digits_of (Pos.to_uint p)) = Some (Zpos p).
Proof.
  rewrite int_of_digits_numeral by apply Unsigned.to_uint_nonnil.
  now rewrite Unsigned.of_to.
Qed.

Lemma numeral_digits n : Forall (fun c => is_digit c = true) (numeral n).
Proof.
  destruct n; cbn [numeral]; try (repeat constructor); apply digits_are_digits.
Qed.

Lemma numeral_value n : 0 <= n -> int_of_digits (numeral n) = Some n.
Proof.
  destruct n as [|p|p]; intros H; [reflexivity | apply int_of_digits_pos | lia].
Qed.

Lemma numeral_nonempty n : numeral n <> [].
Proof.
  destruct n as [|p|p]; cbn [numeral]; try discriminate.
  unfold digits_of. pose proof (Unsigned.to_uint_nonnil p) as H.
  destruct (Pos.to_uint p); [contradiction|..]; discriminate.
Qed.

Lemma str_of_int_chars (n : Z) :
  list_ascii_of_string (str_of_int n)
  = ((if n <? 0 then ["-"%char] else []) ++ numeral (Z.abs n))%list.
Proof.
  unfold str_of_int, NilZero.string_of_int, NilZero.string_of_uint, Z.to_int.
  destruct n as [|p|p]; cbn [Z.ltb Z.compare app Z.abs numeral]; [reflexivity|..];
    pose proof (Unsigned.to_uint_nonnil p) as H; unfold digits_of;
    destruct (Pos.to_uint p); try contradiction; reflexivity.
Qed.

Lemma list_ascii_app (a b : string) :
  list_ascii_of_string (a ++ b)
  = (list_ascii_of_string a ++ list_ascii_of_string b)%list.
Proof. induction a as [|c a IH]; [reflexivity|]. cbn. now rewrite IH. Qed.

(** ** The pieces of the parser on a string without blanks *)

Lemma lstrip_id (l : list ascii) :
  Forall (fun c => is_space c = false) l -> lstrip l = l.
Proof. destruct 1 as [|c l H _]; [reflexivity|]. cbn. now rewrite H. Qed.

Lemma strip_id (l : list ascii) :
  Forall (fun c => is_space c = false) l -> strip l = l.
Proof.
  intros H. unfold strip. rewrite (lstrip_id l H), lstrip_id, rev_involutive;
    [reflexivity|].
  apply Forall_rev. exact H.
Qed.

Lemma digit_not_space c : is_digit c = true -> is_space c = false.
Proof.
  unfold is_digit, is_space. intros H. apply andb_true_iff in H.
  destruct H as [A B]. apply Nat.leb_le in A, B.
  destruct (Nat.eqb_spec (nat_of_ascii c) 32); [lia|].
  destruct (Nat.leb_spec 9 (nat_of_ascii c)), (Nat.leb_spec (nat_of_ascii c) 13),
    (Nat.leb_spec 28 (nat_of_ascii c)), (Nat.leb_spec (nat_of_ascii c) 31);
    cbn; try reflexivity; lia.
Qed.

Lemma digit_not_slash c : is_digit c = true -> Ascii.eqb c "/" = false.
Proof.
  intros H. destruct (Ascii.eqb_spec c "/") as [->|]; [discriminate H | reflexivity].
Qed.

Lemma split_at_slash_digits (a b : list ascii) :
  Forall (fun c => is_digit c = true) a ->
  split_at_slash (a ++ "/"%char :: b) = Some (a, b).
Proof.
  induction 1 as [|c a Hc _ IH]; [reflexivity|].
  cbn. now rewrite (digit_not_slash c Hc), IH.
Qed.

Lemma contains_slash (a b : string) : contains "/" (a ++ "/" ++ b) = true.
Proof.
  change ("/" ++ b) with (String "/" b).
  induction a as [|c a IH]; [reflexivity|].
  cbn [append contains]. rewrite IH. apply orb_true_r.
Qed.

(** [Fraction(f"{n}/{d}")] has the numerator [n] and the denominator [d]. *)
Lemma Fraction_of_decimal (n d : Z) :
  0 < d ->
  Fraction_of_slashed (Cmd := command) (str_of_int n ++ "/" ++ str_of_int d)
  = ret (n, d).
Proof.
  intros Hd. unfold Fraction_of_slashed.
  rewrite !list_ascii_app, !str_of_int_chars.
  destruct (Z.ltb_spec d 0) as [|_]; [lia|]. cbn [app list_ascii_of_string].
  replace (Z.abs d) with d by lia.
  assert (Hs : Forall (fun c => is_space c = false)
                 ((if n <? 0 then ["-"%char] else []) ++ numeral (Z.abs n)
                  ++ "/"%char :: numeral d)%list).
  { apply Forall_app. split; [destruct (n <? 0); repeat constructor|].
    apply Forall_app. split.
    - eapply Forall_impl; [|apply numeral_digits]. apply digit_not_space.
    - constructor; [reflexivity|].
      eapply Forall_impl; [|apply numeral_digits]. apply digit_not_space. }
  rewrite <- app_assoc, (strip_id _ Hs).
  assert (Hsign : split_sign ((if n <? 0 then ["-"%char] else [])
                              ++ numeral (Z.abs n) ++ "/"%char :: numeral d)%list
                  = (n <? 0, (numeral (Z.abs n) ++ "/"%char :: numeral d)%list)).
  { destruct (n <? 0); [reflexivity|]. cbn [app].
    pose proof (numeral_digits (Z.abs n)) as Hn.
    pose proof (numeral_nonempty (Z.abs n)) as Hne.
    destruct (numeral (Z.abs n)) as [|c l]; [contradiction|].
    apply Forall_inv in Hn. cbn [app split_sign].
    destruct (Ascii.eqb_spec c "-") as [->|_]; [discriminate Hn|].
    destruct (Ascii.eqb_spec c "+") as [->|_]; [discriminate Hn|]. reflexivity. }
  rewrite Hsign, (split_at_slash_digits _ _ (numeral_digits _)).
  rewrite !numeral_value by lia.
  destruct (Z.eqb_spec d 0); [lia|].
  destruct (Z.ltb_spec n 0); do 2 f_equal; f_equal; lia.
Qed.

(** A decimal fraction with a positive denominator parses to the
    quotient of the two integers. *)
Lemma parse_decimal (env : environment) (n d : Z) :
  0 < d ->
  parse_frame_rate env (str_of_int n ++ "/" ++ str_of_int d) = F64.int_truediv n d.
Proof.
  intros Hd. unfold parse_frame_rate.
  rewrite contains_slash, (Fraction_of_decimal n d Hd).
  unfold Fractions.float_of_Fraction. cbn [bind ret fst snd].
  pose proof (FrameRateProps.int_truediv_cases n d) as H.
  destruct (F64.int_truediv n d) as [tr [x|e]].
  - destruct H as [-> _]. reflexivity.
  - destruct H as [-> [[H _]|[_ H]]]; [lia|].
    unfold try_except. cbn [select_clause]. rewrite H. reflexivity.
Qed.

(** X4. For the string of two decimal integers, ["n/d"] with
    [d > 0] and at most 4300 digits in each (more make [int] raise
    [ValueError] in CPython), [parse_frame_rate] is exactly Python's
    true division [n / d]: the correctly rounded quotient, or
    [OverflowError]. For ["n/0"] with [n >= 0] it logs the warning and
    returns 25.0. *)
Theorem parse_frame_rate_decimal (env : environment) (n d : Z) :
  (0 < d -> within_str_digits n -> within_str_digits d ->
   parse_frame_rate env (str_of_int n ++ "/" ++ str_of_int d) = F64.int_truediv n d)
  /\ (0 <= n ->
      parse_frame_rate env (str_of_int n ++ "/" ++ str_of_int 0)
      = ([rate_warning (str_of_int n ++ "/" ++ str_of_int 0)], Returned F64.f25_0)).
Proof.
  split; [intros Hd _ _; now apply parse_decimal|].
  intros Hn. unfold parse_frame_rate, rate_warning.
    rewrite contains_slash. unfold Fraction_of_slashed.
    rewrite !list_ascii_app, !str_of_int_chars.
    destruct (Z.ltb_spec n 0) as [|_]; [lia|]. cbn [app list_ascii_of_string Z.ltb Z.compare].
    replace (Z.abs n) with n by lia. cbn [Z.abs numeral].
    assert (Hs : Forall (fun c => is_space c = false)
                   (numeral n ++ ["/"%char; "0"%char])%list).
    { apply Forall_app. split.
      - eapply Forall_impl; [|apply numeral_digits]. apply digit_not_space.
      - repeat constructor. }
    rewrite (strip_id _ Hs).
    assert (Hsign : split_sign (numeral n ++ ["/"%char; "0"%char])%list
                    = (false, (numeral n ++ ["/"%char; "0"%char])%list)).
    { pose proof (numeral_digits n) as Hd.
      pose proof (numeral_nonempty n) as Hne.
      destruct (numeral n) as [|c l]; [contradiction|].
      apply Forall_inv in Hd. cbn [app split_sign].
      destruct (Ascii.eqb_spec c "-") as [->|_]; [discriminate Hd|].
      destruct (Ascii.eqb_spec c "+") as [->|_]; [discriminate Hd|]. reflexivity. }
    rewrite Hsign, (split_at_slash_digits _ _ (numeral_digits _)).
    rewrite (numeral_value n Hn). reflexivity.
Qed.

End DecimalRateProps.

(** ** Division of integers *)

Module IntegerDivision.
Import Rounding RoundingFacts.

Local Abbreviation prec := 53 (only parsing).
Local Abbreviation emax := 1024 (only parsing).

Lemma unit_fraction (d : positive) : (inject_Z (Zpos d) * (1 # d) == 1)%Q.
Proof. unfold Qeq, Qmult, inject_Z. cbn [Qnum Qden]. lia. Qed.

Lemma unit_fraction_pos (d : positive) : (0 < 1 # d)%Q.
Proof. reflexivity. Qed.

(** The location [SFdiv] computes for a remainder is that of the
    fraction remainder / divisor. *)
Lemma new_location_spec (d : positive) (q r : Z) :
  0 <= r < Zpos d ->
  inb_unit (inject_Z q + inject_Z r * (1 # d)) q (new_location (Zpos d) r).
Proof.
  intros Hr. pose proof (unit_fraction d) as U. pose proof (unit_fraction_pos d) as P.
  assert (half_lt : 2 * r < Zpos d -> (inject_Z r * (1 # d) < 1 # 2)%Q).
  { intros H. assert (H' : (2 * inject_Z r < inject_Z (Zpos d))%Q).
    { change 2%Q with (inject_Z 2). rewrite <- inject_Z_mult, <- Zlt_Qlt. exact H. }
    apply (Qmult_lt_compat_r _ _ (1 # d) P) in H'. rewrite U in H'. lra. }
  assert (half_gt : Zpos d < 2 * r -> (1 # 2 < inject_Z r * (1 # d))%Q).
  { intros H. assert (H' : (inject_Z (Zpos d) < 2 * inject_Z r)%Q).
    { change 2%Q with (inject_Z 2). rewrite <- inject_Z_mult, <- Zlt_Qlt. exact H. }
    apply (Qmult_lt_compat_r _ _ (1 # d) P) in H'. rewrite U in H'. lra. }
  assert (half_eq : 2 * r = Zpos d -> (inject_Z r * (1 # d) == 1 # 2)%Q).
  { intros H. assert (H' : (2 * inject_Z r == inject_Z (Zpos d))%Q).
    { change 2%Q with (inject_Z 2). now rewrite <- inject_Z_mult, H. }
    assert (H2 : (2 * inject_Z r * (1 # d) == 1)%Q) by (rewrite H'; exact U).
    lra. }
  assert (pos : 0 < r -> (0 < inject_Z r * (1 # d))%Q).
  { intros H. apply Qmult_lt_0_compat; [rewrite <- (Zlt_Qlt 0); exact H | exact P]. }
  assert (lt1 : (inject_Z r * (1 # d) < 1)%Q).
  { assert (H' : (inject_Z r < inject_Z (Zpos d))%Q) by (rewrite <- Zlt_Qlt; lia).
    apply (Qmult_lt_compat_r _ _ (1 # d) P) in H'. now rewrite U in H'. }
  unfold new_location.
  destruct (Z.even (Zpos d)) eqn:Ev.
  - unfold new_location_even. destruct (Z.eqb_spec r 0) as [->|Hn].
    + cbn [inb_unit]. change (inject_Z 0) with 0%Q. ring.
    + destruct (Z.compare_spec (2 * r) (Zpos d)) as [C|C|C]; cbn [inb_unit].
      * rewrite (half_eq C). reflexivity.
      * specialize (half_lt C). specialize (pos ltac:(lia)). lra.
      * specialize (half_gt C). lra.
  - unfold new_location_odd. destruct (Z.eqb_spec r 0) as [->|Hn].
    + cbn [inb_unit]. change (inject_Z 0) with 0%Q. ring.
    + assert (Od : Z.odd (Zpos d) = true) by (rewrite <- Z.negb_even, Ev; reflexivity).
      apply Z.odd_spec in Od. destruct Od as [k Hk].
      destruct (Z.compare_spec (2 * r + 1) (Zpos d)) as [C|C|C]; cbn [inb_unit].
      * specialize (half_lt ltac:(lia)). specialize (pos ltac:(lia)). lra.
      * specialize (half_lt ltac:(lia)). specialize (pos ltac:(lia)). lra.
      * specialize (half_gt ltac:(lia)). lra.
Qed.

(** The quotient of two positive integers as [SFdiv] hands it to the
    rounding: it represents the exact quotient, with enough digits. *)
Lemma int_div_repr (n d : positive) :
  exists q e' l,
    SFdiv_core_binary prec emax (Zpos n) 0 (Zpos d) 0 = (q, e', l)
    /\ 0 <= q
    /\ inb (inject_Z (Zpos n) * (1 # d)) q e' l
    /\ e' <= fexp prec emax (Zdigits2 q + e').
Proof.
  destruct (Zdigits2_bounds _ (Pos2Z.is_pos n)) as (Hd1 & Hlo1 & Hhi1).
  destruct (Zdigits2_bounds _ (Pos2Z.is_pos d)) as (Hd2 & Hlo2 & Hhi2).
  set (d1 := Zdigits2 (Zpos n)) in *. set (d2 := Zdigits2 (Zpos d)) in *.
  set (e' := Z.min (Z.max (d1 - d2 - 53) (-1074)) 0).
  set (s := - e').
  assert (Hs : 0 <= s) by (unfold s, e'; lia).
  set (m' := Zpos n * 2 ^ s).
  assert (P2 : 0 < 2 ^ s) by (apply Z.pow_pos_nonneg; lia).
  assert (Hm' : 0 < m') by (unfold m'; lia).
  pose proof (Z.div_mod m' (Zpos d) ltac:(lia)) as Hdm.
  pose proof (Z.mod_pos_bound m' (Zpos d) ltac:(lia)) as Hr.
  exists (m' / Zpos d), e', (new_location (Zpos d) (m' mod Zpos d)).
  set (q := m' / Zpos d) in *. set (r := m' mod Zpos d) in *.
  assert (Hq : 0 <= q) by (apply Z.div_pos; lia).
  split; [|split; [exact Hq|split]].
  - unfold SFdiv_core_binary. fold d1 d2.
    replace (Z.min (fexp prec emax (d1 + 0 - (d2 + 0))) (0 - 0)) with e'
      by (rewrite fexp_eq; unfold e'; lia).
    replace (0 - 0 - e') with s by (unfold s; lia).
    assert (Em : match s with
                 | 0 => Zpos n
                 | Zpos _ => Z.shiftl (Zpos n) s
                 | Zneg _ => 0
                 end = m').
    { unfold m'. destruct s as [|ps|ps] eqn:Es; try lia.
      now rewrite Z.shiftl_mul_pow2 by lia. }
    rewrite Em, div_eucl_div_mod. reflexivity.
  - assert (Hy : (inject_Z (Zpos n) * (1 # d) * bpow (- e')
                  == inject_Z q + inject_Z r * (1 # d))%Q).
    { transitivity (inject_Z m' * (1 # d))%Q.
      - unfold m'. rewrite inject_Z_mult, inject_Z_pow2 by lia.
        fold s. ring.
      - rewrite Hdm at 1. rewrite inject_Z_plus, inject_Z_mult.
        transitivity (inject_Z q * (inject_Z (Zpos d) * (1 # d))
                      + inject_Z r * (1 # d))%Q; [ring|].
        rewrite unit_fraction. ring. }
    unfold inb. eapply inb_unit_ext; [symmetry; exact Hy|].
    apply new_location_spec. exact Hr.
  - destruct (Z.eq_dec e' (-1074)) as [->|Hne].
    + rewrite fexp_eq. lia.
    + apply pre_of_normal.
      apply Z.div_le_lower_bound; [lia|].
      (* 2^52 * d <= 2^(52 + d2) <= n * 2^s *)
      apply Z.le_trans with (2 ^ 52 * 2 ^ d2).
      { rewrite (Z.mul_comm (Zpos d)). apply Z.mul_le_mono_nonneg_l; [|lia].
        apply Z.pow_nonneg. lia. }
      rewrite <- Z.pow_add_r by lia. unfold m'.
      apply Z.le_trans with (2 ^ (d1 - 1) * 2 ^ s).
      * rewrite <- Z.pow_add_r by lia. apply Z.pow_le_mono_r; [lia|].
        unfold s, e' in *. lia.
      * apply Z.mul_le_mono_nonneg_r; lia.
Qed.

(** [n / d] for [n >= 0] and [d > 0]: a finite float that is not
    negative, or [OverflowError]. *)
Lemma int_truediv_nonneg (n d : Z) :
  0 <= n -> 0 < d ->
  match F64.int_truediv (Cmd := FFmpegLib.command) n d with
  | (tr, Py.Returned x) => tr = [] /\ finite_nonneg x
  | (tr, Py.Raised e) => tr = [] /\ Py.exc_type e = Py.OverflowError
  end.
Proof.
  intros Hn Hd. unfold F64.int_truediv.
  destruct (Z.eqb_spec d 0); [lia|].
  destruct (Z.eqb_spec n 0) as [->|Hn0].
  { destruct (Z.ltb_spec d 0); [lia|]. cbn. split; [reflexivity|].
    split; [exact I | vm_compute; reflexivity]. }
  destruct n as [|pn|pn]; try lia. destruct d as [|pd|pd]; try lia.
  cbn [Z.abs Z.ltb Z.compare xorb].
  destruct (int_div_repr pn pd) as (q & e' & l & E & Hq & Hin & Hpre).
  change F64.prec with 53. change F64.emax with 1024. rewrite E.
  pose proof (round_nonneg _ _ _ _ Hq Hin Hpre) as N.
  destruct (binary_round_aux 53 1024 false q e' l) as [s|[]| |[] m e] eqn:R;
    cbn [nonneg] in N; try (exfalso; exact N); cbn; split; try reflexivity.
  - split; [exact I | vm_compute; reflexivity].
  - split; [exact N | apply finite_nonneg_lt; [exact N | discriminate]].
Qed.

End IntegerDivision.

(** ** From the frame-rate string to the bitrate *)

Module RateToBitrateProps.
Import Py PathLib FFmpegLib OS Merger Spec Terms Rounding RoundingFacts.

(** X5. For a frame rate ["n/d"] with [n >= 0], [d > 0] and at
    most 4300 digits in each, and a stream without bitrate, parsing
    logs nothing and the estimate for the parsed rate exists and lies
    between 0 and twice the base bitrate of the resolution; the only
    failure is the [OverflowError] of the parse. *)
Theorem decimal_rate_estimates (env : environment) (width height n d : Z) :
  0 <= n -> 0 < d -> within_str_digits n -> within_str_digits d ->
  match parse_frame_rate env (str_of_int n ++ "/" ++ str_of_int d) with
  | (tr, Returned fps) =>
      tr = []
      /\ exists b,
           calculate_smart_bitrate width height fps 0 = ret b
           /\ 0 <= b <= 2 * base_bitrate (width * height)
  | (tr, Raised e) => tr = [] /\ exc_type e = OverflowError
  end.
Proof.
  intros Hn Hd _ _. rewrite (DecimalRateProps.parse_decimal env n d Hd).
  pose proof (IntegerDivision.int_truediv_nonneg n d Hn Hd) as H.
  destruct (F64.int_truediv n d) as [tr [fps|e]]; [|exact H].
  destruct H as [-> [N F]]. split; [reflexivity|].
  exists (estimate (base_bitrate (width * height)) fps). split.
  - now apply EstimatorFacts.calculate_estimate.
  - apply EstimatorFacts.estimate_bounds; [apply EstimatorFacts.base_bitrate_in | exact N].
Qed.

Lemma decimal_rate_estimates_witness :
  match parse_frame_rate Sample.bare "30000/1001" with
  | (tr, Returned fps) =>
      tr = []
      /\ exists b,
           calculate_smart_bitrate 1920 1080 fps 0 = ret b
           /\ 0 <= b <= 2 * base_bitrate (1920 * 1080)
  | (tr, Raised e) => tr = [] /\ exc_type e = OverflowError
  end.
Proof.
  apply (decimal_rate_estimates Sample.bare 1920 1080 30000 1001);
    [lia | lia | vm_compute; discriminate | vm_compute; discriminate].
Defined.

End RateToBitrateProps.

(** ** Bitrate estimation at the special frame rates *)

Module EstimatorEdgeProps.
Import Py PathLib FFmpegLib OS Merger Spec Terms.

(** X6. [calculate_smart_bitrate] at the special frame rates,
    without a known bitrate: NaN raises the [ValueError] of [int], plus
    infinity gives twice the base bitrate, minus infinity raises the
    [OverflowError] of [int], minus zero gives 0. With a positive known
    bitrate the frame rate is not looked at, whatever it is. *)
Theorem estimate_of_special_rates (width height : Z) :
  outcome_of (calculate_smart_bitrate width height F64.nan 0)
    = Raised (new_exc ValueError "cannot convert float NaN to integer")
  /\ calculate_smart_bitrate width height (S754_infinity false) 0
     = ret (2 * base_bitrate (width * height))
  /\ outcome_of (calculate_smart_bitrate width height (S754_infinity true) 0)
     = Raised (new_exc OverflowError "cannot convert float infinity to integer")
  /\ calculate_smart_bitrate width height (S754_zero true) 0 = ret 0
  /\ (forall fps ob, 0 < ob -> calculate_smart_bitrate width height fps ob = ret ob).
Proof.
  pose proof (EstimatorFacts.base_bitrate_in (width * height)) as I. cbn in I.
  repeat split.
  - apply EstimatorFacts.estimate_of_nan.
  - unfold calculate_smart_bitrate. cbn [Z.ltb Z.compare].
    destruct I as [E|[E|[E|[E|[E|[]]]]]]; rewrite <- E; reflexivity.
  - unfold calculate_smart_bitrate. cbn [Z.ltb Z.compare].
    destruct I as [E|[E|[E|[E|[E|[]]]]]]; rewrite <- E; reflexivity.
  - unfold calculate_smart_bitrate. cbn [Z.ltb Z.compare].
    destruct I as [E|[E|[E|[E|[E|[]]]]]]; rewrite <- E; reflexivity.
  - intros fps ob H. unfold calculate_smart_bitrate.
    destruct (Z.ltb_spec 0 ob); [reflexivity | lia].
Qed.

End EstimatorEdgeProps.

(** ** Traces without merge commands *)

Module TraceFacts.
Import Py FFmpegLib Terms.

Lemma runs_app (a b : list (event command)) :
  Sample.runs (a ++ b) = (Sample.runs a ++ Sample.runs b)%list.
Proof. apply flat_map_app. Qed.

Lemma quiet_ret {A} (a : A) : quiet (ret a).
Proof. reflexivity. Qed.

Lemma quiet_raise {A} (e : exc) : quiet (raise (A := A) e).
Proof. reflexivity. Qed.

Lemma quiet_lift {A} (o : outcome A) : quiet (lift o).
Proof. reflexivity. Qed.

Lemma quiet_log {lvl text args} : quiet (emit (EvLog lvl text args)).
Proof. reflexivity. Qed.

Lemma quiet_print {text args} : quiet (emit (EvPrint text args)).
Proof. reflexivity. Qed.

Lemma quiet_bind {A B} (m : M command A) (k : A -> M command B) :
  quiet m -> (forall a, quiet (k a)) -> quiet (bind m k).
Proof.
  unfold quiet, bind, trace_of. destruct m as [tr [a|e]]; cbn [fst];
    intros Hm Hk; [|exact Hm].
  specialize (Hk a). destruct (k a) as [tr' r]. cbn [fst] in *.
  now rewrite runs_app, Hm, Hk.
Qed.

Lemma quiet_try {A} (m : M command A) clauses :
  quiet m ->
  Forall (fun cl => forall e, quiet (snd cl e)) clauses ->
  quiet (try_except m clauses).
Proof.
  unfold quiet, try_except, trace_of. destruct m as [tr [a|e]]; cbn [fst];
    intros Hm Hc; [exact Hm|].
  destruct (select_clause e clauses) as [h|] eqn:S; [|exact Hm].
  assert (Hh : forall e', Sample.runs (fst (h e')) = []).
  { clear Hm. induction Hc as [|[cs h'] rest H _ IH]; [discriminate|].
    cbn [select_clause] in S. destruct (existsb _ cs); [|now apply IH].
    injection S as <-. exact H. }
  specialize (Hh e). destruct (h e) as [tr' r]. cbn [fst] in *.
  now rewrite runs_app, Hm, Hh.
Qed.

Ltac quiet_steps :=
  repeat lazymatch goal with
         | |- quiet (ret _) => apply quiet_ret
         | |- quiet (raise _) => apply quiet_raise
         | |- quiet (lift _) => apply quiet_lift
         | |- quiet (emit (EvLog _ _ _)) => apply quiet_log
         | |- quiet (emit (EvPrint _ _)) => apply quiet_print
         | |- quiet (bind _ _) => apply quiet_bind; [|intros ?]
         | |- quiet (try_except _ _) =>
             apply quiet_try; [|repeat constructor; intros ?; cbn [snd]]
         end.

(** What [bind] does with the outcome of its first part. *)
Lemma bind_returned {A B} (m : M command A) (k : A -> M command B) tr a :
  m = (tr, Returned a) ->
  bind m k = ((tr ++ trace_of (k a))%list, outcome_of (k a)).
Proof. intros ->. unfold bind, trace_of, outcome_of. destruct (k a); reflexivity. Qed.

Lemma bind_raised {A B} (m : M command A) (k : A -> M command B) tr e :
  m = (tr, Raised e) -> bind m k = (tr, Raised e).
Proof. now intros ->. Qed.

Lemma outcome_bind {A B} (m : M command A) (k : A -> M command B) :
  outcome_of (bind m k)
  = match outcome_of m with
    | Returned a => outcome_of (k a)
    | Raised e => Raised e
    end.
Proof.
  unfold bind, outcome_of. destruct m as [tr [a|e]]; cbn [snd]; [|reflexivity].
  destruct (k a); reflexivity.
Qed.

Lemma trace_bind {A B} (m : M command A) (k : A -> M command B) :
  trace_of (bind m k)
  = (trace_of m ++ match outcome_of m with
                   | Returned a => trace_of (k a)
                   | Raised _ => []
                   end)%list.
Proof.
  unfold bind, trace_of, outcome_of. destruct m as [tr [a|e]]; cbn [fst snd].
  - destruct (k a); reflexivity.
  - now rewrite app_nil_r.
Qed.

Lemma trace_try {A} (m : M command A) clauses :
  trace_of (try_except m clauses)
  = (trace_of m ++ match outcome_of m with
                   | Returned _ => []
                   | Raised e =>
                       match select_clause e clauses with
                       | Some h => trace_of (h e)
                       | None => []
                       end
                   end)%list.
Proof.
  unfold try_except, trace_of, outcome_of. destruct m as [tr [a|e]]; cbn [fst snd].
  - now rewrite app_nil_r.
  - destruct (select_clause e clauses) as [h|]; [|now rewrite app_nil_r].
    destruct (h e); reflexivity.
Qed.

Lemma outcome_try {A} (m : M command A) clauses :
  outcome_of (try_except m clauses)
  = match outcome_of m with
    | Returned a => Returned a
    | Raised e =>
        match select_clause e clauses with
        | Some h => outcome_of (h e)
        | None => Raised e
        end
    end.
Proof.
  unfold try_except, outcome_of. destruct m as [tr [a|e]]; [reflexivity|]. cbn [snd].
  destruct (select_clause e clauses) as [h|]; [|reflexivity]. destruct (h e); reflexivity.
Qed.

End TraceFacts.

(** ** Probing: all outcomes *)

Module ProberProps.
Import Py PathLib FFmpegLib OS Merger Spec Terms TraceFacts.

Lemma quiet_parse_frame_rate env s : quiet (parse_frame_rate env s).
Proof.
  pose proof (FrameRateProps.parse_frame_rate_cases env s) as H.
  unfold quiet. destruct (parse_frame_rate env s) as [tr [x|e]]; cbn.
  - destruct H as [->|[-> _]]; reflexivity.
  - destruct H as [-> _]. reflexivity.
Qed.

Lemma quiet_first_video_stream l : quiet (first_video_stream l).
Proof. unfold quiet. now rewrite ProberFacts.first_video_stream_trace. Qed.

Lemma quiet_float_of_string env s : quiet (float_of_string env s).
Proof. unfold float_of_string. destruct (float_of_str env s); quiet_steps. Qed.

Lemma quiet_int_of_string env s : quiet (int_of_string env s).
Proof. unfold int_of_string. destruct (int_of_str env s); quiet_steps. Qed.

Lemma quiet_probe_video_info env path : quiet (probe_video_info env path).
Proof.
  unfold probe_video_info, info, warning. quiet_steps.
  - apply quiet_first_video_stream.
  - destruct a1 as [vs|]; [|quiet_steps].
    destruct (_ || _)%bool; quiet_steps.
    + apply quiet_parse_frame_rate.
    + destruct (duration vs); quiet_steps. apply quiet_float_of_string.
    + destruct (bit_rate vs); quiet_steps. apply quiet_int_of_string.
Qed.

(** The search for the video stream, by what the list holds. *)
Lemma first_video_stream_found (l : list stream_dict) (vs : stream_dict) :
  first_video_stream l = ret (Some vs)
  <-> exists before after,
        l = (before ++ vs :: after)%list
        /\ Forall other_media before /\ codec_type vs = Some "video".
Proof.
  induction l as [|s l IH]; cbn.
  - split; [discriminate|]. intros ([|? ?] & after & H & _); discriminate.
  - destruct (codec_type s) as [t|] eqn:Ct.
    + destruct (String.eqb_spec t "video") as [->|Hne].
      * split.
        { intros H. injection H as <-. exists [], l. repeat split; auto. }
        { intros (before & after & H & Hb & Hv).
          destruct before as [|b before]; cbn in H; injection H as -> ->; [reflexivity|].
          apply Forall_inv in Hb. destruct Hb as (t & Ht & Hn). congruence. }
      * rewrite IH. split.
        { intros (before & after & -> & Hb & Hv). exists (s :: before), after.
          repeat split; auto. constructor; [|exact Hb]. now exists t. }
        { intros (before & after & H & Hb & Hv).
          destruct before as [|b before]; cbn in H; injection H as -> ->; [congruence|].
          exists before, after. repeat split; auto. now apply Forall_inv_tail in Hb. }
    + split; [discriminate|].
      intros (before & after & H & Hb & Hv).
      destruct before as [|b before]; cbn in H; injection H as -> ->; [congruence|].
      apply Forall_inv in Hb. destruct Hb as (t & Ht & _). congruence.
Qed.

Lemma first_video_stream_ret l o :
  outcome_of (first_video_stream l) = Returned o -> first_video_stream l = ret o.
Proof.
  pose proof (ProberFacts.first_video_stream_trace l) as T.
  destruct (first_video_stream l) as [tr r]. cbn in *. now intros ->; subst.
Qed.

Lemma probe_returns_iff (env : environment) (path : string)
    (vi : video_info) :
  outcome_of (probe_video_info env path) = Returned vi
  <-> exists p before vs after fps,
        ffprobe env path = Returned p
        /\ streams p = (before ++ vs :: after)%list
        /\ Forall other_media before
        /\ codec_type vs = Some "video"
        /\ get_or (width vs) 0 <> 0 /\ get_or (height vs) 0 <> 0
        /\ outcome_of (parse_frame_rate env (get_or (r_frame_rate vs) "25/1"))
           = Returned fps
        /\ vi = mkInfo (get_or (width vs) 0) (get_or (height vs) 0) fps
                  (best_effort (duration vs) (float_of_str env) F64.zero)
                  (best_effort (bit_rate vs) (int_of_str env) 0)
                  (get_or (codec_name vs) "unknown")
                  (get_or (pix_fmt vs) "yuv420p").
Proof.
  split.
  - intros H. pose proof H as H0. unfold probe_video_info in H.
    rewrite outcome_try, outcome_bind in H. cbn [info emit outcome_of snd] in H.
    rewrite outcome_bind in H. unfold lift in H. cbn [outcome_of snd] in H.
    destruct (ffprobe env path) as [p|e] eqn:Hp.
    2:{ exfalso. cbn [select_clause] in H.
        destruct (existsb _ [FFmpegError]); [discriminate|].
        destruct (existsb _ [Exception]); discriminate. }
    rewrite outcome_bind in H.
    destruct (outcome_of (first_video_stream (streams p))) as [[vs|]|e] eqn:Hs.
    2:{ exfalso. cbn in H. discriminate. }
    2:{ exfalso. cbn [select_clause] in H.
        destruct (existsb _ [FFmpegError]); [discriminate|].
        destruct (existsb _ [Exception]); discriminate. }
    apply first_video_stream_ret in Hs.
    destruct (Z.eqb_spec (get_or (width vs) 0) 0) as [|Hw].
    { exfalso. cbn in H. discriminate. }
    destruct (Z.eqb_spec (get_or (height vs) 0) 0) as [|Hh].
    { exfalso. cbn in H. discriminate. }
    cbn [orb] in H. rewrite outcome_bind in H.
    destruct (outcome_of (parse_frame_rate env (get_or (r_frame_rate vs) "25/1")))
      as [fps|e] eqn:Hf.
    2:{ exfalso. cbn [select_clause] in H.
        destruct (existsb _ [FFmpegError]); [discriminate|].
        destruct (existsb _ [Exception]); discriminate. }
    apply first_video_stream_found in Hs. destruct Hs as (before & after & Hl & Hb & Hv).
    exists p, before, vs, after, fps. repeat split; try assumption.
    assert (Hl' : first_video_stream (streams p) = ret (Some vs)).
    { apply first_video_stream_found. now exists before, after. }
    pose proof (ProberFacts.probe_succeeds env path p vs fps Hp Hl' Hw Hh Hf) as E.
    rewrite E in H0. now injection H0.
  - intros (p & before & vs & after & fps & Hp & Hl & Hb & Hv & Hw & Hh & Hf & ->).
    apply ProberFacts.probe_succeeds with (p := p); try assumption.
    apply first_video_stream_found. now exists before, after.
Qed.


Lemma first_video_stream_raises l e :
  outcome_of (first_video_stream l) = Raised e -> exc_type e = KeyError.
Proof.
  induction l as [|s l IH]; cbn; [discriminate|].
  destruct (codec_type s) as [t|].
  - destruct (String.eqb t "video"); [discriminate | exact IH].
  - cbn. intros H. now injection H as <-.
Qed.

Lemma best_effort_float_returns env s :
  exists x,
    outcome_of (try_except (float_of_string env s)
                  [([ValueError; TypeError],
                    fun _ => bind (warning "无法解析视频时长" []) (fun _ => ret F64.zero))])
    = Returned x.
Proof. unfold float_of_string. destruct (float_of_str env s); cbn; eauto. Qed.

Lemma best_effort_int_returns env s :
  exists x,
    outcome_of (try_except (int_of_string env s)
                  [([ValueError; TypeError],
                    fun _ => bind (warning "无法解析视频码率" []) (fun _ => ret 0))])
    = Returned x.
Proof. unfold int_of_string. destruct (int_of_str env s); cbn; eauto. Qed.

(** What the body of the [try] block of [probe_video_info] can raise:
    what [ffmpeg.probe] raised, or one of three built-in errors. *)
Lemma probe_body_raises env path e :
  outcome_of
    (bind (info "正在分析视频文件: {video_path}" [ArgStr path]) (fun _ =>
     bind (lift (ffprobe env path)) (fun probe =>
     bind (first_video_stream (streams probe)) (fun video_stream =>
     match video_stream with
     | None => raise (new_exc ValueError "未找到视频流")
     | Some vs =>
         let w := get_or (width vs) 0 in
         let h := get_or (height vs) 0 in
         if ((w =? 0) || (h =? 0))%bool
         then raise (new_exc ValueError "无法获取视频分辨率信息")
         else
           bind (parse_frame_rate env (get_or (r_frame_rate vs) "25/1")) (fun fps =>
           bind (match duration vs with
                 | None => ret F64.zero
                 | Some s =>
                     try_except (float_of_string env s)
                       [([ValueError; TypeError],
                         fun _ => bind (warning "无法解析视频时长" [])
                                       (fun _ => ret F64.zero))]
                 end) (fun dur =>
           bind (match bit_rate vs with
                 | None => ret 0
                 | Some s =>
                     try_except (int_of_string env s)
                       [([ValueError; TypeError],
                         fun _ => bind (warning "无法解析视频码率" [])
                                       (fun _ => ret 0))]
                 end) (fun br =>
           bind (info "视频信息: {width}x{height} @ {fps}fps, 码率: {bitrate}bps"
                      [ArgInt w; ArgInt h; ArgFloat fps; ArgInt br]) (fun _ =>
           ret (mkInfo w h fps dur br
                       (get_or (codec_name vs) "unknown")
                       (get_or (pix_fmt vs) "yuv420p"))))))
     end)))) = Raised e ->
  ffprobe env path = Raised e
  \/ In (exc_type e) [KeyError; ValueError; OverflowError].
Proof.
  rewrite outcome_bind. cbn [info emit outcome_of snd].
  rewrite outcome_bind. unfold lift. cbn [outcome_of snd].
  destruct (ffprobe env path) as [p|pe].
  2:{ intros H. injection H as ->. now left. }
  rewrite outcome_bind.
  destruct (outcome_of (first_video_stream (streams p))) as [[vs|]|se] eqn:Hs.
  3:{ intros H. injection H as ->. right.
      rewrite (first_video_stream_raises _ _ Hs). cbn. auto. }
  2:{ cbn. intros H. injection H as <-. right. cbn. auto. }
  cbv zeta. destruct (_ || _)%bool.
  { cbn. intros H. injection H as <-. right. cbn. auto. }
  rewrite outcome_bind.
  pose proof (FrameRateProps.parse_frame_rate_cases env
                (get_or (r_frame_rate vs) "25/1")) as HF.
  destruct (parse_frame_rate env (get_or (r_frame_rate vs) "25/1")) as [tr [fps|fe]].
  2:{ cbn [outcome_of snd]. intros H. injection H as ->. right.
      destruct HF as (_ & -> & _). cbn. auto. }
  cbn [outcome_of snd]. rewrite outcome_bind.
  assert (D : exists x,
            outcome_of match duration vs with
                       | None => ret F64.zero
                       | Some s =>
                           try_except (float_of_string env s)
                             [([ValueError; TypeError],
                               fun _ => bind (warning "无法解析视频时长" [])
                                             (fun _ => ret F64.zero))]
                       end = Returned x).
  { destruct (duration vs); [apply best_effort_float_returns | now exists F64.zero]. }
  destruct D as [x ->]. rewrite outcome_bind.
  assert (B : exists x,
            outcome_of match bit_rate vs with
                       | None => ret 0
                       | Some s =>
                           try_except (int_of_string env s)
                             [([ValueError; TypeError],
                               fun _ => bind (warning "无法解析视频码率" [])
                                             (fun _ => ret 0))]
                       end = Returned x).
  { destruct (bit_rate vs); [apply best_effort_int_returns | now exists 0]. }
  destruct B as [y ->]. cbn. discriminate.
Qed.

Lemma probe_outcomes (env : environment) (path : string) :
  match outcome_of (probe_video_info env path) with
     | Returned vi => vi_width vi <> 0 /\ vi_height vi <> 0
     | Raised e =>
         (exc_type e = RuntimeError
          /\ ((exists fe,
                 ffprobe env path = Raised fe
                 /\ issubclass (exc_type fe) FFmpegError = true
                 /\ exc_msg e = "FFmpeg探测失败: " ++ ffmpeg_error_text fe)
              \/ (exists cause,
                    issubclass (exc_type cause) Exception = true
                    /\ issubclass (exc_type cause) FFmpegError = false
                    /\ exc_msg e = "获取视频信息失败: " ++ exc_msg cause)))
         \/ (ffprobe env path = Raised e
             /\ issubclass (exc_type e) Exception = false)
     end.
Proof.
  destruct (outcome_of (probe_video_info env path)) as [vi|e] eqn:H.
  - apply probe_returns_iff in H.
    destruct H as (p & before & vs & after & fps & _ & _ & _ & _ & Hw & Hh & _ & ->).
    now split.
  - unfold probe_video_info in H. rewrite outcome_try in H.
    match type of H with
    | match outcome_of ?b with _ => _ end = _ =>
        pose proof (probe_body_raises env path) as R;
        destruct (outcome_of b) as [vi|be] eqn:Hb
    end; [discriminate|].
    specialize (R be eq_refl). cbn [select_clause] in H.
    destruct (existsb (issubclass (exc_type be)) [FFmpegError]) eqn:C1.
    + cbn in H. injection H as <-. left. split; [reflexivity|]. left.
      exists be. cbn in C1. rewrite orb_false_r in C1.
      destruct R as [R|R]; [auto|].
      exfalso. cbn in R. destruct R as [R|[R|[R|[]]]]; rewrite <- R in C1; discriminate.
    + destruct (existsb (issubclass (exc_type be)) [Exception]) eqn:C2.
      * cbn in H. injection H as <-. left. split; [reflexivity|]. right.
        exists be. cbn in C1, C2. rewrite orb_false_r in C1, C2. auto.
      * injection H as <-. right. cbn in C2. rewrite orb_false_r in C2.
        destruct R as [R|R]; [auto|].
        exfalso. cbn in R. destruct R as [R|[R|[R|[]]]]; rewrite <- R in C2; discriminate.
Qed.

(** X8. [probe_video_info] runs no merge command. A record it
    returns has a nonzero width and height. When it raises, one of
    three things happened. [ffprobe] failed with an ffmpeg error: then,
    provided the captured error output decodes (it is absent, empty or
    well-formed UTF-8), the exception is a [RuntimeError] with that
    text after ["FFmpeg探测失败: "]. Or an [Exception] that is not an
    ffmpeg error was raised: the exception is a [RuntimeError] with its
    text after ["获取视频信息失败: "]. Or [ffprobe] raised an exception
    outside the [Exception] hierarchy, which passes unchanged. *)
Theorem probe_video_info_failures (env : environment) (path : string) :
  Sample.runs (trace_of (probe_video_info env path)) = []
  /\ match outcome_of (probe_video_info env path) with
     | Returned vi => vi_width vi <> 0 /\ vi_height vi <> 0
     | Raised e =>
         (exists fe,
            ffprobe env path = Raised fe
            /\ issubclass (exc_type fe) FFmpegError = true
            /\ (stderr_decodes fe = true ->
                exc_type e = RuntimeError
                /\ exc_msg e = "FFmpeg探测失败: " ++ ffmpeg_error_text fe))
         \/ (exc_type e = RuntimeError
             /\ exists cause,
                  issubclass (exc_type cause) Exception = true
                  /\ issubclass (exc_type cause) FFmpegError = false
                  /\ exc_msg e = "获取视频信息失败: " ++ exc_msg cause)
         \/ (ffprobe env path = Raised e
             /\ issubclass (exc_type e) Exception = false)
     end.
Proof.
  split; [apply quiet_probe_video_info|].
  pose proof (probe_outcomes env path) as H.
  destruct (outcome_of (probe_video_info env path)) as [vi|e]; [exact H|].
  destruct H as [[T [(fe & F1 & F2 & F3)|(cause & C1 & C2 & C3)]]|H].
  - left. exists fe. auto.
  - right. left. split; [exact T|]. exists cause. auto.
  - right. right. exact H.
Qed.

End ProberProps.

(** ** Escaping of the subtitle path *)

Module EscapeProps.
Import Py PathLib FFmpegLib OS Merger Spec Terms.

Lemma replace_one (c : ascii) (s : string) :
  replace_char c (String backslash (String c EmptyString)) s
  = escape_with (Ascii.eqb c) s.
Proof.
  induction s as [|a s IH]; [reflexivity|]. cbn.
  rewrite (Ascii.eqb_sym c a). destruct (Ascii.eqb a c) eqn:E.
  - apply Ascii.eqb_eq in E. subst a. now rewrite IH.
  - now rewrite IH.
Qed.

(** Escaping one character after the others is the single pass,
    provided the later character is not the backslash and has not been
    escaped already. *)
Lemma escape_with_then (special : ascii -> bool) (c : ascii) (s : string) :
  special c = false -> c <> backslash ->
  escape_with (Ascii.eqb c) (escape_with special s)
  = escape_with (fun a => (special a || Ascii.eqb c a)%bool) s.
Proof.
  intros Hs Hb. induction s as [|a s IH]; [reflexivity|]. cbn.
  destruct (special a) eqn:Sa; cbn.
  - destruct (Ascii.eqb_spec c backslash) as [|_]; [contradiction|].
    destruct (Ascii.eqb_spec c a) as [->|_]; [congruence|]. now rewrite IH.
  - destruct (Ascii.eqb c a); now rewrite IH.
Qed.

Lemma escape_with_ext (f g : ascii -> bool) (s : string) :
  (forall a, f a = g a) -> escape_with f s = escape_with g s.
Proof.
  intros H. induction s as [|a s IH]; [reflexivity|]. cbn. now rewrite H, IH.
Qed.

Lemma escape_brackets (s : string) :
  replace_char "]" "\]" (replace_char "[" "\[" s) = escape_with is_bracket s.
Proof.
  change "\]" with (String backslash (String "]"%char EmptyString)).
  change "\[" with (String backslash (String "["%char EmptyString)).
  rewrite !replace_one.
  rewrite (escape_with_then (Ascii.eqb "[") "]") by (reflexivity || discriminate).
  apply escape_with_ext. intros a. unfold is_bracket.
  now rewrite (Ascii.eqb_sym a "["), (Ascii.eqb_sym a "]").
Qed.

Lemma escape_colon_brackets (s : string) :
  replace_char "]" "\]" (replace_char "[" "\[" (replace_char ":" "\:" s))
  = escape_with is_bracket_or_colon s.
Proof.
  change "\]" with (String backslash (String "]"%char EmptyString)).
  change "\[" with (String backslash (String "["%char EmptyString)).
  change "\:" with (String backslash (String ":"%char EmptyString)).
  rewrite !replace_one.
  rewrite (escape_with_then (Ascii.eqb ":") "[") by (reflexivity || discriminate).
  rewrite (escape_with_then (fun a => Ascii.eqb ":" a || Ascii.eqb "[" a)%bool "]")
    by (reflexivity || discriminate).
  apply escape_with_ext. intros a. unfold is_bracket_or_colon, is_bracket.
  rewrite (Ascii.eqb_sym a "["), (Ascii.eqb_sym a "]"), (Ascii.eqb_sym a ":").
  now rewrite orb_assoc.
Qed.

(** The function is the single pass over the normalised path. *)
Lemma escape_subtitle_path_pass (env : environment) (p : string) :
  escape_subtitle_path env p
  = match os_name env with
    | posix => escape_with is_bracket (abspath env p)
    | nt => escape_with is_bracket_or_colon
              (replace_char "\" "/" (abspath env p))
    end.
Proof.
  unfold escape_subtitle_path.
  destruct (os_name env); [apply escape_brackets | apply escape_colon_brackets].
Qed.

Lemma guarded_escape_with (special sp : ascii -> bool) (s : string) (b : bool) :
  (forall a, sp a = true -> special a = true) ->
  sp backslash = false ->
  guarded sp b (escape_with special s) = true.
Proof.
  intros Hsub Hb. revert b. induction s as [|a s IH]; intros b; [reflexivity|]. cbn.
  destruct (special a) eqn:Sa; cbn.
  - rewrite Hb. cbn. rewrite ?Ascii.eqb_refl.
    destruct (sp a); cbn; apply IH.
  - destruct (sp a) eqn:E; [apply Hsub in E; congruence|]. cbn. apply IH.
Qed.

Lemma slashes_no_backslash (s : string) :
  has_backslash (replace_char "\" "/" s) = false.
Proof.
  induction s as [|a s IH]; [reflexivity|]. cbn.
  destruct (Ascii.eqb_spec a "\"); cbn; [exact IH|].
  destruct (Ascii.eqb_spec a backslash) as [E|_]; [contradiction|]. exact IH.
Qed.

Lemma escapes_only_escape_with (special : ascii -> bool) (s : string) :
  has_backslash s = false ->
  escapes_only special (escape_with special s) = true.
Proof.
  induction s as [|a s IH]; [reflexivity|]. cbn.
  intros H. apply orb_false_iff in H. destruct H as [Ha Hs].
  destruct (special a) eqn:Sa; cbn.
  - rewrite ?Ascii.eqb_refl, ?Sa, ?Ha. cbn. rewrite ?Sa, ?Ha. cbn. now apply IH.
  - rewrite Ha. cbn. now apply IH.
Qed.

Lemma starts_special_escape_with (special : ascii -> bool) (s : string) :
  special backslash = false ->
  starts_special special (escape_with special s) = false.
Proof.
  intros Hb. destruct s as [|a s]; [reflexivity|]. cbn.
  destruct (special a) eqn:Sa; cbn; assumption.
Qed.

Lemma unescape_escape_with (special : ascii -> bool) (s : string) :
  special backslash = false ->
  unescape special (escape_with special s) = s.
Proof.
  intros Hb. induction s as [|a s IH]; [reflexivity|]. cbn.
  destruct (special a) eqn:Sa; cbn.
  - rewrite ?Ascii.eqb_refl, ?Sa. cbn. rewrite ?Sa. cbn.
    destruct (Ascii.eqb_spec a backslash) as [->|_]; [congruence|]. cbn. now rewrite IH.
  - rewrite (starts_special_escape_with special s Hb), andb_false_r. now rewrite IH.
Qed.

(** X9. In the result of [escape_subtitle_path] every bracket
    stands right after a backslash. On Windows every colon does too,
    and every backslash of the result stands right before a bracket or
    a colon. *)
Theorem escape_subtitle_path_guards (env : environment) (subtitle_path : string) :
  guarded is_bracket false (escape_subtitle_path env subtitle_path) = true
  /\ (os_name env = nt ->
      guarded is_bracket_or_colon false (escape_subtitle_path env subtitle_path) = true
      /\ escapes_only is_bracket_or_colon (escape_subtitle_path env subtitle_path)
         = true).
Proof.
  rewrite escape_subtitle_path_pass. split.
  - destruct (os_name env); apply guarded_escape_with; try reflexivity; [auto|].
    intros a H. unfold is_bracket_or_colon. rewrite H. apply orb_true_r.
  - intros ->. split.
    + apply guarded_escape_with; [auto | reflexivity].
    + apply escapes_only_escape_with, slashes_no_backslash.
Qed.

(** X10. Dropping the escaping backslashes from the result of
    [escape_subtitle_path] gives back the absolute path (on Windows,
    the absolute path with forward slashes). Hence two paths with the
    same escaped form have the same absolute path. *)
Theorem escape_subtitle_path_reads_back (env : environment) :
  (forall p,
     match os_name env with
     | posix => unescape is_bracket (escape_subtitle_path env p) = abspath env p
     | nt => unescape is_bracket_or_colon (escape_subtitle_path env p)
             = replace_char "\" "/" (abspath env p)
     end)
  /\ (forall p q,
        escape_subtitle_path env p = escape_subtitle_path env q ->
        match os_name env with
        | posix => abspath env p = abspath env q
        | nt => replace_char "\" "/" (abspath env p)
                = replace_char "\" "/" (abspath env q)
        end).
Proof.
  assert (R : forall p,
     match os_name env with
     | posix => unescape is_bracket (escape_subtitle_path env p) = abspath env p
     | nt => unescape is_bracket_or_colon (escape_subtitle_path env p)
             = replace_char "\" "/" (abspath env p)
     end).
  { intros p. rewrite escape_subtitle_path_pass.
    destruct (os_name env); now apply unescape_escape_with. }
  split; [exact R|].
  intros p q H. pose proof (R p) as Rp. pose proof (R q) as Rq.
  destruct (os_name env); congruence.
Qed.

End EscapeProps.

(** ** Merging: the command and the outcome *)

Module MergeProps.
Import Py PathLib FFmpegLib OS Merger Spec Terms Steps TraceFacts.

Lemma quiet_validate_inputs env v s : quiet (validate_inputs env v s).
Proof.
  pose proof (ValidatorProps.validate_inputs_cases env v s) as H.
  unfold quiet. destruct (validate_inputs env v s) as [tr [[]|e]]; cbn [trace_of fst].
  - destruct H as (fv & fs & _ & _ & _ & _ & _ & _ & ->). reflexivity.
  - destruct H as [-> _]. reflexivity.
Qed.

Lemma quiet_nvenc env : quiet (check_nvidia_support env).
Proof.
  unfold check_nvidia_support, nvenc_listed, nvenc_trial_run, info, warning. quiet_steps.
  - destruct (_ && _)%bool; quiet_steps.
  - destruct a as [b|]; quiet_steps.
Qed.

Lemma silent_float_of_int n : trace_of (F64.float_of_int (Cmd := command) n) = [].
Proof. unfold F64.float_of_int. destruct (F64.of_Z n); reflexivity. Qed.

Lemma silent_int_of_float x : trace_of (F64.int_of_float (Cmd := command) x) = [].
Proof. destruct x; reflexivity. Qed.

Lemma silent_int_mul_float n x :
  trace_of (F64.int_mul_float (Cmd := command) n x) = [].
Proof.
  unfold F64.int_mul_float, F64.float_of_int. destruct (F64.of_Z n); reflexivity.
Qed.

(** The estimator has no effect. *)
Lemma silent_calculate w h fps ob :
  trace_of (calculate_smart_bitrate w h fps ob) = [].
Proof.
  unfold calculate_smart_bitrate. destruct (0 <? ob); [reflexivity|].
  unfold F64.truediv. change (F64.is_zero F64.f25_0) with false. cbv iota.
  rewrite trace_bind. cbn [ret trace_of fst outcome_of snd app].
  rewrite trace_bind, silent_int_mul_float. cbn [app].
  destruct (outcome_of (F64.int_mul_float _ _)); [apply silent_int_of_float | reflexivity].
Qed.

Lemma runs_bind {A B} (m : M A) (k : A -> M B) :
  quiet m ->
  Sample.runs (trace_of (bind m k))
  = match outcome_of m with
    | Returned a => Sample.runs (trace_of (k a))
    | Raised _ => []
    end.
Proof.
  intros Q. rewrite trace_bind, runs_app, Q. cbn [app].
  now destruct (outcome_of m).
Qed.

Lemma final_block_runs env v s o codec c :
  Sample.runs (trace_of (final_block env v s o codec c)) = [c].
Proof.
  unfold final_block, try_except, print, emit, lift, bind.
  destruct (ffmpeg_run env c) as [[]|e]; [reflexivity|].
  cbn [select_clause]. destruct (existsb _ _); reflexivity.
Qed.

Lemma final_block_outcome env v s o codec c :
  outcome_of (final_block env v s o codec c)
  = match ffmpeg_run env c with
    | Returned _ => Returned tt
    | Raised e =>
        if issubclass (exc_type e) FFmpegError
        then Raised (new_exc RuntimeError ("FFmpeg处理失败: " ++ ffmpeg_error_text e))
        else Raised e
    end.
Proof.
  unfold final_block, try_except, print, emit, lift, bind.
  destruct (ffmpeg_run env c) as [[]|e]; [reflexivity|].
  cbn [select_clause existsb]. rewrite orb_false_r.
  destruct (issubclass (exc_type e) FFmpegError); reflexivity.
Qed.

(** [merge_video_subtitle] as the sequence of its steps. *)
Lemma merge_steps env v s o style :
  merge_video_subtitle env v s o style
  = bind (validate_inputs env v s) (fun _ =>
    bind (probe_video_info env v) (fun vi =>
    bind (calculate_smart_bitrate (vi_width vi) (vi_height vi)
            (vi_fps vi) (vi_bitrate vi)) (fun smart_bitrate =>
    bind (check_nvidia_support env) (fun use_nvenc =>
    bind (plan use_nvenc smart_bitrate) (fun p =>
    final_block env v s o (fst p)
      (merge_command v s o style (fst p) (snd p))))))).
Proof. reflexivity. Qed.

Lemma quiet_plan use b : quiet (plan use b).
Proof.
  unfold plan, quiet. destruct use; [|reflexivity].
  rewrite trace_bind. cbn [info emit trace_of fst outcome_of snd].
  rewrite trace_bind, silent_int_mul_float. cbn [app].
  destruct (outcome_of (F64.int_mul_float b F64.f1_2)) as [x|e]; [|reflexivity].
  rewrite trace_bind, silent_int_of_float.
  destruct (outcome_of (F64.int_of_float x)); reflexivity.
Qed.

(** What the plan fixes whenever it is made. *)
Lemma plan_returns use b p :
  outcome_of (plan use b) = Returned p ->
  fst p = (if use then "h264_nvenc" else "libx264")
  /\ kwarg "vcodec" (cmd_output_kwargs (merge_command "" "" "" None (fst p) (snd p)))
     = Some (fst p)
  /\ kwarg "b:v" (snd p) = Some (str_of_int b)
  /\ kwarg "vcodec" (snd p) = None /\ kwarg "acodec" (snd p) = None
  /\ kwarg "pix_fmt" (snd p) = None.
Proof.
  unfold plan. destruct use.
  - rewrite outcome_bind. cbn [info emit outcome_of snd]. rewrite outcome_bind.
    destruct (outcome_of (F64.int_mul_float b F64.f1_2)) as [x|e]; [|discriminate].
    rewrite outcome_bind.
    destruct (outcome_of (F64.int_of_float x)) as [m|e]; [|discriminate].
    cbn. intros H. injection H as <-. repeat split; reflexivity.
  - cbn. intros H. injection H as <-. repeat split; reflexivity.
Qed.

(** X11. [merge_video_subtitle] runs the command it builds at most
    once (the trial encoding of the detection is not that command and
    is not counted): either it raises before running it, or,
    validation, probing, the choice of the bitrate and the detection
    having returned, it runs exactly one merge command, which reads the
    video, writes the output path with overwriting, burns the subtitle
    file in with the [subtitles] filter (with [force_style] only when
    that is a non-empty string), uses [h264_nvenc] or [libx264] as the
    detection said, copies the audio, asks for [yuv420p], and carries
    the chosen bitrate, which is the source's own when that is
    positive. *)
Theorem merge_runs_at_most_once (env : environment)
    (video_path subtitle_path output_path : string) (force_style : option string) :
  let run := merge_video_subtitle env video_path subtitle_path output_path force_style in
  (Sample.runs (trace_of run) = [] /\ exists e, outcome_of run = Raised e)
  \/ exists vi b use c,
       outcome_of (validate_inputs env video_path subtitle_path) = Returned tt
       /\ outcome_of (probe_video_info env video_path) = Returned vi
       /\ outcome_of (calculate_smart_bitrate (vi_width vi) (vi_height vi)
                        (vi_fps vi) (vi_bitrate vi)) = Returned b
       /\ (0 < vi_bitrate vi -> b = vi_bitrate vi)
       /\ outcome_of (check_nvidia_support env) = Returned use
       /\ Sample.runs (trace_of run) = [c]
       /\ cmd_input c = video_path /\ cmd_output c = output_path
       /\ cmd_overwrite c = true
       /\ filter_name (cmd_video_filter c) = "subtitles"
       /\ kwarg "filename" (filter_kwargs (cmd_video_filter c)) = Some subtitle_path
       /\ kwarg "force_style" (filter_kwargs (cmd_video_filter c))
          = (if truthy force_style then force_style else None)
       /\ kwarg "vcodec" (cmd_output_kwargs c)
          = Some (if use then "h264_nvenc" else "libx264")
       /\ kwarg "acodec" (cmd_output_kwargs c) = Some "copy"
       /\ kwarg "pix_fmt" (cmd_output_kwargs c) = Some "yuv420p"
       /\ kwarg "b:v" (cmd_output_kwargs c) = Some (str_of_int b).
Proof.
  cbv zeta. rewrite merge_steps.
  rewrite (runs_bind _ _ (quiet_validate_inputs env _ _)), outcome_bind.
  destruct (outcome_of (validate_inputs env video_path subtitle_path))
    as [[]|e0] eqn:H0; [|left; eauto].
  rewrite (runs_bind _ _ (ProberProps.quiet_probe_video_info env _)), outcome_bind.
  destruct (outcome_of (probe_video_info env video_path)) as [vi|e1] eqn:H1;
    [|left; eauto].
  assert (Q2 : quiet (calculate_smart_bitrate (vi_width vi) (vi_height vi)
                        (vi_fps vi) (vi_bitrate vi))).
  { unfold quiet. now rewrite silent_calculate. }
  rewrite (runs_bind _ _ Q2), outcome_bind.
  destruct (outcome_of (calculate_smart_bitrate (vi_width vi) (vi_height vi)
                          (vi_fps vi) (vi_bitrate vi))) as [b|e2] eqn:H2;
    [|left; eauto].
  rewrite (runs_bind _ _ (quiet_nvenc env)), outcome_bind.
  destruct (outcome_of (check_nvidia_support env)) as [use|e3] eqn:H3;
    [|left; eauto].
  rewrite (runs_bind _ _ (quiet_plan use b)), outcome_bind.
  destruct (outcome_of (plan use b)) as [p|e4] eqn:H4; [|left; eauto].
  right. exists vi, b, use, (merge_command video_path subtitle_path output_path
                               force_style (fst p) (snd p)).
  destruct (plan_returns use b p H4) as (P1 & _ & P2 & P3 & P4 & P5).
  rewrite final_block_runs.
  repeat (split; [first [reflexivity | assumption]|]).
  split.
  { intros Hb. unfold calculate_smart_bitrate in H2.
    destruct (Z.ltb_spec 0 (vi_bitrate vi)); [|lia].
    cbn in H2. now injection H2. }
  split; [reflexivity|].
  repeat (split; [reflexivity|]).
  split.
  { unfold merge_command, subtitle_filter_params. cbn.
    destruct force_style as [t|]; cbn; [|reflexivity].
    destruct (String.eqb t ""); reflexivity. }
  split; [cbn; now rewrite P1|].
  split; [reflexivity|]. split; [reflexivity|].
  cbn. exact P2.
Qed.

(** X12. [merge_video_subtitle] returns exactly when it ran its
    merge command and that run succeeded. When the run fails with an
    ffmpeg error whose captured error output decodes (it is absent,
    empty or well-formed UTF-8), the caller gets a [RuntimeError] whose
    message is the error text after ["FFmpeg处理失败: "]; an exception
    of the run that is not an ffmpeg error reaches the caller
    unchanged. *)
Theorem merge_reports_command_result (env : environment)
    (video_path subtitle_path output_path : string) (force_style : option string) :
  let run := merge_video_subtitle env video_path subtitle_path output_path force_style in
  (outcome_of run = Returned tt
   <-> exists c, Sample.runs (trace_of run) = [c] /\ ffmpeg_run env c = Returned tt)
  /\ (forall c e,
        Sample.runs (trace_of run) = [c] -> ffmpeg_run env c = Raised e ->
        (issubclass (exc_type e) FFmpegError = true -> stderr_decodes e = true ->
         outcome_of run
         = Raised (new_exc RuntimeError ("FFmpeg处理失败: " ++ ffmpeg_error_text e)))
        /\ (issubclass (exc_type e) FFmpegError = false -> outcome_of run = Raised e)).
Proof.
  cbv zeta. rewrite merge_steps.
  rewrite (runs_bind _ _ (quiet_validate_inputs env _ _)), outcome_bind.
  destruct (outcome_of (validate_inputs env video_path subtitle_path)) as [[]|e0].
  2:{ split; [split; [discriminate | intros (c & H & _); discriminate]|].
      intros c e H. discriminate. }
  rewrite (runs_bind _ _ (ProberProps.quiet_probe_video_info env _)), outcome_bind.
  destruct (outcome_of (probe_video_info env video_path)) as [vi|e1].
  2:{ split; [split; [discriminate | intros (c & H & _); discriminate]|].
      intros c e H. discriminate. }
  assert (Q2 : quiet (calculate_smart_bitrate (vi_width vi) (vi_height vi)
                        (vi_fps vi) (vi_bitrate vi))).
  { unfold quiet. now rewrite silent_calculate. }
  rewrite (runs_bind _ _ Q2), outcome_bind.
  destruct (outcome_of (calculate_smart_bitrate (vi_width vi) (vi_height vi)
                          (vi_fps vi) (vi_bitrate vi))) as [b|e2].
  2:{ split; [split; [discriminate | intros (c & H & _); discriminate]|].
      intros c e H. discriminate. }
  rewrite (runs_bind _ _ (quiet_nvenc env)), outcome_bind.
  destruct (outcome_of (check_nvidia_support env)) as [use|e3].
  2:{ split; [split; [discriminate | intros (c & H & _); discriminate]|].
      intros c e H. discriminate. }
  rewrite (runs_bind _ _ (quiet_plan use b)), outcome_bind.
  destruct (outcome_of (plan use b)) as [p|e4].
  2:{ split; [split; [discriminate | intros (c & H & _); discriminate]|].
      intros c e H. discriminate. }
  rewrite final_block_runs, final_block_outcome.
  set (c0 := merge_command video_path subtitle_path output_path force_style
               (fst p) (snd p)).
  split; [split|].
  - intros H. exists c0. split; [reflexivity|].
    destruct (ffmpeg_run env c0) as [[]|e]; [reflexivity|].
    destruct (issubclass (exc_type e) FFmpegError); discriminate.
  - intros (c & H & R). injection H as <-. now rewrite R.
  - intros c e H R. injection H as <-. rewrite R.
    split; [intros E _ | intros E]; rewrite E; reflexivity.
Qed.

Lemma calculate_raises w h fps ob e :
  outcome_of (calculate_smart_bitrate w h fps ob) = Raised e ->
  In (exc_type e) [ValueError; OverflowError].
Proof.
  unfold calculate_smart_bitrate. destruct (0 <? ob); [discriminate|].
  unfold F64.truediv. change (F64.is_zero F64.f25_0) with false. cbv iota.
  rewrite outcome_bind. cbn [ret outcome_of snd].
  rewrite outcome_bind. unfold F64.int_mul_float. rewrite outcome_bind.
  unfold F64.float_of_int.
  destruct (F64.of_Z (base_bitrate (w * h))); cbn [ret raise outcome_of snd].
  2:{ intros H. injection H as <-. cbn. auto. }
  all: match goal with
       | |- context [F64.int_of_float ?x] => destruct x
       end; cbn; intros H; try discriminate; injection H as <-; cbn; auto.
Qed.

Lemma plan_raises use b e :
  outcome_of (plan use b) = Raised e -> In (exc_type e) [ValueError; OverflowError].
Proof.
  unfold plan. destruct use; [|discriminate].
  rewrite outcome_bind. cbn [info emit outcome_of snd].
  rewrite outcome_bind. unfold F64.int_mul_float. rewrite outcome_bind.
  unfold F64.float_of_int.
  destruct (F64.of_Z b); cbn [ret raise outcome_of snd].
  2:{ intros H. injection H as <-. cbn. auto. }
  all: rewrite outcome_bind;
       match goal with
       | |- context [F64.int_of_float ?x] => destruct x
       end; cbn; intros H; try discriminate; injection H as <-; cbn; auto.
Qed.

Lemma merge_raises_ordinary (env : environment)
    (video_path subtitle_path output_path : string) (force_style : option string)
    (e : exc) :
  ordinary_environment env ->
  outcome_of (merge_video_subtitle env video_path subtitle_path output_path
                force_style) = Raised e ->
  issubclass (exc_type e) Exception = true.
Proof.
  intros (Op & Oq & Ot & Or). rewrite merge_steps, outcome_bind.
  pose proof (ValidatorProps.validate_inputs_cases env video_path subtitle_path) as V.
  destruct (validate_inputs env video_path subtitle_path) as [t0 [[]|e0]];
    cbn [outcome_of snd].
  2:{ intros H. injection H as ->. destruct V as [_ V]. cbn in V.
      destruct V as [W|[W|[W|[]]]]; rewrite <- W; reflexivity. }
  rewrite outcome_bind.
  pose proof (ProberProps.probe_outcomes env video_path) as P.
  destruct (outcome_of (probe_video_info env video_path)) as [vi|e1].
  2:{ intros H. injection H as ->.
      destruct P as [[P _]|[P1 P2]]; [now rewrite P|].
      rewrite (Op video_path e P1) in P2. discriminate. }
  rewrite outcome_bind.
  destruct (outcome_of (calculate_smart_bitrate (vi_width vi) (vi_height vi)
                          (vi_fps vi) (vi_bitrate vi))) as [b|e2] eqn:H2.
  2:{ intros H. injection H as ->. apply calculate_raises in H2. cbn in H2.
      destruct H2 as [W|[W|[]]]; rewrite <- W; reflexivity. }
  rewrite outcome_bind.
  pose proof (proj2 (proj2 (DetectorProps.detection_outcomes env))) as D.
  destruct (outcome_of (check_nvidia_support env)) as [use|e3].
  2:{ intros H. injection H as ->. destruct (proj1 (D e) eq_refl) as [[Q _]|(_ & Q & _)].
      - exact (Oq e Q).
      - exact (Ot e Q). }
  rewrite outcome_bind.
  destruct (outcome_of (plan use b)) as [p|e4] eqn:H4.
  2:{ intros H. injection H as ->. apply plan_raises in H4. cbn in H4.
      destruct H4 as [W|[W|[]]]; rewrite <- W; reflexivity. }
  rewrite final_block_outcome.
  set (c0 := merge_command video_path subtitle_path output_path force_style
               (fst p) (snd p)).
  pose proof (Or c0) as R.
  destruct (ffmpeg_run env c0) as [[]|e5]; [discriminate|].
  destruct (issubclass (exc_type e5) FFmpegError).
  - intros H. injection H as <-. reflexivity.
  - intros H. injection H as <-. now apply R.
Qed.

(** X13. When the external programs fail only with exceptions of
    the [Exception] hierarchy, so does [merge_video_subtitle]: the
    steps of its own raise nothing else. *)
Theorem merge_fails_ordinarily (env : environment)
    (video_path subtitle_path output_path : string) (force_style : option string)
    (e : exc) :
  ordinary_environment env ->
  outcome_of (merge_video_subtitle env video_path subtitle_path output_path
                force_style) = Raised e ->
  issubclass (exc_type e) Exception = true.
Proof. exact (merge_raises_ordinary env video_path subtitle_path output_path force_style e). Qed.

Lemma failing_studio_ordinary : ordinary_environment Sample2.failing_studio.
Proof.
  unfold ordinary_environment, ordinary. cbn.
  repeat split; intros; try discriminate;
    match goal with H : Raised _ = Raised _ |- _ => injection H as <- end;
    reflexivity.
Qed.

Lemma merge_fails_ordinarily_witness :
  issubclass (exc_type (new_exc RuntimeError "FFmpeg处理失败: Conversion failed!"))
             Exception = true.
Proof.
  apply (merge_fails_ordinarily Sample2.failing_studio
           "/videos/EP01.mp4" "/videos/[EP01].ass" "/videos/EP01_sub.mp4" None
           (new_exc RuntimeError "FFmpeg处理失败: Conversion failed!")).
  - exact failing_studio_ordinary.
  - vm_compute. reflexivity.
Defined.

End MergeProps.

(** ** Integers as floats *)

Module IntegerFloats.
Import Rounding RoundingFacts.

Local Abbreviation prec := 53 (only parsing).
Local Abbreviation emax := 1024 (only parsing).

(** A full mantissa at an exponent in range is not changed by rounding. *)
Lemma round_normal (m : positive) (e : Z) :
  2 ^ 52 <= Zpos m < 2 ^ 53 -> -1074 <= e <= 971 ->
  binary_round_aux prec emax false (Zpos m) e loc_Exact = S754_finite false m e.
Proof.
  intros Hm He.
  assert (Hd : Zdigits2 (Zpos m) = 53).
  { pose proof (Zdigits2_ge53 (Zpos m) (proj1 Hm)).
    pose proof (Zdigits2_le53 (Zpos m) ltac:(lia)). lia. }
  assert (Hn : fexp prec emax (Zdigits2 (Zpos m) + e) - e <= 0).
  { rewrite Hd, fexp_eq. lia. }
  rewrite binary_round_aux_finish, (shr_fexp_noshift _ _ Hn).
  cbn [shr_m loc_of_shr_record round_nearest_even shr_r shr_s].
  unfold finish. rewrite (shr_fexp_noshift _ _ Hn). cbn [shr_m].
  destruct (Z.leb_spec e (1024 - 53)); [reflexivity | lia].
Qed.

Lemma iter_xO (k p : positive) : Zpos (Pos.iter xO p k) = Zpos p * 2 ^ Zpos k.
Proof.
  change (Pos.iter xO p k) with (shift_pos k p).
  rewrite shift_pos_correct, Z.pow_pos_fold. lia.
Qed.

(** An integer below 2^53 is a float: [float(b)] is exact. *)
Lemma of_Z_exact (b : Z) :
  0 < b < 2 ^ 53 ->
  exists m e,
    F64.of_Z b = S754_finite false m e
    /\ 2 ^ 52 <= Zpos m < 2 ^ 53 /\ -52 <= e <= 0
    /\ Zpos m = b * 2 ^ (- e).
Proof.
  intros Hb. destruct b as [|p|p]; try lia.
  unfold F64.of_Z, binary_normalize, binary_round, shl_align.
  destruct (Zdigits2_bounds (Zpos p) ltac:(lia)) as (Hd & Hlo & Hhi).
  pose proof (Zdigits2_le53 (Zpos p) ltac:(lia)) as H53.
  cbn [Zdigits2] in *. set (d := Zpos (digits2_pos p)) in *.
  rewrite Z.add_0_r, fexp_eq, Z.sub_0_r.
  replace (Z.max (d - 53) (-1074)) with (d - 53) by lia.
  destruct (d - 53) as [|k|k] eqn:Ek; try lia.
  - exists p, 0. assert (D53 : d = 53) by lia.
    rewrite D53 in Hlo, Hhi. change (53 - 1) with 52 in Hlo.
    split; [apply round_normal; lia|].
    cbn [Z.opp Z.pow]. lia.
  - exists (Pos.iter xO p k), (Zneg k).
    assert (Hm : Zpos (Pos.iter xO p k) = Zpos p * 2 ^ Zpos k) by apply iter_xO.
    assert (Hk : Zpos k = 53 - d) by lia.
    assert (P : 0 < 2 ^ Zpos k) by (apply Z.pow_pos_nonneg; lia).
    assert (Lo : 2 ^ 52 <= Zpos p * 2 ^ Zpos k).
    { replace 52 with (d - 1 + Zpos k) by lia. rewrite Z.pow_add_r by lia.
      apply Z.mul_le_mono_nonneg_r; lia. }
    assert (Hi : Zpos p * 2 ^ Zpos k < 2 ^ 53).
    { replace 53 with (d + Zpos k) at 1 by lia. rewrite Z.pow_add_r by lia.
      apply Z.mul_lt_mono_pos_r; lia. }
    split; [apply round_normal; lia|].
    split; [lia|]. split; [lia|].
    rewrite Hm. reflexivity.
Qed.

Lemma inb_exact (mz : positive) (ez : Z) :
  inb (valQ (S754_finite false mz ez)) (Zpos mz) ez loc_Exact.
Proof.
  unfold inb, inb_unit, valQ.
  rewrite <- Qmult_assoc, bpow_cancel. ring.
Qed.

Lemma key_finite m e : steady m e -> e <= 971 -> key m e < key_inf.
Proof.
  intros (A & B & C) He. unfold key, key_inf. rewrite pow2_52, pow2_53 in *. lia.
Qed.

(** The product of two floats, compared with a float by the exact
    values. *)
Lemma mul_rank_bounds x y (mz : positive) (ez : Z) :
  normal x -> positive_finite y -> steady (Zpos mz) ez -> ez <= 971 ->
  ((valQ (S754_finite false mz ez) <= valQ x * valQ y)%Q ->
   key (Zpos mz) ez <= rank (SFmul prec emax x y))
  /\ ((valQ x * valQ y <= valQ (S754_finite false mz ez))%Q ->
      rank (SFmul prec emax x y) <= key (Zpos mz) ez).
Proof.
  destruct x as [| | |[] mx ex]; cbn [normal]; try tauto.
  destruct y as [| | |[] my ey]; cbn [positive_finite]; try tauto.
  intros (_ & _ & Hx) _ Sz Hz.
  change (SFmul prec emax (S754_finite false mx ex) (S754_finite false my ey))
    with (binary_round_aux prec emax false (Zpos (mx * my)) (ex + ey) loc_Exact).
  destruct (round_spec _ _ _ _ (Pos2Z.is_nonneg _) (mul_inb mx ex my ey))
    as (m1 & l1 & E & I1 & S1 & _ & O).
  { apply pre_of_normal. rewrite Pos2Z.inj_mul. nia. }
  rewrite O. pose proof (key_finite _ _ Sz Hz) as F.
  pose proof (inb_exact mz ez) as Iz.
  split; intros Hv.
  - pose proof (key_mono _ _ _ _ _ _ _ _ Iz Sz I1 S1 Hv) as K.
    cbn [round_nearest_even] in K. lia.
  - pose proof (key_mono _ _ _ _ _ _ _ _ I1 S1 Iz Sz Hv) as K.
    cbn [round_nearest_even] in K. lia.
Qed.

Lemma normal_f1_2 : positive_finite F64.f1_2 /\ (1 <= valQ F64.f1_2 <= 2)%Q.
Proof. split; [exact I|]. split; vm_compute; discriminate. Qed.

(** [int(b * 1.2)] lies between [b] and [2 * b]. *)
Lemma scaled_bitrate (b : Z) :
  0 < b < 2 ^ 53 ->
  exists m,
    F64.int_mul_float (Cmd := FFmpegLib.command) b F64.f1_2
    = Py.ret (F64.mul (F64.of_Z b) F64.f1_2)
    /\ F64.int_of_float (Cmd := FFmpegLib.command) (F64.mul (F64.of_Z b) F64.f1_2)
       = Py.ret m
    /\ b <= m <= 2 * b.
Proof.
  intros Hb. destruct (of_Z_exact b Hb) as (mz & ez & E & Hm & He & Hv).
  pose proof pow2_52 as P52. pose proof pow2_53 as P53.
  assert (Sx : steady (Zpos mz) ez) by (unfold steady; lia).
  assert (Nx : normal (S754_finite false mz ez)) by (cbn; repeat split; lia || exact Sx).
  assert (S2 : steady (Zpos mz) (ez + 1)) by (unfold steady; lia).
  destruct normal_f1_2 as [Pf [F1 F2]].
  assert (Vx : (valQ (S754_finite false mz ez) == inject_Z b)%Q).
  { unfold valQ. rewrite Hv, inject_Z_mult, inject_Z_pow2 by lia.
    rewrite <- Qmult_assoc, (Qmult_comm (bpow (- ez))), bpow_cancel. ring. }
  assert (V2 : (valQ (S754_finite false mz (ez + 1)) == 2 * inject_Z b)%Q).
  { unfold valQ in *. rewrite bpow_add. change (bpow 1) with 2%Q.
    rewrite <- Vx. ring. }
  assert (Bp : (0 < inject_Z b)%Q) by (rewrite <- (Zlt_Qlt 0); lia).
  destruct (mul_rank_bounds (S754_finite false mz ez) F64.f1_2 mz ez Nx Pf Sx
              ltac:(lia)) as [Lo _].
  destruct (mul_rank_bounds (S754_finite false mz ez) F64.f1_2 mz (ez + 1) Nx Pf S2
              ltac:(lia)) as [_ Hi].
  assert (L : key (Zpos mz) ez <= rank (F64.mul (S754_finite false mz ez) F64.f1_2)).
  { apply Lo. rewrite Vx. setoid_replace (inject_Z b) with (inject_Z b * 1)%Q at 1 by ring.
    rewrite !(Qmult_comm (inject_Z b)). apply Qmult_le_compat_r; lra. }
  assert (U : rank (F64.mul (S754_finite false mz ez) F64.f1_2) <= key (Zpos mz) (ez + 1)).
  { apply Hi. rewrite V2, Vx. rewrite (Qmult_comm (inject_Z b)).
    apply Qmult_le_compat_r; lra. }
  pose proof (mul_nonneg _ _ Nx Pf) as Nn.
  pose proof (key_finite _ _ S2 ltac:(lia)) as K2.
  assert (Fp : finite_nonneg (F64.mul (S754_finite false mz ez) F64.f1_2)).
  { split; [exact Nn | unfold F64.mul in *; lia]. }
  assert (Fx : finite_nonneg (S754_finite false mz ez)) by now apply normal_nonneg.
  assert (F2' : finite_nonneg (S754_finite false mz (ez + 1))).
  { split; [split; [exact S2 | lia] | exact K2]. }
  pose proof (trunc_mono _ _ Fx Fp L) as T1.
  pose proof (trunc_mono _ _ Fp F2' U) as T2.
  pose proof (trunc_bracket _ Fx) as [B1 B1'].
  pose proof (trunc_bracket _ F2') as [B2 B2'].
  rewrite Vx in B1, B1'. rewrite V2 in B2, B2'.
  assert (Tx : F64.trunc (S754_finite false mz ez) = b).
  { apply Z.le_antisymm.
    - rewrite <- Zle_Qle in B1. exact B1.
    - apply Qlt_inject_Z_lt. exact B1'. }
  assert (T2x : F64.trunc (S754_finite false mz (ez + 1)) = 2 * b).
  { change 2%Q with (inject_Z 2) in B2, B2'. rewrite <- inject_Z_mult in B2, B2'.
    apply Z.le_antisymm.
    - rewrite <- Zle_Qle in B2. exact B2.
    - apply Qlt_inject_Z_lt. exact B2'. }
  exists (F64.trunc (F64.mul (F64.of_Z b) F64.f1_2)).
  split; [|split].
  - unfold F64.int_mul_float, F64.float_of_int. rewrite E. reflexivity.
  - rewrite E. apply EstimatorFacts.int_of_float_finite. exact Fp.
  - rewrite E. lia.
Qed.

End IntegerFloats.

(** ** Rate control of the hardware encoder *)

Module RateControlProps.
Import Py PathLib FFmpegLib OS Merger Spec Terms Steps TraceFacts MergeProps.

Lemma plan_nvenc (b : Z) :
  0 < b < 2 ^ 53 ->
  exists m,
    b <= m <= 2 * b
    /\ bind (F64.int_mul_float (Cmd := command) b F64.f1_2) F64.int_of_float = ret m
    /\ outcome_of (plan true b)
       = Returned ("h264_nvenc",
                   [("preset", "medium"); ("rc", "vbr"); ("cq", "23");
                    ("b:v", str_of_int b);
                    ("maxrate", str_of_int m);
                    ("bufsize", str_of_int (b * 2));
                    ("gpu", "0")]).
Proof.
  intros Hb. destruct (IntegerFloats.scaled_bitrate b Hb) as (m & E1 & E2 & Hm).
  exists m. split; [exact Hm|].
  split; [rewrite E1; cbn [bind ret]; now rewrite E2|].
  unfold plan. rewrite outcome_bind. cbn [info emit outcome_of snd].
  rewrite outcome_bind, E1. cbn [ret outcome_of snd].
  rewrite outcome_bind, E2. reflexivity.
Qed.

(** X14. With hardware encoding and a chosen bitrate [b],
    [0 < b < 2^53], the merge command of [merge_video_subtitle] asks
    for [h264_nvenc] with the bitrate [b], a buffer of [2 * b] and the
    maximal rate [m = int(b * 1.2)], computed in binary64, which lies
    between [b] and [2 * b]. *)
Theorem nvenc_rate_control (env : environment)
    (video_path subtitle_path output_path : string) (force_style : option string)
    (vi : video_info) (b : Z) :
  outcome_of (validate_inputs env video_path subtitle_path) = Returned tt ->
  outcome_of (probe_video_info env video_path) = Returned vi ->
  outcome_of (calculate_smart_bitrate (vi_width vi) (vi_height vi)
                (vi_fps vi) (vi_bitrate vi)) = Returned b ->
  outcome_of (check_nvidia_support env) = Returned true ->
  0 < b < 2 ^ 53 ->
  exists c m,
    Sample.runs (trace_of (merge_video_subtitle env video_path subtitle_path
                             output_path force_style)) = [c]
    /\ kwarg "vcodec" (cmd_output_kwargs c) = Some "h264_nvenc"
    /\ kwarg "b:v" (cmd_output_kwargs c) = Some (str_of_int b)
    /\ kwarg "maxrate" (cmd_output_kwargs c) = Some (str_of_int m)
    /\ kwarg "bufsize" (cmd_output_kwargs c) = Some (str_of_int (2 * b))
    /\ bind (F64.int_mul_float (Cmd := command) b F64.f1_2) F64.int_of_float = ret m
    /\ b <= m <= 2 * b.
Proof.
  intros H0 H1 H2 H3 Hb.
  destruct (plan_nvenc b Hb) as (m & Hm & Hi & Hp).
  rewrite merge_steps.
  rewrite (runs_bind _ _ (quiet_validate_inputs env _ _)), H0.
  rewrite (runs_bind _ _ (ProberProps.quiet_probe_video_info env _)), H1.
  assert (Q2 : quiet (calculate_smart_bitrate (vi_width vi) (vi_height vi)
                        (vi_fps vi) (vi_bitrate vi))).
  { unfold quiet. now rewrite silent_calculate. }
  rewrite (runs_bind _ _ Q2), H2.
  rewrite (runs_bind _ _ (quiet_nvenc env)), H3.
  rewrite (runs_bind _ _ (quiet_plan true b)), Hp.
  rewrite final_block_runs. cbn [fst snd].
  eexists. exists m. split; [reflexivity|].
  repeat split; try reflexivity; try lia; try exact Hi.
  now rewrite (Z.mul_comm 2 b).
Qed.

Lemma nvenc_rate_control_witness :
  exists c m,
    Sample.runs (trace_of (merge_video_subtitle Sample2.gpu_studio
                             "/videos/EP01.mp4" "/videos/[EP01].ass"
                             "/videos/EP01_sub.mp4" None)) = [c]
    /\ kwarg "vcodec" (cmd_output_kwargs c) = Some "h264_nvenc"
    /\ kwarg "b:v" (cmd_output_kwargs c) = Some (str_of_int 5000000)
    /\ kwarg "maxrate" (cmd_output_kwargs c) = Some (str_of_int m)
    /\ kwarg "bufsize" (cmd_output_kwargs c) = Some (str_of_int (2 * 5000000))
    /\ bind (F64.int_mul_float (Cmd := command) 5000000 F64.f1_2) F64.int_of_float
       = ret m
    /\ 5000000 <= m <= 2 * 5000000.
Proof.
  apply (nvenc_rate_control Sample2.gpu_studio "/videos/EP01.mp4" "/videos/[EP01].ass"
           "/videos/EP01_sub.mp4" None
           (mkInfo 1920 1080 F64.f25_0 F64.zero 0 "h264" "yuv420p") 5000000);
    try reflexivity.
  split; reflexivity.
Defined.

End RateControlProps.

(** ** The command line of the merger *)

Module MergerMainProps.
Import Py PathLib FFmpegLib OS Merger Spec Terms Steps TraceFacts Cli MergerMain.

Lemma commands_effects (tr : list (event command)) :
  commands (map Effect tr) = Sample.runs tr.
Proof.
  unfold commands, Sample.runs.
  induction tr as [|ev tr IH]; [reflexivity|].
  cbn [map flat_map]. rewrite IH. now destruct ev.
Qed.

Lemma commands_app (a b : list Cli.output) :
  commands (a ++ b) = (commands a ++ commands b)%list.
Proof. apply flat_map_app. Qed.

Lemma error_lines_effects (tr : list (event command)) : error_lines (map Effect tr) = [].
Proof. induction tr as [|ev tr IH]; [reflexivity | exact IH]. Qed.

Lemma error_lines_app (a b : list Cli.output) :
  error_lines (a ++ b) = (error_lines a ++ error_lines b)%list.
Proof. apply flat_map_app. Qed.

Lemma body_check_only env v s o st lvl :
  body env (mkArgs v s o st lvl true) = check_body env v s.
Proof. reflexivity. Qed.

Lemma quiet_check_body env v s : quiet (check_body env v s).
Proof.
  unfold check_body, print.
  apply quiet_bind; [apply MergeProps.quiet_validate_inputs|intros _].
  apply quiet_bind; [apply ProberProps.quiet_probe_video_info|intros vi].
  apply quiet_bind; [apply MergeProps.quiet_nvenc|intros use].
  quiet_steps.
Qed.

Lemma check_body_outcome env v s :
  outcome_of (check_body env v s)
  = match outcome_of (validate_inputs env v s) with
    | Raised e => Raised e
    | Returned _ =>
        match outcome_of (probe_video_info env v) with
        | Raised e => Raised e
        | Returned _ =>
            match outcome_of (check_nvidia_support env) with
            | Raised e => Raised e
            | Returned _ => Returned tt
            end
        end
    end.
Proof.
  unfold check_body. rewrite outcome_bind.
  destruct (outcome_of (validate_inputs env v s)); [|reflexivity].
  rewrite outcome_bind.
  destruct (outcome_of (probe_video_info env v)); [|reflexivity].
  rewrite outcome_bind.
  destruct (outcome_of (check_nvidia_support env)); reflexivity.
Qed.

(** X15. With [--check-only], [main] builds and runs no merge
    command (the trial encoding of the detection is not a merge command
    and is not counted), does not depend on the output path or on
    [--force-style], and returns normally exactly when validation,
    probing and detection all return. *)
Theorem check_only_merges_nothing (env : environment) (v s o : string)
    (st : option string) (lvl : Py.log_level) :
  commands (fst (main env (mkArgs v s o st lvl true))) = []
  /\ (forall o' st', main env (mkArgs v s o' st' lvl true)
                     = main env (mkArgs v s o st lvl true))
  /\ (snd (main env (mkArgs v s o st lvl true)) = Returns
      <-> outcome_of (validate_inputs env v s) = Returned tt
          /\ (exists vi, outcome_of (probe_video_info env v) = Returned vi)
          /\ (exists b, outcome_of (check_nvidia_support env) = Returned b)).
Proof.
  split; [|split].
  - unfold main. rewrite body_check_only.
    pose proof (quiet_check_body env v s) as Q. unfold quiet, trace_of in Q.
    destruct (check_body env v s) as [tr [[]|e]]; cbn [fst] in *.
    + now rewrite commands_effects.
    + destruct (issubclass (exc_type e) KeyboardInterrupt);
        [|destruct (issubclass (exc_type e) Exception)]; cbn [fst];
        rewrite ?commands_app, commands_effects, Q; reflexivity.
  - intros o' st'. unfold main. now rewrite !body_check_only.
  - unfold main. rewrite body_check_only.
    pose proof (check_body_outcome env v s) as O. unfold outcome_of in *.
    destruct (check_body env v s) as [tr [[]|e]]; cbn [snd] in *.
    + split; [intros _|reflexivity].
      destruct (snd (validate_inputs env v s)) as [[]|]; [|discriminate].
      destruct (snd (probe_video_info env v)) as [vi|]; [|discriminate].
      destruct (snd (check_nvidia_support env)) as [b|]; [|discriminate].
      eauto.
    + split.
      * destruct (issubclass (exc_type e) KeyboardInterrupt);
          [|destruct (issubclass (exc_type e) Exception)]; discriminate.
      * intros (H1 & (vi & H2) & (b & H3)). rewrite H1, H2, H3 in O. discriminate.
Qed.

Lemma keyboard_not_ordinary c :
  issubclass c Exception = true -> issubclass c KeyboardInterrupt = false.
Proof. destruct c; cbn; congruence. Qed.

Lemma body_ordinary env args :
  ordinary_environment env -> ordinary (outcome_of (body env args)).
Proof.
  intros O e. destruct args as [v s o st lvl [|]].
  - rewrite body_check_only, check_body_outcome.
    pose proof (ValidatorProps.validate_inputs_cases env v s) as V.
    destruct (validate_inputs env v s) as [t0 [[]|e0]]; cbn [outcome_of snd].
    2:{ intros H. injection H as ->. destruct V as [_ V]. cbn in V.
        destruct V as [W|[W|[W|[]]]]; rewrite <- W; reflexivity. }
    pose proof (ProberProps.probe_outcomes env v) as P.
    destruct O as (Op & Oq & Ot & Or).
    destruct (outcome_of (probe_video_info env v)) as [vi|e1].
    2:{ intros H. injection H as ->.
        destruct P as [[P _]|[P1 P2]]; [now rewrite P|].
        rewrite (Op v e P1) in P2. discriminate. }
    pose proof (proj2 (proj2 (DetectorProps.detection_outcomes env))) as D.
    destruct (outcome_of (check_nvidia_support env)) as [use|e3]; [discriminate|].
    intros H. injection H as ->. destruct (proj1 (D e) eq_refl) as [[Q _]|(_ & Q & _)].
    + exact (Oq e Q).
    + exact (Ot e Q).
  - cbn [body check_only video subtitle output force_style].
    intros H. eapply MergeProps.merge_raises_ordinary; eassumption.
Qed.

(** X16. How [main] ends, and the error line it prints itself
    (log records apart). It returns, having printed no error line, only
    when its body returned; it exits with status 130 after the
    interruption line on a [KeyboardInterrupt], with status 1 after the
    line ["错误: {e}"] on an exception of the [Exception] hierarchy,
    and lets any other exception through. When the external programs
    fail only with exceptions of the [Exception] hierarchy, it returns
    or exits with status 1. *)
Theorem main_exit_status (env : environment) (args : arguments) :
  match main env args with
  | (out, Returns) =>
      error_lines out = [] /\ outcome_of (body env args) = Returned tt
  | (out, Exits code) =>
      exists e,
        outcome_of (body env args) = Raised e
        /\ ((code = 130 /\ issubclass (exc_type e) KeyboardInterrupt = true
             /\ error_lines out = [("\n用户中断操作", [])])
            \/ (code = 1 /\ issubclass (exc_type e) Exception = true
                /\ error_lines out = [("错误: {e}", [ArgStr (exc_msg e)])]))
  | (out, Propagates e) =>
      outcome_of (body env args) = Raised e
      /\ issubclass (exc_type e) Exception = false
      /\ issubclass (exc_type e) KeyboardInterrupt = false
  end
  /\ (ordinary_environment env ->
      snd (main env args) = Returns \/ snd (main env args) = Exits 1).
Proof.
  pose proof (body_ordinary env args) as O.
  unfold main, ordinary, outcome_of in *.
  destruct (body env args) as [tr [[]|e]]; cbn [snd] in *.
  - split; [|auto]. split; [apply error_lines_effects | reflexivity].
  - destruct (issubclass (exc_type e) KeyboardInterrupt) eqn:K.
    + split.
      * exists e. split; [reflexivity|]. left. repeat split; try assumption.
        now rewrite error_lines_app, error_lines_effects.
      * intros H. specialize (O H e eq_refl).
        rewrite (keyboard_not_ordinary _ O) in K. discriminate.
    + destruct (issubclass (exc_type e) Exception) eqn:X.
      * split; [|auto]. exists e. split; [reflexivity|]. right.
        repeat split; try assumption.
        now rewrite error_lines_app, error_lines_effects.
      * split; [repeat split; assumption|].
        intros H. specialize (O H e eq_refl). congruence.
Qed.

End MergerMainProps.

(** ** Scanning: formats *)

Module ScannerProps.
Import Py PathLib FFmpegLib Batch Spec Terms.

Lemma rfind_from_app (c : ascii) (a b : string) (i : nat) (last : option nat) :
  rfind_from c (a ++ b) i last
  = rfind_from c b (i + String.length a) (rfind_from c a i last).
Proof.
  revert i last. induction a as [|x a IH]; intros i last; cbn.
  - now rewrite Nat.add_0_r.
  - rewrite IH. f_equal. lia.
Qed.

Lemma substring_skip (a b : string) :
  substring (String.length a) (String.length b) (a ++ b) = b.
Proof.
  induction a as [|x a IH]; cbn; [|exact IH].
  induction b as [|y b IHb]; [reflexivity|]. cbn. now rewrite IHb.
Qed.

Lemma length_append (a b : string) :
  String.length (a ++ b) = (String.length a + String.length b)%nat.
Proof. induction a as [|x a IH]; cbn; [reflexivity | now rewrite IH]. Qed.

(** The suffix of a name that ends with one of the extensions. *)
Lemma suffix_of_extended (pre ext : string) :
  pre <> "" ->
  In ext (Merger.supported_video_formats ++ Merger.supported_subtitle_formats) ->
  suffix_of_name (pre ++ ext) = ext.
Proof.
  intros Hpre Hext. unfold suffix_of_name, suffix_pos, rfind.
  rewrite rfind_from_app, length_append. cbn [Nat.add].
  assert (Hl : (0 < String.length pre)%nat).
  { destruct pre; [contradiction | cbn; lia]. }
  set (k := String.length pre) in *.
  set (r := rfind_from dot pre 0 None).
  assert (E : rfind_from dot ext k r = Some k
              /\ (2 <= String.length ext)%nat).
  { cbn in Hext.
    repeat (destruct Hext as [<-|Hext]; [split; [reflexivity | cbn; lia]|]).
    destruct Hext. }
  destruct E as [-> Hlen].
  replace (Nat.ltb 0 k && Nat.ltb k (k + String.length ext - 1))%bool with true.
  - replace (k + String.length ext - k)%nat with (String.length ext) by lia.
    apply substring_skip.
  - symmetry. apply andb_true_iff. split; apply Nat.ltb_lt; lia.
Qed.

(** X17. When [glob] returns, for each pattern ["*" + ext] of a
    supported extension, only files whose name ends in [ext] after a
    non-empty stem, every pair the scanner finds passes the format
    checks of [validate_inputs]: the video's suffix is a supported
    video format and the subtitle's a supported subtitle format. *)
Theorem scanned_files_have_supported_formats (glob : string -> list string)
    (directory : string) :
  (forall ext p,
     In ext (Merger.supported_video_formats ++ Merger.supported_subtitle_formats) ->
     In p (glob (os_path_join (os_path_join directory "**") (pattern_of ext))) ->
     exists pre, pre <> "" /\ name p = pre ++ ext) ->
  forall v s,
    In (v, s) (find_video_subtitle_pairs glob directory) ->
    video_format_ok v = true /\ subtitle_format_ok s = true.
Proof.
  intros Hglob.
  assert (Hv : forall v, In v (collect glob directory video_extensions) ->
                         video_format_ok v = true).
  { intros v Hin. unfold collect in Hin. apply in_flat_map in Hin.
    destruct Hin as (pat & Hpat & Hin).
    assert (exists ext, pat = pattern_of ext /\ In ext Merger.supported_video_formats)
      as (ext & -> & Hext).
    { cbn in Hpat.
      repeat (destruct Hpat as [<-|Hpat];
              [eexists; split; [reflexivity | cbn; tauto]|]).
      destruct Hpat. }
    destruct (Hglob ext v (in_or_app _ _ _ (or_introl Hext)) Hin) as (pre & Hpre & Hn).
    unfold video_format_ok, PathLib.suffix. rewrite Hn, suffix_of_extended;
      [|exact Hpre | apply in_or_app; now left].
    cbn in Hext.
    repeat (destruct Hext as [<-|Hext]; [reflexivity|]). destruct Hext. }
  assert (Hs : forall s, In s (collect glob directory subtitle_extensions) ->
                         subtitle_format_ok s = true).
  { intros s Hin. unfold collect in Hin. apply in_flat_map in Hin.
    destruct Hin as (pat & Hpat & Hin).
    assert (exists ext, pat = pattern_of ext /\ In ext Merger.supported_subtitle_formats)
      as (ext & -> & Hext).
    { cbn in Hpat.
      repeat (destruct Hpat as [<-|Hpat];
              [eexists; split; [reflexivity | cbn; tauto]|]).
      destruct Hpat. }
    destruct (Hglob ext s (in_or_app _ _ _ (or_intror Hext)) Hin) as (pre & Hpre & Hn).
    unfold subtitle_format_ok, PathLib.suffix. rewrite Hn, suffix_of_extended;
      [|exact Hpre | apply in_or_app; now right].
    cbn in Hext.
    repeat (destruct Hext as [<-|Hext]; [reflexivity|]). destruct Hext. }
  intros v s Hin. unfold find_video_subtitle_pairs, pairs_of in Hin.
  apply in_flat_map in Hin. destruct Hin as (v' & Hv' & Hin).
  unfold matching_subtitles in Hin.
  destruct (filter (is_candidate v') (collect glob directory subtitle_extensions))
    as [|c cs] eqn:F; [destruct Hin|].
  destruct Hin as [Hin|[]]. injection Hin as -> <-.
  split; [now apply Hv|]. apply Hs.
  assert (Hsub : forall x, In x (c :: cs) ->
                           In x (collect glob directory subtitle_extensions)).
  { intros x Hx. rewrite <- F in Hx. now apply filter_In in Hx. }
  unfold best_match.
  destruct (find _ (c :: cs)) as [x|] eqn:Ef.
  - destruct (String.eqb x ""); [apply Hsub; now left|].
    apply Hsub. now apply find_some in Ef.
  - apply Hsub. now left.
Qed.

Lemma scanned_files_have_supported_formats_witness :
  video_format_ok "d/movie.mp4" = true /\ subtitle_format_ok "d/movie.ass" = true.
Proof.
  apply (scanned_files_have_supported_formats
           (Sample.glob_listing Sample.movie_dir) "d").
  - intros ext p Hext Hin. cbn in Hext.
    repeat (destruct Hext as [<-|Hext];
            [vm_compute in Hin;
             repeat (destruct Hin as [<-|Hin];
                     [first [ exists "movie"; split; [discriminate | reflexivity]
                            | exists "other"; split; [discriminate | reflexivity] ]|]);
             destruct Hin|]).
    destruct Hext.
  - vm_compute. left. reflexivity.
Defined.

End ScannerProps.

(** ** Pairing: consequences of the rule *)

Module PairingProps.
Import Py PathLib FFmpegLib Batch Spec PairingFacts.

Lemma is_prefix_refl (l : list string) : is_prefix l l = true.
Proof. apply is_prefix_iff. exists []. now rewrite app_nil_r. Qed.

(** X18. The directory test of the scanner holds exactly when one
    directory is the other or lies below it: the final comparison
    [video_dir == subtitle_dir] never decides anything, and two
    directories that part below a common ancestor are never related. *)
Theorem dirs_related_prefix (video_dir subtitle_dir : list string) :
  dirs_related video_dir subtitle_dir
  = (relative_to_ok video_dir subtitle_dir || relative_to_ok subtitle_dir video_dir)%bool
  /\ (relative_to_ok video_dir subtitle_dir = false ->
      relative_to_ok subtitle_dir video_dir = false ->
      list_eqb video_dir subtitle_dir = false)
  /\ (forall base a b below_a below_b,
        a <> b ->
        dirs_related (base ++ a :: below_a) (base ++ b :: below_b) = false).
Proof.
  assert (dead : relative_to_ok video_dir subtitle_dir = false ->
                 list_eqb video_dir subtitle_dir = false).
  { intros H. destruct (list_eqb video_dir subtitle_dir) eqn:E; [|reflexivity].
    apply list_eqb_iff in E. subst. unfold relative_to_ok in H.
    now rewrite is_prefix_refl in H. }
  split; [|split].
  - unfold dirs_related.
    destruct (relative_to_ok video_dir subtitle_dir) eqn:E1; [reflexivity|].
    destruct (relative_to_ok subtitle_dir video_dir) eqn:E2; [reflexivity|].
    now apply dead.
  - intros H _. now apply dead.
  - intros base a b ra rb Hab.
    destruct (dirs_related _ _) eqn:E; [exfalso|reflexivity].
    apply dirs_related_iff in E. unfold dirs_close, at_or_below in E.
    destruct E as [[rest E]|[rest E]];
      rewrite <- app_assoc in E; apply app_inv_head in E;
      cbn in E; injection E as E _; congruence.
Qed.

(** The videos of the pairs: those with a candidate, in scan order. *)
Lemma pairs_of_videos (video_files subtitle_files : list string) :
  map fst (pairs_of video_files subtitle_files)
  = filter (fun v => existsb (is_candidate v) subtitle_files) video_files.
Proof.
  unfold pairs_of. induction video_files as [|v vs IH]; [reflexivity|].
  cbn [flat_map filter]. rewrite map_app, IH. unfold matching_subtitles.
  destruct (filter (is_candidate v) subtitle_files) as [|c cs] eqn:F.
  - assert (E : existsb (is_candidate v) subtitle_files = false).
    { destruct (existsb _ _) eqn:E; [|reflexivity].
      apply existsb_exists in E. destruct E as (x & Hx & Hc).
      assert (In x (filter (is_candidate v) subtitle_files)) by now apply filter_In.
      rewrite F in H. destruct H. }
    now rewrite E.
  - assert (E : existsb (is_candidate v) subtitle_files = true).
    { apply existsb_exists. exists c.
      assert (In c (filter (is_candidate v) subtitle_files)) by (rewrite F; now left).
      now apply filter_In in H. }
    now rewrite E.
Qed.

Lemma chosen_sound v subtitle_files s :
  chosen v subtitle_files = Some s ->
  In s subtitle_files /\ is_candidate v s = true
  /\ ((exists s', In s' subtitle_files /\ is_candidate v s' = true
                  /\ stem s' = stem v)
      -> stem s = stem v).
Proof.
  unfold chosen.
  destruct (find (fun s0 => (is_candidate v s0 && String.eqb (stem s0) (stem v))%bool)
                 subtitle_files) as [x|] eqn:F.
  - intros H. injection H as <-. apply find_some in F. destruct F as [I C].
    apply andb_true_iff in C. destruct C as [C1 C2]. apply String.eqb_eq in C2.
    auto.
  - intros H. apply find_some in H. destruct H as [I C].
    split; [exact I|]. split; [exact C|].
    intros (s' & I' & C' & E'). exfalso.
    pose proof (find_none _ _ F s' I') as N. cbn in N.
    rewrite C' in N. apply String.eqb_eq in E'. rewrite E' in N. discriminate.
Qed.

(** X19. The pairs of [find_video_subtitle_pairs] list, in scan
    order and once per scan entry, exactly the videos that have a
    candidate subtitle; there are never more pairs than scanned videos;
    both members of a pair come from the scans and satisfy the name and
    directory rule; and when some candidate has the video's own stem,
    the chosen subtitle has it. *)
Theorem find_pairs_sound_and_complete (glob : string -> list string)
    (directory : string) :
  let videos := collect glob directory video_extensions in
  let subtitles := collect glob directory subtitle_extensions in
  let pairs := find_video_subtitle_pairs glob directory in
  Forall (fun s => s <> "") subtitles ->
  map fst pairs = filter (fun v => existsb (is_candidate v) subtitles) videos
  /\ (List.length pairs <= List.length videos)%nat
  /\ (forall v s,
        In (v, s) pairs ->
        In v videos /\ In s subtitles
        /\ stems_related (stem v) (stem s)
        /\ dirs_close (parent v) (parent s)
        /\ ((exists s', In s' subtitles /\ is_candidate v s' = true
                        /\ stem s' = stem v)
            -> stem s = stem v)).
Proof.
  intros videos subtitles pairs Hne.
  assert (Hv : map fst pairs
               = filter (fun v => existsb (is_candidate v) subtitles) videos)
    by apply pairs_of_videos.
  split; [exact Hv|]. split.
  - rewrite <- (length_map fst pairs), Hv. apply filter_length_le.
  - intros v s Hin.
    assert (Ep : pairs = pairing videos subtitles) by now apply pairs_of_pairing.
    rewrite Ep in Hin. unfold pairing in Hin. apply in_flat_map in Hin.
    destruct Hin as (v' & Hv' & Hin).
    destruct (chosen v' subtitles) as [s'|] eqn:C; [|destruct Hin].
    destruct Hin as [Hin|[]]. injection Hin as -> ->.
    destruct (chosen_sound _ _ _ C) as (I & Cd & Ex).
    apply is_candidate_iff in Cd. destruct Cd as [Cs Cdr].
    repeat split; assumption.
Qed.

Lemma find_pairs_sound_and_complete_witness :
  map fst (find_video_subtitle_pairs (Sample.glob_listing Sample.movie_dir) "d")
  = ["d/movie.mp4"]
  /\ (List.length
        (find_video_subtitle_pairs (Sample.glob_listing Sample.movie_dir) "d")
      <= 1)%nat.
Proof.
  pose proof (find_pairs_sound_and_complete (Sample.glob_listing Sample.movie_dir) "d")
    as H.
  cbv zeta in H.
  assert (Hne : Forall (fun s => s <> "")
                  (collect (Sample.glob_listing Sample.movie_dir) "d"
                           subtitle_extensions)).
  { vm_compute. repeat constructor; discriminate. }
  destruct (H Hne) as (A & B & _).
  split; [rewrite A; reflexivity | exact B].
Defined.

End PairingProps.

(** ** Batch processing: reruns, previews *)

Module BatchProps.
Import Py PathLib FFmpegLib Batch Spec Terms Cli.

Section Loop.
Variable World : Type.
Variable exists_ : World -> string -> bool.
Variable glob : World -> string -> list string.
Variable merge :
  World -> string -> string -> string -> option string ->
  World * (list event * outcome unit).
Variable output_suffix : string.
Variable force_style : option string.

Let turns_ := turns World exists_ merge output_suffix force_style.
Let after_ := world_after World exists_ merge output_suffix force_style.
Let loop_ := process_pairs World exists_ merge.
Let batch_ := batch_merge World exists_ glob merge.

(** Pairs whose output files all exist are skipped, whatever the
    merge would do. *)
Lemma process_pairs_all_skipped (pairs : list (string * string)) (w : World) :
  Forall (fun p => exists_ w (output_file_of (fst p) output_suffix) = true) pairs ->
  forall total i t,
  exists tr,
    loop_ total i output_suffix force_style pairs w t = (w, (tr, Returned t))
    /\ forall merge',
         process_pairs World exists_ merge' total i output_suffix force_style pairs w t
         = (w, (tr, Returned t)).
Proof.
  subst loop_. induction 1 as [|[v s] rest Hx _ IH]; intros total i t.
  - exists []. split; [reflexivity | intros; reflexivity].
  - destruct (IH total (i + 1) t) as (tr & E & E').
    cbn [process_pairs]. cbn [fst] in Hx. rewrite Hx, E.
    eexists. split; [reflexivity|].
    intros merge'. now rewrite E'.
Qed.

(** X20. When every pair's output file exists already, a batch
    run changes nothing, runs no merge (its result is the same for any
    merge function) and reports success. *)
Theorem rerun_skips_everything (w : World) (directory : string) :
  let pairs := find_video_subtitle_pairs (glob w) directory in
  pairs <> [] ->
  Forall (fun p => exists_ w (output_file_of (fst p) output_suffix) = true) pairs ->
  exists tr,
    batch_ w directory output_suffix force_style false = (w, (tr, Returned true))
    /\ forall merge',
         batch_merge World exists_ glob merge' w directory output_suffix
                     force_style false
         = (w, (tr, Returned true)).
Proof.
  intros pairs Hne Hall. subst batch_. unfold batch_merge. fold pairs.
  destruct (is_nil pairs) eqn:N.
  { apply BatchFacts.is_nil_iff in N. contradiction. }
  destruct (process_pairs_all_skipped pairs w Hall (Z.of_nat (List.length pairs)) 1
              (mkTally 0 [])) as (tr & E & E').
  subst loop_. rewrite E. eexists. split; [reflexivity|].
  intros merge'. rewrite E'. reflexivity.
Qed.

(** The loop over a list that starts with turns that end ordinarily
    goes on with the rest, from the world those turns leave. *)
Lemma process_pairs_app (l1 rest : list (string * string)) :
  forall total i w t,
  Forall (fun vd => ordinary_turn (snd vd)) (turns_ w l1) ->
  exists tr1 t1,
    loop_ total i output_suffix force_style (l1 ++ rest) w t
    = let '(w', (tr, r)) :=
        loop_ total (i + Z.of_nat (List.length l1)) output_suffix force_style
              rest (after_ w l1) t1 in
      (w', ((tr1 ++ tr)%list, r)).
Proof.
  subst turns_ after_ loop_.
  induction l1 as [|[v s] l1 IH]; intros total i w t Hord.
  - exists [], t. cbn [app List.length world_after Z.of_nat]. rewrite Z.add_0_r.
    destruct (process_pairs _ _ _ _ _ _ _ _ _ _) as [w' [tr r]]. reflexivity.
  - cbn [turns] in Hord. unfold turn in Hord. cbn [fst snd] in Hord.
    cbn [app process_pairs world_after List.length]. unfold turn. cbn [fst snd].
    replace (i + Z.of_nat (S (List.length l1)))
      with (i + 1 + Z.of_nat (List.length l1)) by lia.
    destruct (exists_ w (output_file_of v output_suffix)) eqn:Ex.
    + apply Forall_inv_tail in Hord.
      destruct (IH total (i + 1) w t Hord) as (tr1 & t1 & E). cbn [fst]. rewrite E.
      eexists (_ :: _ :: tr1), t1.
      destruct (process_pairs _ _ _ _ _ _ _ rest _ _) as [w' [tr r]].
      reflexivity.
    + destruct (merge w v s (output_file_of v output_suffix) force_style)
        as [w1 [tr0 r0]] eqn:Em.
      cbn [fst snd] in *. destruct r0 as [[]|e].
      * apply Forall_inv_tail in Hord.
        destruct (IH total (i + 1) w1
                     (mkTally (success_count t + 1) (failed_files t)) Hord)
          as (tr1 & t1 & E).
        rewrite E. eexists (_ :: tr0 ++ _ :: tr1)%list, t1.
        destruct (process_pairs _ _ _ _ _ _ _ rest _ _) as [w' [tr r]].
        cbn [app]. now rewrite <- !app_assoc.
      * pose proof (Forall_inv Hord) as Oe. cbn [snd ordinary_turn] in Oe.
        rewrite Oe. apply Forall_inv_tail in Hord.
        destruct (IH total (i + 1) w1
                     (mkTally (success_count t) (failed_files t ++ [v])%list) Hord)
          as (tr1 & t1 & E).
        rewrite E. eexists (_ :: tr0 ++ _ :: tr1)%list, t1.
        destruct (process_pairs _ _ _ _ _ _ _ rest _ _) as [w' [tr r]].
        cbn [app]. now rewrite <- !app_assoc.
Qed.

(** An exception outside the [Exception] hierarchy leaves the loop
    and the batch at once. *)
Lemma batch_merge_interrupted (w : World) (directory : string)
    (done rest : list (string * string)) (video subtitle : string)
    (w1 : World) (tr1 : list event) (e : exc) :
  find_video_subtitle_pairs (glob w) directory = (done ++ (video, subtitle) :: rest)%list ->
  Forall (fun vd => ordinary_turn (snd vd)) (turns_ w done) ->
  exists_ (after_ w done) (output_file_of video output_suffix) = false ->
  merge (after_ w done) video subtitle (output_file_of video output_suffix) force_style
    = (w1, (tr1, Raised e)) ->
  issubclass (exc_type e) Exception = false ->
  exists tr,
    batch_ w directory output_suffix force_style false = (w1, (tr, Raised e)).
Proof.
  intros Hp Hord Hex Hm He. subst batch_. unfold batch_merge. rewrite Hp.
  destruct (is_nil _) eqn:N.
  { apply BatchFacts.is_nil_iff in N. destruct done; discriminate. }
  destruct (process_pairs_app done ((video, subtitle) :: rest)
              (Z.of_nat (List.length (done ++ (video, subtitle) :: rest))) 1 w
              (mkTally 0 []) Hord) as (tr0 & t1 & E).
  subst loop_ after_. rewrite E. cbn [process_pairs]. rewrite Hex, Hm, He.
  eexists. reflexivity.
Qed.

(** X21. A dry run changes nothing and runs no merge (its result
    is the same for any merge function); it reports success exactly
    when a pair was found, and the output names it announces are, in
    order, each video's stem, the suffix and the video's extension. *)
Theorem dry_run_merges_nothing (w : World) (directory : string) :
  let pairs := find_video_subtitle_pairs (glob w) directory in
  (exists tr,
     batch_ w directory output_suffix force_style true
     = (w, (tr, Returned (negb (is_nil pairs))))
     /\ (forall merge',
           batch_merge World exists_ glob merge' w directory output_suffix
                       force_style true
           = (w, (tr, Returned (negb (is_nil pairs)))))
     /\ (pairs <> [] ->
         previewed_outputs tr
         = map (fun p => stem (fst p) ++ output_suffix ++ suffix (fst p)) pairs)).
Proof.
  intros pairs. subst batch_. unfold batch_merge. fold pairs.
  destruct (is_nil pairs) eqn:N.
  - eexists. split; [reflexivity|]. split; [reflexivity|].
    intros H. apply BatchFacts.is_nil_iff in N. contradiction.
  - eexists. split; [reflexivity|]. split; [reflexivity|]. intros _.
    unfold previewed_outputs.
    cbn [app flat_map]. rewrite flat_map_app. cbn [flat_map app]. rewrite app_nil_r.
    generalize 1 as i. clear N.
    induction pairs as [|p rest IH]; intros i; [reflexivity|].
    cbn [preview map]. rewrite flat_map_app, IH. reflexivity.
Qed.

End Loop.

Lemma rerun_skips_everything_witness :
  exists tr,
    batch_merge Sample.shelf Sample.on_shelf Sample.shelf_glob Sample.shelf_merge
                Sample2.finished_shelf "d" "_with_subtitles" None false
    = (Sample2.finished_shelf, (tr, Returned true))
    /\ forall merge',
         batch_merge Sample.shelf Sample.on_shelf Sample.shelf_glob merge'
                     Sample2.finished_shelf "d" "_with_subtitles" None false
         = (Sample2.finished_shelf, (tr, Returned true)).
Proof.
  apply (rerun_skips_everything Sample.shelf Sample.on_shelf Sample.shelf_glob
           Sample.shelf_merge "_with_subtitles" None Sample2.finished_shelf "d").
  - vm_compute. discriminate.
  - vm_compute. repeat constructor.
Defined.

End BatchProps.

(** ** The command line of the batch tool *)

Module BatchMainProps.
Import Py PathLib FFmpegLib Batch Spec Terms Cli BatchMain.

Section Main.
Variable World : Type.
Variable exists_ : World -> string -> bool.
Variable glob : World -> string -> list string.
Variable merge :
  World -> string -> string -> string -> option string ->
  World * (list event * outcome unit).

(** With merges that fail ordinarily the batch returns. *)
Lemma batch_merge_returns (w : World) (directory sfx : string)
    (style : option string) (dry : bool) :
  fails_ordinarily merge ->
  exists w' tr b,
    batch_merge World exists_ glob merge w directory sfx style dry
    = (w', (tr, Returned b))
    /\ (find_video_subtitle_pairs (glob w) directory = [] -> b = false /\ w' = w).
Proof.
  intros Hm. unfold batch_merge.
  destruct (is_nil (find_video_subtitle_pairs (glob w) directory)) eqn:N.
  { do 3 eexists. split; [reflexivity|]. auto. }
  assert (Hne : find_video_subtitle_pairs (glob w) directory <> []).
  { intros E. rewrite E in N. discriminate. }
  destruct dry.
  { do 3 eexists. split; [reflexivity|]. intros E. contradiction. }
  destruct (BatchFacts.process_pairs_turns World exists_ merge sfx style Hm
              (find_video_subtitle_pairs (glob w) directory)
              (Z.of_nat (List.length (find_video_subtitle_pairs (glob w) directory)))
              1 w (mkTally 0 [])) as [tr E].
  rewrite E. do 3 eexists. split; [reflexivity|]. intros E'. contradiction.
Qed.

(** X22. When the directory exists and merges fail only with
    exceptions of the [Exception] hierarchy, [main] of the batch tool
    returns normally whatever [batch_merge] answered, after the
    closing line of that answer: it does not exit with a failure
    status when merges failed. With no pair found the answer is
    [False] and nothing has changed. *)
Theorem batch_main_returns_despite_failures (w : World) (args : arguments) :
  exists_ w (directory args) = true ->
  fails_ordinarily merge ->
  exists w' tr b,
    batch_merge World exists_ glob merge w (directory args) (suffix args)
                (force_style args) (dry_run args)
    = (w', (tr, Returned b))
    /\ main World exists_ glob merge w args
       = (w', ((tr ++ [EvPrint (if b then "\n🎉 批量处理完成!"
                                else "\n⚠️ 批量处理完成，但有部分文件处理失败") []])%list,
               Returns))
    /\ (find_video_subtitle_pairs (glob w) (directory args) = [] ->
        b = false /\ w' = w).
Proof.
  intros Hd Hm.
  destruct (batch_merge_returns w (directory args) (suffix args) (force_style args)
              (dry_run args) Hm) as (w' & tr & b & E & N).
  exists w', tr, b. split; [exact E|]. split; [|exact N].
  unfold main. rewrite Hd, E. reflexivity.
Qed.

Lemma interrupt_not_ordinary (c : exc_class) :
  issubclass c KeyboardInterrupt = true -> issubclass c Exception = false.
Proof. destruct c; cbn; congruence. Qed.

(** X23. A [KeyboardInterrupt] during the merge of a pair ends
    the batch at once: [batch_merge] raises it, the pairs after it
    are not touched (the world is the one the interrupted merge left),
    and [main] prints the interruption line and exits with status
    130. *)
Theorem interrupt_aborts_batch (w : World) (args : arguments)
    (done rest : list (string * string)) (video subtitle : string)
    (w1 : World) (tr1 : list event) (e : exc) :
  exists_ w (directory args) = true ->
  dry_run args = false ->
  find_video_subtitle_pairs (glob w) (directory args)
    = (done ++ (video, subtitle) :: rest)%list ->
  Forall (fun vd => ordinary_turn (snd vd))
         (turns World exists_ merge (suffix args) (force_style args) w done) ->
  exists_ (world_after World exists_ merge (suffix args) (force_style args) w done)
          (output_file_of video (suffix args)) = false ->
  merge (world_after World exists_ merge (suffix args) (force_style args) w done)
        video subtitle (output_file_of video (suffix args)) (force_style args)
    = (w1, (tr1, Raised e)) ->
  issubclass (exc_type e) KeyboardInterrupt = true ->
  exists tr,
    batch_merge World exists_ glob merge w (directory args) (suffix args)
                (force_style args) false
    = (w1, (tr, Raised e))
    /\ main World exists_ glob merge w args
       = (w1, ((tr ++ [EvPrint "\n用户中断操作" []])%list, Exits 130)).
Proof.
  intros Hd Hdry Hp Hord Hex Hm Hk.
  destruct (BatchProps.batch_merge_interrupted World exists_ glob merge
              (suffix args) (force_style args) w (directory args) done rest
              video subtitle w1 tr1 e Hp Hord Hex Hm (interrupt_not_ordinary _ Hk))
    as [tr E].
  exists tr. split; [exact E|].
  unfold main. rewrite Hd, Hdry, E, Hk. reflexivity.
Qed.

End Main.

Lemma interrupt_aborts_batch_witness :
  exists tr,
    batch_merge Sample.shelf Sample.on_shelf Sample.shelf_glob
                Sample2.interrupted_merge Sample2.fresh_shelf "d" "_with_subtitles"
                None false
    = ((Sample2.fresh_shelf ++ ["d/a_with_subtitles.mp4"])%list,
       (tr, Raised (new_exc KeyboardInterrupt "")))
    /\ main Sample.shelf Sample.on_shelf Sample.shelf_glob Sample2.interrupted_merge
            Sample2.fresh_shelf (mkArgs "d" "_with_subtitles" None INFO false)
       = ((Sample2.fresh_shelf ++ ["d/a_with_subtitles.mp4"])%list,
          ((tr ++ [EvPrint "\n用户中断操作" []])%list, Exits 130)).
Proof.
  apply (interrupt_aborts_batch Sample.shelf Sample.on_shelf Sample.shelf_glob
           Sample2.interrupted_merge Sample2.fresh_shelf
           (mkArgs "d" "_with_subtitles" None INFO false)
           [("d/a.mp4", "d/a.ass")] [("d/c.mp4", "d/c.ass")]
           "d/b.mp4" "d/b.ass" _ []); try reflexivity.
  vm_compute. repeat constructor.
Defined.

Lemma batch_main_returns_despite_failures_witness :
  exists w' tr b,
    batch_merge Sample.shelf Sample.on_shelf Sample.shelf_glob Sample.shelf_merge
                Sample2.fresh_shelf "d" "_with_subtitles" None false
    = (w', (tr, Returned b))
    /\ main Sample.shelf Sample.on_shelf Sample.shelf_glob Sample.shelf_merge
            Sample2.fresh_shelf (mkArgs "d" "_with_subtitles" None INFO false)
       = (w', ((tr ++ [EvPrint (if b then "\n🎉 批量处理完成!"
                                else "\n⚠️ 批量处理完成，但有部分文件处理失败") []])%list,
               Returns))
    /\ (find_video_subtitle_pairs (Sample.shelf_glob Sample2.fresh_shelf) "d" = [] ->
        b = false /\ w' = Sample2.fresh_shelf).
Proof.
  apply (batch_main_returns_despite_failures Sample.shelf Sample.on_shelf
           Sample.shelf_glob Sample.shelf_merge Sample2.fresh_shelf
           (mkArgs "d" "_with_subtitles" None INFO false)).
  - reflexivity.
  - exact BatchFacts.shelf_merge_fails_ordinarily.
Defined.

End BatchMainProps.
